(** * scrypt key derivation records and encrypted containers

    A shallow embedding of the scrypt front end vendored in the repository
    (node-scrypt wrapper and scrypt-1.2.0):

    - [src/util/memlimit.c] and [scrypt/win/memlimit.c]   (memory budget)
    - [src/scryptwrapper/pickparams.c]                    (parameter choice)
    - [src/scryptwrapper/keyderivation.c], [hash.c]       (KDF, Verify)
    - [src/node-boilerplate/scrypt_kdf-verify_sync.cc]    (binding)
    - [src/node-boilerplate/scrypt_kdf-verify_async.cc],
      [inc/scrypt_async.h]                                (binding, callback)
    - [src/node-boilerplate/scrypt_params_sync.cc],
      [scrypt_kdf_sync.cc], [inc/scrypt_common.h]         (bindings)
    - [lib/scryptenc/scryptenc.c]                         (containers)

    Integers of C are [Z] with the wrap-around written out, bytes are [Z]
    in [0, 256), buffers are lists of bytes, [double] is IEEE-754 binary64
    as the standard library specifies it ([SpecFloat], round to nearest
    even), so every definition below computes. *)

From Stdlib Require Import ZArith List Bool Lia.
From Stdlib Require Import SpecFloat.
Import ListNotations.

Local Open Scope Z_scope.

(** ** Results of C functions *)

(** A C function of this code base returns 0 and its outputs, or a
    non-zero code.  [Undef] marks an execution that C leaves undefined
    (a conversion of a double that does not fit the integer type, an
    integer division by zero, a shift by a count of 64 or more). *)
Inductive result (A : Type) : Type :=
| Ok (a : A)
| Err (rc : Z)
| Undef.
Arguments Ok {A} a.
Arguments Err {A} rc.
Arguments Undef {A}.

Definition rbind {A B} (x : result A) (f : A -> result B) : result B :=
  match x with
  | Ok a => f a
  | Err rc => Err rc
  | Undef => Undef
  end.

(** The value [int] a caller of the C function sees. *)
Definition rc_of {A} (x : result A) : option Z :=
  match x with
  | Ok _ => Some 0
  | Err rc => Some rc
  | Undef => None
  end.

(** ** Machine integers and bytes *)

Definition byte := Z.

Definition SIZE_MAX : Z := 2 ^ 64 - 1.
Definition u8 (z : Z) : Z := z mod 2 ^ 8.
Definition u32 (z : Z) : Z := z mod 2 ^ 32.
Definition u64 (z : Z) : Z := z mod 2 ^ 64.

(** [(uint64_t)(a) << k].  C defines the shift for a count from 0 to 63
    and leaves every other count undefined. *)
Definition shl64 (a k : Z) : result Z :=
  if (0 <=? k) && (k <? 64) then Ok (u64 (Z.shiftl a k)) else Undef.

Definition len (l : list byte) : Z := Z.of_nat (length l).
Definition take (n : Z) (l : list byte) : list byte := firstn (Z.to_nat n) l.
Definition drop (n : Z) (l : list byte) : list byte := skipn (Z.to_nat n) l.
(** [&buf[off]] read for [n] bytes. *)
Definition slice (off n : Z) (l : list byte) : list byte := take n (drop off l).
(** [buf[i]]. *)
Definition at_ (i : Z) (l : list byte) : byte := nth (Z.to_nat i) l 0.
(** [memcpy(&dst[off], src, len src)]. *)
Definition memcpy (dst : list byte) (off : Z) (src : list byte) : list byte :=
  take off dst ++ src ++ drop (off + len src) dst.

Fixpoint bytes_eqb (a b : list byte) : bool :=
  match a, b with
  | [], [] => true
  | x :: a', y :: b' => (x =? y) && bytes_eqb a' b'
  | _, _ => false
  end.

(** [memcmp(a, b, n) != 0] on two [n]-byte areas. *)
Definition memcmp (a b : list byte) : bool := negb (bytes_eqb a b).

(** The lists that are arrays of [uint8_t]. *)
Definition is_bytes (l : list byte) : Prop := Forall (fun b => 0 <= b < 256) l.
Definition is_bytesb (l : list byte) : bool :=
  forallb (fun b => (0 <=? b) && (b <? 256)) l.

(** Modelled from the spec: sysendian.h is not among the sources; the
    record stores [blockSizeFactor] and [parallelism] as 4-byte
    big-endian integers. *)
Definition be32enc (x : Z) : list byte :=
  [ Z.land (Z.shiftr x 24) 255; Z.land (Z.shiftr x 16) 255;
    Z.land (Z.shiftr x 8) 255; Z.land x 255 ].

Definition be32dec (b : list byte) : Z :=
  Z.shiftl (at_ 0 b) 24 + Z.shiftl (at_ 1 b) 16 + Z.shiftl (at_ 2 b) 8 + at_ 3 b.

(** The literal ["scrypt"]. *)
Definition magic : list byte := [115; 99; 114; 121; 112; 116].

(** ** IEEE-754 binary64 *)

Module Double.

Definition prec : Z := 53.
Definition emax : Z := 1024.

Definition double := spec_float.

Definition mul : double -> double -> double := SFmul prec emax.
Definition div : double -> double -> double := SFdiv prec emax.
Definition ltb : double -> double -> bool := SFltb.
Definition gtb (x y : double) : bool := SFltb y x.
Definition eqb : double -> double -> bool := SFeqb.

(** Conversion of an integer, rounded to nearest even. *)
Definition of_Z (z : Z) : double := binary_normalize prec emax z 0 false.

(** The integral part of a finite double (truncation toward zero). *)
Definition trunc (x : double) : option Z :=
match x with
| S754_zero _ => Some 0
| S754_finite s m e => Some (cond_Zopp s (Z.shiftl (Zpos m) e))
| S754_infinity _ | S754_nan => None
end.

(** [(T)x] for an unsigned integer type of [w] bits: defined only when
  the integral part fits. *)
Definition to_unsigned (w : Z) (x : double) : option Z :=
match trunc x with
| Some z => if (0 <=? z) && (z <? 2 ^ w) then Some z else None
| None => None
end.

Definition half : double := S754_finite false 4503599627370496 (-53).

End Double.

Import Double.

(** ** src/util/memlimit.c *)

Module Util.

(** [memtouse(maxmem, maxmemfrac, memlimit_min, &memlimit)]. *)
Definition memtouse (maxmem : Z) (maxmemfrac : double) (memlimit_min : Z)
: result Z :=
(* Only use the specified fraction of the available memory. *)
let maxmemfrac :=
  if gtb maxmemfrac half || eqb maxmemfrac (of_Z 0) then half
  else maxmemfrac in
match to_unsigned 64 (mul maxmemfrac (of_Z memlimit_min)) with
| None => Undef
| Some memavail =>
  (* Don't use more than the specified maximum. *)
  let memavail :=
    if (maxmem >? 0) && (memavail >? maxmem) then maxmem else memavail in
  (* But always allow at least 1 MiB. *)
  let memavail := if memavail <? 1048576 then 1048576 else memavail in
  Ok memavail
end.

End Util.

(** ** scrypt/win/memlimit.c *)

Module Win.

(** What the four probes of the platform report: [None] when the probe
  fails, [Some SIZE_MAX] for a probe that is compiled out. *)
Record memlimits : Type := {
sysctl_memlimit : option Z;
sysinfo_memlimit : option Z;
rlimit_memlimit : option Z;
sysconf_memlimit : option Z
}.

(** [memtouse(maxmem, maxmemfrac, &memlimit)]. *)
Definition memtouse (probes : memlimits) (maxmem : Z) (maxmemfrac : double)
: result Z :=
match sysctl_memlimit probes, sysinfo_memlimit probes,
      rlimit_memlimit probes, sysconf_memlimit probes with
| Some sysctl, Some sysinfo, Some rlimit, Some sysconf =>
  (* Find the smallest of them. *)
  let memlimit_min := SIZE_MAX in
  let memlimit_min := if memlimit_min >? sysctl then sysctl else memlimit_min in
  let memlimit_min := if memlimit_min >? sysinfo then sysinfo else memlimit_min in
  let memlimit_min := if memlimit_min >? rlimit then rlimit else memlimit_min in
  let memlimit_min := if memlimit_min >? sysconf then sysconf else memlimit_min in
  (* Only use the specified fraction of the available memory. *)
  let maxmemfrac :=
    if gtb maxmemfrac half || eqb maxmemfrac (of_Z 0) then half
    else maxmemfrac in
  (* memavail = (size_t)maxmemfrac * memlimit_min; *)
  match to_unsigned 64 maxmemfrac with
  | None => Undef
  | Some frac =>
    let memavail := u64 (frac * memlimit_min) in
    let memavail :=
      if (maxmem >? 0) && (memavail >? maxmem) then maxmem else memavail in
    let memavail := if memavail <? 1048576 then 1048576 else memavail in
    Ok memavail
  end
| _, _, _, _ => Err 1
end.

End Win.

(** ** The choice of N, r, p *)

(** The scan [for (logN = 1; logN < 63; logN += 1)
    if ((uint64_t)(1) << logN > maxN / 2) break;] started at [logN];
    [fuel] bounds the number of iterations left. *)
Fixpoint scan_logN (fuel : nat) (logN : Z) (maxN : double) : result Z :=
  match fuel with
  | O => Ok logN
  | S fuel' =>
    if logN <? 63 then
      match shl64 1 logN with
      | Ok N =>
        if gtb (of_Z N) (div maxN (of_Z 2)) then Ok logN
        else scan_logN fuel' (logN + 1) maxN
      | Err rc => Err rc
      | Undef => Undef
      end
    else Ok logN
  end.

(** The part of [pickparams] after [memtouse] and [scryptenc_cpuperf],
    the same text in pickparams.c and in scryptenc.c. *)
Definition pickparams_limits (memlimit : Z) (opps maxtime : double)
  : result (Z * Z * Z) :=
  let opslimit := mul opps maxtime in
  (* Allow a minimum of 2^15 salsa20/8 cores. *)
  let opslimit := if ltb opslimit (of_Z 32768) then of_Z 32768 else opslimit in
  (* Fix r = 8 for now. *)
  let r := 8 in
  if ltb opslimit (of_Z (memlimit / 32)) then
    (* Set p = 1 and choose N based on the CPU limit. *)
    let p := 1 in
    let maxN := div opslimit (of_Z (u32 (r * 4))) in
    rbind (scan_logN 62 1 maxN) (fun logN =>
    Ok (logN, r, p))
  else
    (* Set N based on the memory limit. *)
    let maxN := of_Z (memlimit / u32 (r * 128)) in
    rbind (scan_logN 62 1 maxN) (fun logN =>
    (* Choose p based on the CPU limit. *)
    rbind (shl64 1 logN) (fun N =>
    let maxrp := div (div opslimit (of_Z 4)) (of_Z N) in
    let maxrp := if gtb maxrp (of_Z 1073741823) then of_Z 1073741823 else maxrp in
    match to_unsigned 32 maxrp with
    | None => Undef
    | Some m => Ok (logN, r, m / r)
    end)).

(** The part of [checkparams] after [memtouse] and [scryptenc_cpuperf]. *)
Definition checkparams_limits (memlimit : Z) (opps maxtime : double)
    (logN r p : Z) : result unit :=
  let opslimit := mul opps maxtime in
  (* Sanity-check values. *)
  if (logN <? 1) || (logN >? 63) then Err 7
  else if u64 r * u64 p >=? 1073741824 then Err 7
  else
    (* Check limits. *)
    rbind (shl64 1 logN) (fun N =>
    if r =? 0 then Undef
    else if (memlimit / N) / r <? 128 then Err 9
    else if ltb (div (div opslimit (of_Z N)) (of_Z (u32 (r * p)))) (of_Z 4)
    then Err 10
    else Ok tt).

(** ** The choice and the check as functions of the operations limit *)

(** [pickparams_limits] once [opslimit] has its floor. *)
Definition pick_from (memlimit : Z) (opslimit : double) : result (Z * Z * Z) :=
  if ltb opslimit (of_Z (memlimit / 32)) then
    rbind (scan_logN 62 1 (div opslimit (of_Z (u32 (8 * 4))))) (fun logN =>
    Ok (logN, 8, 1))
  else
    rbind (scan_logN 62 1 (of_Z (memlimit / u32 (8 * 128)))) (fun logN =>
    rbind (shl64 1 logN) (fun N =>
    let maxrp := div (div opslimit (of_Z 4)) (of_Z N) in
    let maxrp := if gtb maxrp (of_Z 1073741823) then of_Z 1073741823 else maxrp in
    match to_unsigned 32 maxrp with
    | None => Undef
    | Some m => Ok (logN, 8, m / 8)
    end)).

(** The floor of 2^15 operations that [pickparams] puts under [opslimit]. *)
Definition floored (opslimit : double) : double :=
  if ltb opslimit (of_Z 32768) then of_Z 32768 else opslimit.

(** [checkparams_limits] as a function of the operations budget. *)
Definition check_from (memlimit : Z) (opslimit : double) (logN r p : Z)
  : result unit :=
  if (logN <? 1) || (logN >? 63) then Err 7
  else if u64 r * u64 p >=? 1073741824 then Err 7
  else
    rbind (shl64 1 logN) (fun N =>
    if r =? 0 then Undef
    else if (memlimit / N) / r <? 128 then Err 9
    else if ltb (div (div opslimit (of_Z N)) (of_Z (u32 (r * p)))) (of_Z 4)
    then Err 10
    else Ok tt).

(** ** Shapes of binary64 values used in the analysis *)

(** A positive normal double: 53 significant bits. *)
Definition normal_mantissa (m : positive) : Prop := 2 ^ 52 <= Zpos m < 2 ^ 53.

(** The second half of [binary_round_aux]: rounding a 53-bit mantissa to
    nearest even and renormalising. *)
Definition round_finish (m1 : Z) (l1 : location) (e1 : Z) : spec_float :=
  let '(mrs'', e'') :=
    shr_fexp prec emax (round_nearest_even m1 l1) e1 loc_Exact in
  match shr_m mrs'' with
  | Z0 => S754_zero false
  | Zpos m => if e'' <=? emax - prec then S754_finite false m e''
              else S754_infinity false
  | Zneg _ => S754_nan
  end.

(** ** The primitives and the platform of the front end

    The hash, cipher and derivation primitives, the entropy source, the
    throughput measurement and the 3-argument [memtouse] of the platform
    are what scryptenc.c and the wrapper link against. *)
Class Primitives : Type := {
  (** [crypto_scrypt(passwd, passwdlen, salt, saltlen, N, r, p, buf, buflen)]:
      the derived bytes, [None] when it returns non-zero. *)
  crypto_scrypt : list byte -> list byte -> Z -> Z -> Z -> Z -> option (list byte);
  (** [errno] after a failing [crypto_scrypt]. *)
  scrypt_errno : Z;
  (** SHA-256 of a message. *)
  SHA256_Buf : list byte -> list byte;
  (** HMAC-SHA256 of a message under a key. *)
  HMAC_SHA256_Buf : list byte -> list byte -> list byte;
  (** [crypto_aes_key_expand(key, 32)], [None] for [NULL]. *)
  crypto_aes_key_expand : list byte -> option (list byte);
  (** Whether [crypto_aesctr_init] gets its memory. *)
  aesctr_alloc : bool;
  (** The key stream of AES in counter mode: expanded key, nonce, position
      of the byte. *)
  aesctr_keystream : list byte -> Z -> Z -> byte;
  (** [crypto_entropy_read(buf, buflen)], [None] when it returns non-zero. *)
  crypto_entropy_read : Z -> option (list byte);
  (** [scryptenc_cpuperf(&opps)]: the throughput the clock measures. *)
  scryptenc_cpuperf : result double;
  (** [memtouse(maxmem, maxmemfrac, &memlimit)] of the platform. *)
  memtouse : Z -> double -> result Z
}.

(** ** Memory and files an entry point works on *)

(** An input stream: the bytes left, how the next [fread] calls are cut
    short, and whether the stream ends on a read error. *)
Record in_file : Type := {
  in_data : list byte;
  in_cuts : list Z;
  in_error : bool
}.

(** An output stream: the bytes written, and the room left ([None] when
    every write succeeds). *)
Record out_file : Type := {
  out_data : list byte;
  out_room : option Z
}.

(** One call of [crypto_scrypt]: passwd, salt, N, r, p, buflen. *)
Definition scrypt_call : Type := (list byte * list byte * Z * Z * Z * Z)%type.

Record world : Type := {
  (** [uint8_t dk[64]] of the running entry point *)
  dk : list byte;
  (** the caller's output buffer and [*outlen] *)
  outbuf : list byte;
  outlen : Z;
  infile : in_file;
  outfile : out_file;
  (** the derivations run so far, oldest first *)
  scrypt_calls : list scrypt_call
}.

Definition set_dk (v : list byte) (w : world) : world :=
  {| dk := v; outbuf := outbuf w; outlen := outlen w; infile := infile w;
     outfile := outfile w; scrypt_calls := scrypt_calls w |}.
Definition set_outbuf (v : list byte) (w : world) : world :=
  {| dk := dk w; outbuf := v; outlen := outlen w; infile := infile w;
     outfile := outfile w; scrypt_calls := scrypt_calls w |}.
Definition set_outlen (v : Z) (w : world) : world :=
  {| dk := dk w; outbuf := outbuf w; outlen := v; infile := infile w;
     outfile := outfile w; scrypt_calls := scrypt_calls w |}.
Definition set_infile (v : in_file) (w : world) : world :=
  {| dk := dk w; outbuf := outbuf w; outlen := outlen w; infile := v;
     outfile := outfile w; scrypt_calls := scrypt_calls w |}.
Definition set_outfile (v : out_file) (w : world) : world :=
  {| dk := dk w; outbuf := outbuf w; outlen := outlen w; infile := infile w;
     outfile := v; scrypt_calls := scrypt_calls w |}.
Definition log_scrypt (c : scrypt_call) (w : world) : world :=
  {| dk := dk w; outbuf := outbuf w; outlen := outlen w; infile := infile w;
     outfile := outfile w; scrypt_calls := scrypt_calls w ++ [c] |}.

(** ** Computations with early return *)

(** A C function body: it runs on a world, leaves a world, and returns
    through [Ok], through [return (rc)] or is undefined.  The world at a
    [return (rc)] is the one the caller finds. *)
Definition M (A : Type) : Type := world -> world * result A.

Definition ret {A} (a : A) : M A := fun w => (w, Ok a).
Definition fail {A} (rc : Z) : M A := fun w => (w, Err rc).
Definition undefined {A} : M A := fun w => (w, Undef).
Definition lift {A} (x : result A) : M A := fun w => (w, x).
Definition bind {A B} (m : M A) (f : A -> M B) : M B :=
  fun w =>
    match m w with
    | (w', Ok a) => f a w'
    | (w', Err rc) => (w', Err rc)
    | (w', Undef) => (w', Undef)
    end.
Definition gets {A} (f : world -> A) : M A := fun w => (w, Ok (f w)).
Definition modify (f : world -> world) : M unit := fun w => (f w, Ok tt).

Declare Scope m_scope.
Delimit Scope m_scope with m.
Notation "x <- m ;; k" := (bind m (fun x => k))
  (at level 61, m at next level, right associativity) : m_scope.
Notation "m ;;; k" := (bind m (fun _ => k))
  (at level 61, right associativity) : m_scope.
Local Open Scope m_scope.

(** [insecure_memzero(dk, 64)]. *)
Definition insecure_memzero_dk : M unit := modify (set_dk (repeat 0 64)).

(** ** Hashing contexts *)

(** Modelled from the spec: sha256.c is not among the sources; a context
    is the key and the bytes fed so far, and the final value is the hash of
    their concatenation ("a keyed hash computed incrementally over header
    and ciphertext bytes, finalized once all bytes are seen"). *)
Record HMAC_SHA256_CTX : Type := { hmac_key : list byte; hmac_fed : list byte }.

Definition HMAC_SHA256_Init (key : list byte) : HMAC_SHA256_CTX :=
  {| hmac_key := key; hmac_fed := [] |}.
Definition HMAC_SHA256_Update (ctx : HMAC_SHA256_CTX) (data : list byte)
  : HMAC_SHA256_CTX :=
  {| hmac_key := hmac_key ctx; hmac_fed := hmac_fed ctx ++ data |}.
Definition HMAC_SHA256_Final `{Primitives} (ctx : HMAC_SHA256_CTX) : list byte :=
  HMAC_SHA256_Buf (hmac_key ctx) (hmac_fed ctx).

(** ** AES in counter mode *)

(** Modelled from the spec: crypto_aesctr.c is not among the sources; "a
    counter-mode stream cipher keyed by a 32-byte key" xors the data with
    the key stream and advances its byte counter. *)
Record crypto_aesctr : Type := { ctr_key : list byte; ctr_nonce : Z; ctr_pos : Z }.

Fixpoint xor_keystream `{Primitives} (key : list byte) (nonce pos : Z)
    (buf : list byte) : list byte :=
  match buf with
  | [] => []
  | b :: buf' =>
    Z.lxor b (aesctr_keystream key nonce pos) :: xor_keystream key nonce (pos + 1) buf'
  end.

Definition crypto_aesctr_stream `{Primitives} (AES : crypto_aesctr)
    (buf : list byte) : list byte * crypto_aesctr :=
  (xor_keystream (ctr_key AES) (ctr_nonce AES) (ctr_pos AES) buf,
   {| ctr_key := ctr_key AES; ctr_nonce := ctr_nonce AES;
      ctr_pos := ctr_pos AES + len buf |}).

(** ** stdio *)

Definition is_nil (l : list byte) : bool :=
  match l with [] => true | _ => false end.

(** [fread(buf, 1, n, infile)]: the bytes read, at least one unless the
    stream is at its end, at most [n]. *)
Definition fread (n : Z) : M (list byte) := fun w =>
  let f := infile w in
  let k := match in_cuts f with
           | [] => n
           | s :: _ => Z.min n (Z.max 1 s)
           end in
  (set_infile {| in_data := drop k (in_data f); in_cuts := tl (in_cuts f);
                 in_error := in_error f |} w,
   Ok (take k (in_data f))).

(** [fread(buf, size, 1, infile)]: the item, [None] when fewer than
    [size] bytes are left. *)
Definition fread_item (size : Z) : M (option (list byte)) := fun w =>
  let f := infile w in
  if size <=? len (in_data f) then
    (set_infile {| in_data := drop size (in_data f); in_cuts := in_cuts f;
                   in_error := in_error f |} w,
     Ok (Some (take size (in_data f))))
  else
    (set_infile {| in_data := []; in_cuts := in_cuts f;
                   in_error := in_error f |} w, Ok None).

(** [ferror(infile)]. *)
Definition ferror : M bool :=
  gets (fun w => in_error (infile w) && is_nil (in_data (infile w))).

(** [fwrite(buf, 1, len buf, outfile)]: the number of bytes written. *)
Definition fwrite (buf : list byte) : M Z := fun w =>
  let o := outfile w in
  let k := match out_room o with
           | None => len buf
           | Some room => Z.min (len buf) (Z.max 0 room)
           end in
  (set_outfile {| out_data := out_data o ++ take k buf;
                  out_room := option_map (fun room => room - k) (out_room o) |} w,
   Ok k).

(** [fwrite(buf, len buf, 1, outfile)]: the number of items written. *)
Definition fwrite_item (buf : list byte) : M Z :=
  k <- fwrite buf ;; ret (if k <? len buf then 0 else 1).

(** ** src/scryptwrapper *)

Module Wrapper.
Section WithPrimitives.
Context `{Primitives}.

(** pickparams.c:
[pickparams(&logN, &r, &p, maxtime, maxmem, maxmemfrac, osfreemem)]. *)
Definition pickparams (maxtime : double) (maxmem : Z) (maxmemfrac : double)
(osfreemem : Z) : result (Z * Z * Z) :=
(* Figure out how much memory to use. *)
match Util.memtouse maxmem maxmemfrac osfreemem with
| Err _ => Err 1
| Undef => Undef
| Ok memlimit =>
(* Figure out how fast the CPU is. *)
rbind scryptenc_cpuperf (fun opps =>
pickparams_limits memlimit opps maxtime)
end.

(** hash.c: [ScryptHashFunction(key, keylen, salt, saltlen, N, r, p, buf, 64)]
with [buf] the array [dk]; the value returned is the error word. *)
Definition ScryptHashFunction (key salt : list byte) (N r p : Z) : M Z :=
fun w =>
let w := log_scrypt (key, salt, N, r, p, 64) w in
match crypto_scrypt key salt N r p 64 with
| Some out => (set_dk out w, Ok 0)
| None =>
let error := 3 in
(w, Ok (if negb (scrypt_errno =? 0)
        then Z.lor error (u32 (Z.shiftl scrypt_errno 16))
        else error))
end.

(** keyderivation.c: [KDF(passwd, passwdSize, kdf, logN, r, p, salt)];
the value is the 96 bytes written to [kdf]. *)
Definition KDF (passwd : list byte) (logN r p : Z) (salt : list byte)
: M (list byte) :=
(* Generate the derived keys. *)
N <- lift (shl64 1 logN) ;;
e <- ScryptHashFunction passwd salt N r p ;;
if negb (e =? 0) then fail 3 else
key_hmac <- gets (fun w => slice 32 32 (dk w)) ;;
(* Construct the hash. *)
let kdf := magic ++ [0] ++ [u8 logN] ++ be32enc r ++ be32enc p
       ++ take 32 salt in
(* Add hash checksum. *)
let hbuf := SHA256_Buf (take 48 kdf) in
let kdf := kdf ++ take 16 hbuf in
(* Add hash signature (used for verifying password). *)
let hctx := HMAC_SHA256_Init key_hmac in
let hctx := HMAC_SHA256_Update hctx (take 64 kdf) in
let hbuf := HMAC_SHA256_Final hctx in
ret (kdf ++ take 32 hbuf).

(** keyderivation.c: [Verify(kdf, passwd, passwdSize)]. *)
Definition Verify (kdf passwd : list byte) : M unit :=
(* Parse N, r, p, salt. *)
N <- lift (shl64 1 (at_ 7 kdf)) ;;
let r := be32dec (drop 8 kdf) in
let p := be32dec (drop 12 kdf) in
let salt := slice 16 32 kdf in
(* Verify hash checksum. *)
let hbuf := SHA256_Buf (take 48 kdf) in
if memcmp (slice 48 16 kdf) (take 16 hbuf) then fail 7 else
(* Compute Derived Key *)
e <- ScryptHashFunction passwd salt N r p ;;
if negb (e =? 0) then fail 3 else
key_hmac <- gets (fun w => slice 32 32 (dk w)) ;;
(* Check hash signature (i.e., verify password). *)
let hctx := HMAC_SHA256_Init key_hmac in
let hctx := HMAC_SHA256_Update hctx (take 64 kdf) in
let hbuf := HMAC_SHA256_Final hctx in
if memcmp (take 32 hbuf) (slice 64 32 kdf) then fail 11 else
ret tt.

(** What a JavaScript caller of a binding gets. *)
Inductive js_value : Type :=
| JsThrow (error : Z)
| JsReturn (b : bool).

(** scrypt_kdf-verify_sync.cc: [kdfVerifySync]; an undefined [Verify]
gives no value. *)
Definition kdfVerifySync (kdf key : list byte) (w : world)
: world * option js_value :=
let (w', res) := Verify kdf key w in
(w',
match rc_of res with
| None => None
| Some result =>
(* 11 is the "error" code for an incorrect match *)
if negb (result =? 0) && negb (result =? 11) then Some (JsThrow result)
else Some (JsReturn (result =? 0))
end).

End WithPrimitives.
End Wrapper.

(** ** lib/scryptenc/scryptenc.c *)

Definition ENCBLOCK : Z := 65536.

Section Scryptenc.
Context `{Primitives}.

(** [pickparams(maxmem, maxmemfrac, maxtime, &logN, &r, &p)]. *)
Definition pickparams (maxmem : Z) (maxmemfrac maxtime : double)
: result (Z * Z * Z) :=
(* Figure out how much memory to use. *)
match memtouse maxmem maxmemfrac with
| Err _ => Err 1
| Undef => Undef
| Ok memlimit =>
  (* Figure out how fast the CPU is. *)
  rbind scryptenc_cpuperf (fun opps =>
  pickparams_limits memlimit opps maxtime)
end.

(** [checkparams(maxmem, maxmemfrac, maxtime, logN, r, p)]. *)
Definition checkparams (maxmem : Z) (maxmemfrac maxtime : double)
  (logN r p : Z) : result unit :=
(* Figure out the maximum amount of memory we can use. *)
match memtouse maxmem maxmemfrac with
| Err _ => Err 1
| Undef => Undef
| Ok memlimit =>
  (* Figure out how fast the CPU is. *)
  rbind scryptenc_cpuperf (fun opps =>
  checkparams_limits memlimit opps maxtime logN r p)
end.

(** [crypto_scrypt(passwd, passwdlen, salt, 32, N, r, p, dk, 64)]:
  whether it returned 0. *)
Definition crypto_scrypt_dk (passwd salt : list byte) (N r p : Z) : M bool :=
fun w =>
  let w := log_scrypt (passwd, salt, N, r, p, 64) w in
  match crypto_scrypt passwd salt N r p 64 with
  | Some out => (set_dk out w, Ok true)
  | None => (w, Ok false)
  end.

(** [scryptenc_setup(header, dk, passwd, passwdlen, maxmem, maxmemfrac,
  maxtime)]; the value is the 96 bytes written to [header]. *)
Definition scryptenc_setup (passwd : list byte) (maxmem : Z)
  (maxmemfrac maxtime : double) : M (list byte) :=
(* Pick values for N, r, p. *)
params <- lift (pickparams maxmem maxmemfrac maxtime) ;;
let '(logN, r, p) := params in
N <- lift (shl64 1 logN) ;;
(* Get some salt. *)
match crypto_entropy_read 32 with
| None => fail 4
| Some salt =>
  (* Generate the derived keys. *)
  ok <- crypto_scrypt_dk passwd salt N r p ;;
  if negb ok then fail 3 else
  key_hmac <- gets (fun w => slice 32 32 (dk w)) ;;
  (* Construct the file header. *)
  let header := magic ++ [0] ++ [u8 logN] ++ be32enc r ++ be32enc p
                ++ take 32 salt in
  (* Add header checksum. *)
  let hbuf := SHA256_Buf (take 48 header) in
  let header := header ++ take 16 hbuf in
  (* Add header signature (used for verifying password). *)
  let hctx := HMAC_SHA256_Init key_hmac in
  let hctx := HMAC_SHA256_Update hctx (take 64 header) in
  let hbuf := HMAC_SHA256_Final hctx in
  ret (header ++ take 32 hbuf)
end.

(** [scryptdec_setup(header, dk, passwd, passwdlen, maxmem, maxmemfrac,
  maxtime)]. *)
Definition scryptdec_setup (header passwd : list byte) (maxmem : Z)
  (maxmemfrac maxtime : double) : M unit :=
(* Parse N, r, p, salt. *)
let logN := at_ 7 header in
let r := be32dec (drop 8 header) in
let p := be32dec (drop 12 header) in
let salt := slice 16 32 header in
(* Verify header checksum. *)
let hbuf := SHA256_Buf (take 48 header) in
if memcmp (slice 48 16 header) (take 16 hbuf) then fail 7 else
(* Check whether the provided parameters are valid and whether the
   key derivation function can be computed within the allowed memory
   and CPU time. *)
lift (checkparams maxmem maxmemfrac maxtime logN r p) ;;;
(* Compute the derived keys. *)
N <- lift (shl64 1 logN) ;;
ok <- crypto_scrypt_dk passwd salt N r p ;;
if negb ok then fail 3 else
key_hmac <- gets (fun w => slice 32 32 (dk w)) ;;
(* Check header signature (i.e., verify password). *)
let hctx := HMAC_SHA256_Init key_hmac in
let hctx := HMAC_SHA256_Update hctx (take 64 header) in
let hbuf := HMAC_SHA256_Final hctx in
if memcmp (take 32 hbuf) (slice 64 32 header) then fail 11 else
ret tt.

(** [crypto_aes_key_expand(key_enc, 32)] then
  [crypto_aesctr_init(key_enc_exp, 0)], with [key_enc = dk]. *)
Definition aesctr_start : M crypto_aesctr :=
key_enc <- gets (fun w => take 32 (dk w)) ;;
match crypto_aes_key_expand key_enc with
| None => fail 5
| Some key_enc_exp =>
  if negb aesctr_alloc then fail 6 else
  ret {| ctr_key := key_enc_exp; ctr_nonce := 0; ctr_pos := 0 |}
end.

(** [scryptenc_buf(inbuf, inbuflen, outbuf, passwd, passwdlen, maxmem,
  maxmemfrac, maxtime)]. *)
Definition scryptenc_buf (inbuf passwd : list byte) (maxmem : Z)
  (maxmemfrac maxtime : double) : M unit :=
let inbuflen := len inbuf in
(* Generate the header and derived key. *)
header <- scryptenc_setup passwd maxmem maxmemfrac maxtime ;;
key_hmac <- gets (fun w => slice 32 32 (dk w)) ;;
(* Copy header into output buffer. *)
modify (fun w => set_outbuf (memcpy (outbuf w) 0 header) w) ;;;
(* Encrypt data. *)
AES <- aesctr_start ;;
modify (fun w =>
  set_outbuf (memcpy (outbuf w) 96 (fst (crypto_aesctr_stream AES inbuf))) w) ;;;
(* Add signature. *)
signed <- gets (fun w => take (96 + inbuflen) (outbuf w)) ;;
let hctx := HMAC_SHA256_Init key_hmac in
let hctx := HMAC_SHA256_Update hctx signed in
let hbuf := HMAC_SHA256_Final hctx in
modify (fun w => set_outbuf (memcpy (outbuf w) (96 + inbuflen) (take 32 hbuf)) w) ;;;
(* Zero sensitive data. *)
insecure_memzero_dk ;;;
(* Success! *)
ret tt.

(** [scryptdec_buf(inbuf, inbuflen, outbuf, outlen, passwd, passwdlen,
  maxmem, maxmemfrac, maxtime)]. *)
Definition scryptdec_buf (inbuf passwd : list byte) (maxmem : Z)
  (maxmemfrac maxtime : double) : M unit :=
let inbuflen := len inbuf in
(* All versions of the scrypt format will start with "scrypt" and
   have at least 7 bytes of header. *)
if (inbuflen <? 7) || memcmp (take 6 inbuf) magic then fail 7 else
(* Check the format. *)
if negb (at_ 6 inbuf =? 0) then fail 8 else
(* We must have at least 128 bytes. *)
if inbuflen <? 128 then fail 7 else
(* Parse the header and generate derived keys. *)
scryptdec_setup (take 96 inbuf) passwd maxmem maxmemfrac maxtime ;;;
key_hmac <- gets (fun w => slice 32 32 (dk w)) ;;
(* Decrypt data. *)
AES <- aesctr_start ;;
modify (fun w =>
  set_outbuf (memcpy (outbuf w) 0
    (fst (crypto_aesctr_stream AES (slice 96 (inbuflen - 128) inbuf)))) w) ;;;
modify (set_outlen (inbuflen - 128)) ;;;
(* Verify signature. *)
let hctx := HMAC_SHA256_Init key_hmac in
let hctx := HMAC_SHA256_Update hctx (take (inbuflen - 32) inbuf) in
let hbuf := HMAC_SHA256_Final hctx in
if memcmp (take 32 hbuf) (slice (inbuflen - 32) 32 inbuf) then fail 7 else
(* Zero sensitive data. *)
insecure_memzero_dk ;;;
(* Success! *)
ret tt.

(** The loop of [scryptenc_file]: read blocks of data, encrypt them, and
  write them out; hash the data as it is produced.  Every iteration
  but the last consumes input, so [fuel] above the number of bytes
  left is never used up. *)
Fixpoint scryptenc_file_loop (fuel : nat) (AES : crypto_aesctr)
  (hctx : HMAC_SHA256_CTX) : M HMAC_SHA256_CTX :=
match fuel with
| O => undefined
| S fuel' =>
  buf <- fread ENCBLOCK ;;
  let readlen := len buf in
  if readlen =? 0 then ret hctx else
  let (buf, AES) := crypto_aesctr_stream AES buf in
  let hctx := HMAC_SHA256_Update hctx buf in
  written <- fwrite buf ;;
  if written <? readlen then fail 12 else
  scryptenc_file_loop fuel' AES hctx
end.

(** [scryptenc_file(infile, outfile, passwd, passwdlen, maxmem,
  maxmemfrac, maxtime)]. *)
Definition scryptenc_file (passwd : list byte) (maxmem : Z)
  (maxmemfrac maxtime : double) : M unit :=
(* Generate the header and derived key. *)
header <- scryptenc_setup passwd maxmem maxmemfrac maxtime ;;
key_hmac <- gets (fun w => slice 32 32 (dk w)) ;;
(* Hash and write the header. *)
let hctx := HMAC_SHA256_Init key_hmac in
let hctx := HMAC_SHA256_Update hctx (take 96 header) in
items <- fwrite_item (take 96 header) ;;
if negb (items =? 1) then fail 12 else
AES <- aesctr_start ;;
fuel <- gets (fun w => S (length (in_data (infile w)))) ;;
hctx <- scryptenc_file_loop fuel AES hctx ;;
(* Did we exit the loop due to a read error? *)
failed <- ferror ;;
if failed then fail 13 else
(* Compute the final HMAC and output it. *)
let hbuf := HMAC_SHA256_Final hctx in
items <- fwrite_item (take 32 hbuf) ;;
if negb (items =? 1) then fail 12 else
(* Zero sensitive data. *)
insecure_memzero_dk ;;;
(* Success! *)
ret tt.

(** The loop of [scryptdec_file]; [buf] holds the [buflen] bytes read
  and not yet decrypted.  The value is the tail left in [buf] and the
  hashing context. *)
Fixpoint scryptdec_file_loop (fuel : nat) (buf : list byte)
  (AES : crypto_aesctr) (hctx : HMAC_SHA256_CTX)
: M (list byte * HMAC_SHA256_CTX) :=
match fuel with
| O => undefined
| S fuel' =>
  let buflen := len buf in
  (* Read data until we have more than 32 bytes of it. *)
  got <- fread (ENCBLOCK + 32 - buflen) ;;
  let readlen := len got in
  if readlen =? 0 then ret (buf, hctx) else
  let buf := buf ++ got in
  let buflen := buflen + readlen in
  if buflen <=? 32 then scryptdec_file_loop fuel' buf AES hctx else
  (* Decrypt, hash, and output everything except the last 32 bytes
     out of what we have in our buffer. *)
  let hctx := HMAC_SHA256_Update hctx (take (buflen - 32) buf) in
  let (plain, AES) := crypto_aesctr_stream AES (take (buflen - 32) buf) in
  written <- fwrite plain ;;
  if written <? buflen - 32 then fail 12 else
  (* Move the last 32 bytes to the start of the buffer. *)
  let buf := slice (buflen - 32) 32 buf in
  scryptdec_file_loop fuel' buf AES hctx
end.

(** [scryptdec_file(infile, outfile, passwd, passwdlen, maxmem,
  maxmemfrac, maxtime)]. *)
Definition scryptdec_file (passwd : list byte) (maxmem : Z)
  (maxmemfrac maxtime : double) : M unit :=
(* Read the first 7 bytes of the file. *)
prefix <- fread_item 7 ;;
match prefix with
| None => failed <- ferror ;; if failed then fail 13 else fail 7
| Some prefix =>
  (* Do we have the right magic? *)
  if memcmp (take 6 prefix) magic then fail 7 else
  if negb (at_ 6 prefix =? 0) then fail 8 else
  (* Read another 89 bytes of the file. *)
  rest <- fread_item 89 ;;
  match rest with
  | None => failed <- ferror ;; if failed then fail 13 else fail 7
  | Some rest =>
    let header := prefix ++ rest in
    (* Parse the header and generate derived keys. *)
    scryptdec_setup header passwd maxmem maxmemfrac maxtime ;;;
    key_hmac <- gets (fun w => slice 32 32 (dk w)) ;;
    (* Start hashing with the header. *)
    let hctx := HMAC_SHA256_Init key_hmac in
    let hctx := HMAC_SHA256_Update hctx (take 96 header) in
    AES <- aesctr_start ;;
    fuel <- gets (fun w => S (length (in_data (infile w)))) ;;
    tail <- scryptdec_file_loop fuel [] AES hctx ;;
    let (buf, hctx) := tail in
    (* Did we exit the loop due to a read error? *)
    failed <- ferror ;;
    if failed then fail 13 else
    (* Did we read enough data that we *might* have a valid signature? *)
    if len buf <? 32 then fail 7 else
    (* Verify signature. *)
    let hbuf := HMAC_SHA256_Final hctx in
    if memcmp (take 32 hbuf) (take 32 buf) then fail 7 else
    (* Zero sensitive data. *)
    insecure_memzero_dk ;;;
    ret tt
  end
end.

End Scryptenc.

(** ** What the interfaces of the primitives fix

    The sizes of the outputs: 32-byte hashes, as many derived or random
    bytes as requested. *)
Record primitives_ok `{Primitives} : Prop := {
  SHA256_len : forall m, len (SHA256_Buf m) = 32;
  HMAC_SHA256_len : forall key m, len (HMAC_SHA256_Buf key m) = 32;
  crypto_scrypt_len : forall passwd salt N r p buflen out,
    crypto_scrypt passwd salt N r p buflen = Some out -> len out = buflen;
  crypto_entropy_len : forall buflen salt,
    crypto_entropy_read buflen = Some salt -> len salt = buflen
}.
Arguments primitives_ok : clear implicits.

(** The first 48 bytes of a record or header: magic, version, logN, r, p
    and the salt. *)
Definition record_head (logN r p : Z) (salt : list byte) : list byte :=
  magic ++ [0] ++ [u8 logN] ++ be32enc r ++ be32enc p ++ take 32 salt.

(** A head followed by its 16-byte checksum and by the 32-byte signature
    under [key_hmac]: the 96 bytes of a record. *)
Definition sealed `{Primitives} (key_hmac head : list byte) : list byte :=
  (head ++ take 16 (SHA256_Buf head))
  ++ take 32 (HMAC_SHA256_Buf key_hmac (head ++ take 16 (SHA256_Buf head))).

(** ** A small platform to run the model on

    Toy primitives with the interfaces of the real ones (32-byte hashes,
    derived keys of the requested length), used to execute the entry
    points on concrete buffers. *)
Module Demo.

Definition sum_bytes (l : list byte) : Z := fold_right Z.add 0 l.

Fixpoint ramp (n : nat) (start : Z) : list byte :=
match n with
| O => []
| S n' => u8 start :: ramp n' (start + 1)
end.

Definition demo_scrypt (passwd salt : list byte) (N r p buflen : Z)
: option (list byte) :=
if buflen <? 0 then None
else Some (ramp (Z.to_nat buflen)
             (sum_bytes passwd + 3 * sum_bytes salt + N + r + p)).

(** 8 GiB of working set reported by the one probe of win/memlimit.c
  that is compiled in. *)
Definition probes : Win.memlimits :=
{| Win.sysctl_memlimit := Some SIZE_MAX;
   Win.sysinfo_memlimit := Some SIZE_MAX;
   Win.rlimit_memlimit := Some (2 ^ 33);
   Win.sysconf_memlimit := Some SIZE_MAX |}.

Definition platform (opps : double) : Primitives :=
{| crypto_scrypt := demo_scrypt;
   scrypt_errno := 12;
   SHA256_Buf := fun m => ramp 32 (sum_bytes m + 1);
   HMAC_SHA256_Buf := fun k m => ramp 32 (5 * sum_bytes k + sum_bytes m);
   crypto_aes_key_expand := fun k => Some k;
   aesctr_alloc := true;
   aesctr_keystream := fun k nonce pos => u8 (sum_bytes k + nonce + 7 * pos);
   crypto_entropy_read :=
     fun n => if n <? 0 then None else Some (ramp (Z.to_nat n) 200);
   scryptenc_cpuperf := Ok opps;
   memtouse := Win.memtouse probes |}.

(** A clock that measures a million salsa20/8 cores per second. *)
Definition fast : Primitives := platform (Double.of_Z 1000000).

Definition no_file_in : in_file :=
{| in_data := []; in_cuts := []; in_error := false |}.
Definition no_file_out : out_file := {| out_data := []; out_room := None |}.

(** A world with [n] bytes of output buffer and stale stack contents. *)
Definition blank (n : nat) : world :=
{| dk := repeat 170 64; outbuf := repeat 0 n; outlen := 0;
   infile := no_file_in; outfile := no_file_out; scrypt_calls := [] |}.

Definition reading (data : list byte) (split : list Z) : world :=
set_infile {| in_data := data; in_cuts := split; in_error := false |}
           (blank 0).

(** A second of CPU time. *)
Definition one_second : double := Double.of_Z 1.

(** The double 0.1 (the nearest to 1/10), a tenth of a second. *)
Definition tenth : double := S754_finite false 7205759403792794 (-56).

(** A million, the throughput of [fast]. *)
Definition million : double := Double.of_Z 1000000.

Definition plain : list byte := [1; 2; 3; 4; 5].
Definition passwd : list byte := [9; 9].

(** [scryptenc_buf] of [plain] under at most [maxtime] seconds. *)
Definition enc_run (maxtime : double) : world * result unit :=
@scryptenc_buf fast plain passwd 0 Double.half maxtime (blank 133).
Definition container : list byte :=
Eval vm_compute in take 133 (outbuf (fst (enc_run one_second))).

(** The container with the last byte of its trailing tag changed. *)
Definition tampered : list byte :=
Eval vm_compute in take 132 container ++ [u8 (at_ 132 container + 1)].

(** The 64 bytes derived for [container]. *)
Definition derived : list byte :=
Eval vm_compute in
  match demo_scrypt passwd (slice 16 32 container) 1024 8 30 64 with
  | Some out => out
  | None => []
  end.


(** A record with a well-formed checksum and the parameters
  logN = 200, r = p = 65536. *)
Definition wild : list byte :=
Eval vm_compute in
  @sealed fast (repeat 0 32) (record_head 200 65536 65536 (ramp 32 0)).

(** A record built by [KDF] for the password [[9; 9]]. *)
Definition kdf_run : world * result (list byte) :=
@Wrapper.KDF fast [9; 9] 10 8 1 (ramp 32 0) (blank 0).
Definition record : list byte :=
Eval vm_compute in match snd kdf_run with Ok kdf => kdf | _ => [] end.

End Demo.

(** ** src/node-boilerplate: the asynchronous verification *)

Module Async.

(** What the JavaScript callback of a worker is called with:
[callback(error)] or [callback(null, value)]. *)
Inductive callback_args : Type :=
| CallbackError (error : Z)
| CallbackValue (b : bool).

(** The members [result] and [match] of a [ScryptKDFVerifyAsyncWorker]. *)
Record KDFVerifyWorker : Type := { result : Z; match_ : bool }.

Section WithPrimitives.
Context `{Primitives}.

(** scrypt_kdf-verify_async.cc: [ScryptKDFVerifyAsyncWorker::Execute]; an
undefined [Verify] leaves no worker state. *)
Definition Execute (kdf key : list byte) (w : world)
: world * option KDFVerifyWorker :=
let (w', res) := Wrapper.Verify kdf key w in
(w',
match rc_of res with
| None => None
| Some result =>
let match_ := result =? 0 in
(* Set result to 0 if 11 so error not thrown *)
let result := if result =? 11 then 0 else result in
Some {| result := result; match_ := match_ |}
end).

(** scrypt_kdf-verify_async.cc:
[ScryptKDFVerifyAsyncWorker::HandleOKCallback]. *)
Definition HandleOKCallback (worker : KDFVerifyWorker) : callback_args :=
CallbackValue (if match_ worker then true else false).

(** scrypt_async.h: [ScryptAsyncWorker::HandleErrorCallback]. *)
Definition HandleErrorCallback (worker : KDFVerifyWorker) : callback_args :=
CallbackError (result worker).

(** scrypt_async.h: [ScryptAsyncWorker::WorkComplete]. *)
Definition WorkComplete (worker : KDFVerifyWorker) : callback_args :=
if result worker =? 0 then HandleOKCallback worker
else HandleErrorCallback worker.

(** scrypt_kdf-verify_async.cc: [kdfVerify], the worker queued, run and
completed. *)
Definition kdfVerify (kdf key : list byte) (w : world)
: world * option callback_args :=
let (w', worker) := Execute kdf key w in
(w', option_map WorkComplete worker).

End WithPrimitives.
End Async.

(** ** src/node-boilerplate: the synchronous bindings *)

Module Sync.

(** What a JavaScript caller of a binding gets: the error thrown or the
value returned.  A binding that has called [Nan::ThrowError] runs on to
its end, and the caller sees the exception, not the return value set
after it. *)
Inductive js_result (A : Type) : Type :=
| Throw (error : Z)
| Return (a : A).
Arguments Throw {A} error.
Arguments Return {A} a.

(** The JavaScript object with the numbers [N], [r] and [p]. *)
Record js_params : Type := { js_N : Z; js_r : Z; js_p : Z }.

(** scrypt_common.h: [NodeScrypt::Params], three [uint32_t] read with
[Uint32Value()]. *)
Record Params : Type := { N : Z; r : Z; p : Z }.

Definition Params_of (obj : js_params) : Params :=
{| N := u32 (js_N obj); r := u32 (js_r obj); p := u32 (js_p obj) |}.

Section WithPrimitives.
Context `{Primitives}.

(** scrypt_params_sync.cc: [paramsSync], on the values of its four
arguments as C has them; an undefined [pickparams] gives no value. *)
Definition paramsSync (maxtime maxmemfrac : double) (maxmem osfreemem : Z)
: option (js_result js_params) :=
match Wrapper.pickparams maxtime maxmem maxmemfrac osfreemem with
| Undef => None
| Err result =>
(* Error handling *)
Some (Throw result)
| Ok (logN, r, p) =>
(* Return values in JSON object *)
Some (Return {| js_N := logN; js_r := r; js_p := p |})
end.

(** scrypt_kdf_sync.cc: [kdfSync]; the member [N] of the parameters is
what [KDF] takes as [logN]. *)
Definition kdfSync (key : list byte) (obj : js_params) (salt : list byte)
(w : world) : world * option (js_result (list byte)) :=
let params := Params_of obj in
let (w', res) := Wrapper.KDF key (N params) (r params) (p params) salt w in
(w',
match res with
| Undef => None
| Err result =>
(* Error handling *)
Some (Throw result)
| Ok kdfResult => Some (Return kdfResult)
end).

End WithPrimitives.
End Sync.

(** ** More inputs for the toy platform *)

Module Samples.

(** The toy platform with a [crypto_aes_key_expand] that returns [NULL]. *)
Definition no_cipher : Primitives :=
{| crypto_scrypt := Demo.demo_scrypt;
   scrypt_errno := 12;
   SHA256_Buf := @SHA256_Buf Demo.fast;
   HMAC_SHA256_Buf := @HMAC_SHA256_Buf Demo.fast;
   crypto_aes_key_expand := fun _ => None;
   aesctr_alloc := true;
   aesctr_keystream := @aesctr_keystream Demo.fast;
   crypto_entropy_read := @crypto_entropy_read Demo.fast;
   scryptenc_cpuperf := Ok Demo.million;
   memtouse := Win.memtouse Demo.probes |}.

(** The toy platform with a [crypto_scrypt] that fails, [errno] being
ENOMEM. *)
Definition no_memory : Primitives :=
{| crypto_scrypt := fun _ _ _ _ _ _ => None;
   scrypt_errno := 12;
   SHA256_Buf := @SHA256_Buf Demo.fast;
   HMAC_SHA256_Buf := @HMAC_SHA256_Buf Demo.fast;
   crypto_aes_key_expand := fun k => Some k;
   aesctr_alloc := true;
   aesctr_keystream := @aesctr_keystream Demo.fast;
   crypto_entropy_read := @crypto_entropy_read Demo.fast;
   scryptenc_cpuperf := Ok Demo.million;
   memtouse := Win.memtouse Demo.probes |}.

(** The magic followed by the version byte 1. *)
Definition version_one : list byte := magic ++ [1].

(** The first 10 bytes and the first 100 bytes of the container. *)
Definition ten_bytes : list byte := Eval vm_compute in take 10 Demo.container.
Definition hundred_bytes : list byte :=
Eval vm_compute in take 100 Demo.container.

(** 128 bytes whose header has a checksum that matches, [logN = 10],
[r = 0] and [p = 1]. *)
Definition zero_r : list byte :=
Eval vm_compute in
  @sealed Demo.fast (repeat 0 32) (record_head 10 0 1 (Demo.ramp 32 0))
  ++ repeat 0 32.

(** Another password. *)
Definition other_passwd : list byte := [9; 8].

(** A record with a well-formed checksum and the parameters
logN = 0, r = p = 65536. *)
Definition unchecked : list byte :=
Eval vm_compute in
  @sealed Demo.fast (repeat 0 32) (record_head 0 65536 65536 (Demo.ramp 32 0)).

(** The plaintext as a stream that ends on a read error. *)
Definition failing_stream : world :=
set_infile {| in_data := Demo.plain; in_cuts := [3; 4]; in_error := true |}
           (Demo.blank 0).

End Samples.

(** ** Signs of binary64 values *)

(** The results of a rounding with a positive sign. *)
Definition not_negative (x : double) : Prop :=
  match x with
  | S754_zero s | S754_infinity s | S754_finite s _ _ => s = false
  | S754_nan => True
  end.

(** * Properties *)

(** ** Buffers *)

Lemma len_app (a b : list byte) : len (a ++ b) = len a + len b.
Proof. unfold len. rewrite length_app. lia. Qed.

Lemma len_nonneg (a : list byte) : 0 <= len a.
Proof. unfold len. lia. Qed.

Lemma len_take (n : Z) (l : list byte) : len (take n l) = Z.min (Z.max 0 n) (len l).
Proof. unfold len, take. rewrite length_firstn. lia. Qed.

Lemma len_drop (n : Z) (l : list byte) : len (drop n l) = len l - Z.min (Z.max 0 n) (len l).
Proof. unfold len, drop. rewrite length_skipn. lia. Qed.

Lemma take_all (n : Z) (l : list byte) : len l <= n -> take n l = l.
Proof. unfold len, take. intros. apply firstn_all2. lia. Qed.

Lemma drop_all (n : Z) (l : list byte) : len l <= n -> drop n l = [].
Proof. unfold len, drop. intros. apply skipn_all2. lia. Qed.

Lemma take_nonpos (n : Z) (l : list byte) : n <= 0 -> take n l = [].
Proof. unfold take. intros. replace (Z.to_nat n) with O by lia. reflexivity. Qed.

Lemma drop_nonpos (n : Z) (l : list byte) : n <= 0 -> drop n l = l.
Proof. unfold drop. intros. replace (Z.to_nat n) with O by lia. reflexivity. Qed.

Lemma take_app_exact (n : Z) (a b : list byte) : len a = n -> take n (a ++ b) = a.
Proof.
  unfold len, take. intros. rewrite firstn_app.
  replace (Z.to_nat n - length a)%nat with O by lia.
  rewrite firstn_all2 by lia. simpl. apply app_nil_r.
Qed.

Lemma drop_app_exact (n : Z) (a b : list byte) : len a = n -> drop n (a ++ b) = b.
Proof.
  unfold len, drop. intros. rewrite skipn_app.
  replace (Z.to_nat n - length a)%nat with O by lia.
  rewrite skipn_all2 by lia. reflexivity.
Qed.

Lemma take_app_le (n : Z) (a b : list byte) : n <= len a -> take n (a ++ b) = take n a.
Proof.
  unfold len, take. intros. rewrite firstn_app.
  replace (Z.to_nat n - length a)%nat with O by lia.
  simpl. apply app_nil_r.
Qed.

Lemma take_app_ge (n : Z) (a b : list byte) :
  len a <= n -> take n (a ++ b) = a ++ take (n - len a) b.
Proof.
  unfold len, take. intros. rewrite firstn_app.
  rewrite firstn_all2 by lia. f_equal. f_equal. lia.
Qed.

Lemma drop_app_le (n : Z) (a b : list byte) :
  n <= len a -> drop n (a ++ b) = drop n a ++ b.
Proof.
  unfold len, drop. intros. rewrite skipn_app.
  replace (Z.to_nat n - length a)%nat with O by lia. reflexivity.
Qed.

Lemma drop_app_ge (n : Z) (a b : list byte) :
  len a <= n -> drop n (a ++ b) = drop (n - len a) b.
Proof.
  unfold len, drop. intros. rewrite skipn_app.
  rewrite skipn_all2 by lia. simpl. f_equal. lia.
Qed.

Lemma take_drop (n : Z) (l : list byte) : take n l ++ drop n l = l.
Proof. apply firstn_skipn. Qed.

Lemma take_take (n m : Z) (l : list byte) : take n (take m l) = take (Z.min n m) l.
Proof.
  unfold take. rewrite firstn_firstn. f_equal. lia.
Qed.

Lemma drop_drop (n m : Z) (l : list byte) :
  0 <= n -> 0 <= m -> drop n (drop m l) = drop (m + n) l.
Proof.
  unfold drop. intros. rewrite skipn_skipn. f_equal. lia.
Qed.

Lemma slice_app_mid (off n : Z) (a b c : list byte) :
  len a = off -> len b = n -> slice off n (a ++ b ++ c) = b.
Proof.
  intros. unfold slice. rewrite drop_app_exact by assumption.
  apply take_app_exact. assumption.
Qed.

Lemma slice_app_end (off n : Z) (a b : list byte) :
  len a = off -> slice off n (a ++ b) = take n b.
Proof. intros. unfold slice. rewrite drop_app_exact by assumption. reflexivity. Qed.

Lemma bytes_eqb_eq (a b : list byte) : bytes_eqb a b = true <-> a = b.
Proof.
  revert b. induction a as [|x a IH]; intros [|y b]; simpl; split; intros E;
    try reflexivity; try discriminate.
  - apply andb_true_iff in E. destruct E as [E1 E2].
    apply Z.eqb_eq in E1. apply IH in E2. congruence.
  - injection E as -> ->. rewrite Z.eqb_refl. simpl. apply IH. reflexivity.
Qed.

Lemma memcmp_same (a : list byte) : memcmp a a = false.
Proof.
  unfold memcmp. replace (bytes_eqb a a) with true; [reflexivity|].
  symmetry. apply bytes_eqb_eq. reflexivity.
Qed.

Lemma memcmp_differ (a b : list byte) : a <> b -> memcmp a b = true.
Proof.
  unfold memcmp. intros D. destruct (bytes_eqb a b) eqn:E; [|reflexivity].
  apply bytes_eqb_eq in E. contradiction.
Qed.

Lemma memcmp_false (a b : list byte) : memcmp a b = false -> a = b.
Proof.
  unfold memcmp. intros E. apply bytes_eqb_eq.
  destruct (bytes_eqb a b); [reflexivity | discriminate].
Qed.

(** ** Big-endian words *)

Lemma be32_split (x : Z) :
  0 <= x < 2 ^ 32 ->
  Z.shiftl (Z.land (Z.shiftr x 24) 255) 24 + Z.shiftl (Z.land (Z.shiftr x 16) 255) 16
  + Z.shiftl (Z.land (Z.shiftr x 8) 255) 8 + Z.land x 255 = x.
Proof.
  intros Hx.
  change 255 with (Z.ones 8). rewrite !Z.land_ones by lia.
  rewrite !Z.shiftr_div_pow2, !Z.shiftl_mul_pow2 by lia.
  change (2 ^ 8) with 256. change (2 ^ 16) with 65536.
  change (2 ^ 24) with 16777216. change (2 ^ 32) with 4294967296 in Hx.
  Z.to_euclidean_division_equations. lia.
Qed.

Lemma be32dec_be32enc (x : Z) (rest : list byte) :
  0 <= x < 2 ^ 32 -> be32dec (be32enc x ++ rest) = x.
Proof.
  intros Hx. unfold be32dec, be32enc, at_.
  change (Z.to_nat 0) with 0%nat. change (Z.to_nat 1) with 1%nat.
  change (Z.to_nat 2) with 2%nat. change (Z.to_nat 3) with 3%nat.
  cbn [app nth]. apply be32_split. exact Hx.
Qed.

Lemma len_be32enc (x : Z) : len (be32enc x) = 4.
Proof. reflexivity. Qed.

Lemma u8_small (x : Z) : 0 <= x < 256 -> u8 x = x.
Proof. intros. unfold u8. apply Z.mod_small. change (2 ^ 8) with 256. lia. Qed.

(** ** Shifts *)

Lemma shl64_pow2 (l : Z) : 0 <= l <= 63 -> shl64 1 l = Ok (2 ^ l).
Proof.
  intros Hl. unfold shl64, u64.
  replace ((0 <=? l) && (l <? 64)) with true
    by (symmetry; apply andb_true_iff; split; [apply Z.leb_le|apply Z.ltb_lt]; lia).
  rewrite Z.shiftl_mul_pow2, Z.mul_1_l by lia. f_equal.
  apply Z.mod_small. split; [lia|]. apply Z.pow_lt_mono_r; lia.
Qed.

Lemma shl64_undefined (a k : Z) : 64 <= k -> shl64 a k = Undef.
Proof.
  intros Hk. unfold shl64.
  replace (k <? 64) with false by (symmetry; apply Z.ltb_ge; lia).
  rewrite andb_false_r. reflexivity.
Qed.

(** ** The stream cipher *)

Section Cipher.
Context `{Primitives}.

Lemma xor_keystream_involutive (key : list byte) (nonce : Z) (buf : list byte) :
forall pos,
  xor_keystream key nonce pos (xor_keystream key nonce pos buf) = buf.
Proof.
induction buf as [|b buf IH]; intros pos; simpl; [reflexivity|].
rewrite IH. f_equal.
rewrite Z.lxor_assoc, Z.lxor_nilpotent. apply Z.lxor_0_r.
Qed.

Lemma xor_keystream_app (key : list byte) (nonce : Z) (a b : list byte) :
forall pos,
  xor_keystream key nonce pos (a ++ b)
  = xor_keystream key nonce pos a ++ xor_keystream key nonce (pos + len a) b.
Proof.
induction a as [|x a IH]; intros pos; simpl.
- f_equal. unfold len. simpl. lia.
- rewrite IH. do 3 f_equal. unfold len. simpl length. lia.
Qed.

Lemma len_xor_keystream (key : list byte) (nonce : Z) (buf : list byte) :
forall pos, len (xor_keystream key nonce pos buf) = len buf.
Proof.
induction buf as [|b buf IH]; intros pos; [reflexivity|].
simpl. unfold len in *. simpl length. rewrite !Nat2Z.inj_succ.
f_equal. apply IH.
Qed.

End Cipher.

(** ** The layout of a record *)

Lemma len_record_head (logN r p : Z) (salt : list byte) :
  len salt = 32 -> len (record_head logN r p salt) = 48.
Proof.
  intros Hs. unfold record_head. rewrite !len_app, !len_be32enc, len_take.
  change (len magic) with 6. change (len [0]) with 1.
  change (len [u8 logN]) with 1. lia.
Qed.

Ltac to_nat_literals :=
  change (Z.to_nat 6) with 6%nat in *; change (Z.to_nat 7) with 7%nat in *;
  change (Z.to_nat 8) with 8%nat in *; change (Z.to_nat 12) with 12%nat in *;
  change (Z.to_nat 16) with 16%nat in *.

Section Layout.
Variables (logN r p : Z) (salt c s : list byte).
Hypothesis Hsalt : len salt = 32.
Hypothesis Hc : len c = 16.

Let head := record_head logN r p salt.
Let rec := (head ++ c) ++ s.

Lemma rec_take_6 : take 6 rec = magic.
Proof.
unfold rec, head, record_head, take, magic. to_nat_literals. reflexivity.
Qed.

Lemma rec_at_6 : at_ 6 rec = 0.
Proof.
unfold rec, head, record_head, at_, magic. to_nat_literals. reflexivity.
Qed.

Lemma rec_at_7 : at_ 7 rec = u8 logN.
Proof.
unfold rec, head, record_head, at_, magic. to_nat_literals. reflexivity.
Qed.

Lemma rec_r : 0 <= r < 2 ^ 32 -> be32dec (drop 8 rec) = r.
Proof.
intros Hr. unfold rec, head, record_head, drop, magic. to_nat_literals.
cbn [app skipn]. rewrite <- !app_assoc. apply be32dec_be32enc, Hr.
Qed.

Lemma rec_p : 0 <= p < 2 ^ 32 -> be32dec (drop 12 rec) = p.
Proof.
intros Hp. unfold rec, head, record_head, drop, magic, be32enc at 1.
to_nat_literals. cbn [app skipn]. rewrite <- !app_assoc.
apply be32dec_be32enc, Hp.
Qed.

Lemma rec_salt : slice 16 32 rec = take 32 salt.
Proof.
unfold rec, head, record_head, slice, drop, magic, be32enc.
to_nat_literals. cbn [app skipn]. rewrite <- !app_assoc.
apply take_app_exact. rewrite len_take. lia.
Qed.

Lemma rec_take_48 : take 48 rec = head.
Proof.
unfold rec. rewrite <- app_assoc. apply take_app_exact.
apply len_record_head, Hsalt.
Qed.

Lemma head_take_48 : take 48 head = head.
Proof. apply take_all. unfold head. rewrite len_record_head by assumption. lia. Qed.

Lemma rec_checksum : slice 48 16 rec = c.
Proof.
unfold rec. rewrite <- app_assoc. apply slice_app_mid; [|assumption].
apply len_record_head, Hsalt.
Qed.

Lemma len_head_c : len (head ++ c) = 64.
Proof. rewrite len_app. unfold head. rewrite len_record_head by assumption. lia. Qed.

Lemma rec_take_64 : take 64 rec = head ++ c.
Proof. unfold rec. apply take_app_exact, len_head_c. Qed.

Lemma head_c_take_64 : take 64 (head ++ c) = head ++ c.
Proof. apply take_all. rewrite len_head_c. lia. Qed.

Lemma rec_signature : slice 64 32 rec = take 32 s.
Proof. unfold rec. apply slice_app_end, len_head_c. Qed.

Lemma len_rec : len s = 32 -> len rec = 96.
Proof. intros Hs. unfold rec. rewrite len_app, len_head_c. lia. Qed.

End Layout.

(** ** The toy platform has the sizes right *)

Lemma len_ramp n start : len (Demo.ramp n start) = Z.of_nat n.
Proof.
  revert start. induction n as [|n IH]; intros start; [reflexivity|].
  cbn [Demo.ramp]. specialize (IH (start + 1)). unfold len in *.
  cbn [length]. lia.
Qed.

Lemma platform_ok opps : primitives_ok (Demo.platform opps).
Proof.
  split; cbn.
  - reflexivity.
  - reflexivity.
  - intros passwd salt N r p buflen out. unfold Demo.demo_scrypt.
    destruct (buflen <? 0) eqn:E; [discriminate|].
    intros [= <-]. rewrite len_ramp. lia.
  - intros buflen salt. destruct (buflen <? 0) eqn:E; [discriminate|].
    intros [= <-]. rewrite len_ramp. lia.
Qed.

(** ** The wrapper: KDF and Verify *)

Section WrapperFacts.
Context `{Primitives}.

Lemma ScryptHashFunction_ok key salt N r p out w :
crypto_scrypt key salt N r p 64 = Some out ->
Wrapper.ScryptHashFunction key salt N r p w
= (set_dk out (log_scrypt (key, salt, N, r, p, 64) w), Ok 0).
Proof. intros E. unfold Wrapper.ScryptHashFunction. rewrite E. reflexivity. Qed.

Lemma ScryptHashFunction_fail key salt N r p w :
crypto_scrypt key salt N r p 64 = None ->
exists e, (e =? 0) = false /\
  Wrapper.ScryptHashFunction key salt N r p w
  = (log_scrypt (key, salt, N, r, p, 64) w, Ok e).
Proof.
intros E. unfold Wrapper.ScryptHashFunction. rewrite E.
eexists. split; [|reflexivity].
destruct (scrypt_errno =? 0); cbn [negb]; [reflexivity|].
apply Z.eqb_neq. intros C. apply Z.lor_eq_0_iff in C. lia.
Qed.

(** [Verify] shifts by the byte at offset 7 before anything else. *)
Lemma Verify_undefined kdf passwd w :
64 <= at_ 7 kdf -> Wrapper.Verify kdf passwd w = (w, Undef).
Proof.
intros Hk. unfold Wrapper.Verify, bind, lift.
rewrite shl64_undefined by assumption. reflexivity.
Qed.

(** What [Verify] does where its shift is defined. *)
Lemma Verify_spec kdf passwd w :
0 <= at_ 7 kdf <= 63 ->
Wrapper.Verify kdf passwd w =
if memcmp (slice 48 16 kdf) (take 16 (SHA256_Buf (take 48 kdf)))
then (w, Err 7)
else
  let call := (passwd, slice 16 32 kdf, 2 ^ at_ 7 kdf,
               be32dec (drop 8 kdf), be32dec (drop 12 kdf), 64) in
  match crypto_scrypt passwd (slice 16 32 kdf) (2 ^ at_ 7 kdf)
                      (be32dec (drop 8 kdf)) (be32dec (drop 12 kdf)) 64 with
  | None => (log_scrypt call w, Err 3)
  | Some out =>
    (set_dk out (log_scrypt call w),
     if memcmp (take 32 (HMAC_SHA256_Buf (slice 32 32 out) (take 64 kdf)))
               (slice 64 32 kdf)
     then Err 11 else Ok tt)
  end.
Proof.
intros Hk. unfold Wrapper.Verify. unfold bind at 1. unfold lift.
rewrite shl64_pow2 by assumption. cbv zeta.
destruct (memcmp (slice 48 16 kdf) _); [reflexivity|].
unfold bind.
destruct (crypto_scrypt passwd (slice 16 32 kdf) (2 ^ at_ 7 kdf)
            (be32dec (drop 8 kdf)) (be32dec (drop 12 kdf)) 64) as [out|] eqn:E.
- rewrite (ScryptHashFunction_ok _ _ _ _ _ _ w E).
  cbn [Z.eqb negb gets ret dk set_dk fail].
  unfold HMAC_SHA256_Final, HMAC_SHA256_Update, HMAC_SHA256_Init.
  cbn [hmac_key hmac_fed app].
  destruct (memcmp _ _); reflexivity.
- destruct (ScryptHashFunction_fail _ _ _ _ _ w E) as (e & He & Hrun).
  rewrite Hrun, He. reflexivity.
Qed.

Hypothesis OK : primitives_ok _.

Lemma len_take_sha m : len (take 16 (SHA256_Buf m)) = 16.
Proof. rewrite len_take, (SHA256_len OK). reflexivity. Qed.

Lemma len_take_hmac k m : len (take 32 (HMAC_SHA256_Buf k m)) = 32.
Proof. rewrite len_take, (HMAC_SHA256_len OK). reflexivity. Qed.

Lemma len_sealed key logN r p salt :
len salt = 32 -> len (sealed key (record_head logN r p salt)) = 96.
Proof.
intros Hs. unfold sealed. apply len_rec; try assumption.
- apply len_take_sha.
- apply len_take_hmac.
Qed.

(** What [KDF] does with a 32-byte salt where its shift is defined. *)
Lemma KDF_spec passwd logN r p salt w :
0 <= logN <= 63 ->
len salt = 32 ->
Wrapper.KDF passwd logN r p salt w =
let w' := log_scrypt (passwd, salt, 2 ^ logN, r, p, 64) w in
match crypto_scrypt passwd salt (2 ^ logN) r p 64 with
| None => (w', Err 3)
| Some out =>
  (set_dk out w', Ok (sealed (slice 32 32 out) (record_head logN r p salt)))
end.
Proof.
intros HlogN Hsalt. unfold Wrapper.KDF. unfold bind at 1. unfold lift.
rewrite shl64_pow2 by assumption. unfold bind. cbv zeta.
destruct (crypto_scrypt passwd salt (2 ^ logN) r p 64) as [out|] eqn:E.
- rewrite (ScryptHashFunction_ok _ _ _ _ _ _ w E).
  cbn [Z.eqb negb gets ret dk set_dk]. unfold sealed.
  fold (record_head logN r p salt).
  rewrite head_take_48 by assumption.
  rewrite head_c_take_64 by (try assumption; apply len_take_sha).
  reflexivity.
- destruct (ScryptHashFunction_fail _ _ _ _ _ w E) as (e & He & Hrun).
  rewrite Hrun, He. reflexivity.
Qed.

(** A sealed record passes the checksum and signature comparisons of
  [Verify] when the derivation gives the key it was sealed under. *)
Lemma Verify_sealed passwd logN r p salt out w :
0 <= logN <= 63 -> 0 <= r < 2 ^ 32 -> 0 <= p < 2 ^ 32 -> len salt = 32 ->
crypto_scrypt passwd salt (2 ^ logN) r p 64 = Some out ->
Wrapper.Verify (sealed (slice 32 32 out) (record_head logN r p salt)) passwd w
= (set_dk out (log_scrypt (passwd, salt, 2 ^ logN, r, p, 64) w), Ok tt).
Proof.
intros HlogN Hr Hp Hsalt E. unfold sealed.
pose proof (len_take_sha (record_head logN r p salt)) as Hc.
set (c := take 16 (SHA256_Buf (record_head logN r p salt))) in *.
set (s := take 32 (HMAC_SHA256_Buf (slice 32 32 out)
                     (record_head logN r p salt ++ c))).
rewrite Verify_spec by (rewrite rec_at_7 by assumption; rewrite u8_small; lia).
cbv zeta.
rewrite rec_checksum, rec_take_48, rec_at_7, rec_r, rec_p, rec_salt,
  rec_take_64, rec_signature by assumption.
fold c. rewrite memcmp_same.
rewrite u8_small by lia. rewrite (take_all 32 salt) by lia.
rewrite E.
replace (take 32 s) with s.
2:{ symmetry. apply take_all. subst s. rewrite len_take_hmac. lia. }
fold s. rewrite memcmp_same. reflexivity.
Qed.

End WrapperFacts.

(** C2: a record built by [KDF] from a password, valid cost parameters
    and a 32-byte salt has 96 bytes and verifies under the same password:
    [Verify] returns 0 and [kdfVerifySync] gives [true]. *)
Theorem kdf_verify_roundtrip `{Primitives} :
  primitives_ok _ ->
  forall passwd logN r p salt w w1 kdf w2,
    1 <= logN <= 63 -> 0 < r -> 0 < p -> r * p < 2 ^ 30 -> len salt = 32 ->
    Wrapper.KDF passwd logN r p salt w = (w1, Ok kdf) ->
    len kdf = 96 /\
    snd (Wrapper.Verify kdf passwd w2) = Ok tt /\
    snd (Wrapper.kdfVerifySync kdf passwd w2) = Some (Wrapper.JsReturn true).
Proof.
  intros OK passwd logN r p salt w w1 kdf w2 HlogN Hr Hp Hrp Hsalt HK.
  assert (Hr32 : 0 <= r < 2 ^ 32) by nia.
  assert (Hp32 : 0 <= p < 2 ^ 32) by nia.
  rewrite KDF_spec in HK by (assumption || lia). cbv zeta in HK.
  destruct (crypto_scrypt passwd salt (2 ^ logN) r p 64) as [out|] eqn:E;
    [|discriminate].
  injection HK as _ <-.
  assert (HV : Wrapper.Verify (sealed (slice 32 32 out) (record_head logN r p salt))
                 passwd w2
               = (set_dk out (log_scrypt (passwd, salt, 2 ^ logN, r, p, 64) w2),
                  Ok tt))
    by (apply Verify_sealed; try assumption; lia).
  split; [|split].
  - apply len_sealed; assumption.
  - rewrite HV. reflexivity.
  - unfold Wrapper.kdfVerifySync. rewrite HV. reflexivity.
Qed.

Lemma kdf_verify_roundtrip_witness :
  @Wrapper.KDF Demo.fast [9; 9] 10 8 1 (Demo.ramp 32 0) (Demo.blank 0)
  = (fst Demo.kdf_run, Ok Demo.record) /\
  (len Demo.record = 96 /\
   snd (@Wrapper.Verify Demo.fast Demo.record [9; 9] (Demo.blank 0)) = Ok tt /\
   snd (@Wrapper.kdfVerifySync Demo.fast Demo.record [9; 9] (Demo.blank 0))
   = Some (Wrapper.JsReturn true)).
Proof.
  split; [vm_compute; reflexivity|].
  apply (@kdf_verify_roundtrip Demo.fast (platform_ok _) [9; 9] 10 8 1
           (Demo.ramp 32 0) (Demo.blank 0) (fst Demo.kdf_run)); try lia;
    vm_compute; reflexivity.
Defined.

Lemma scan_logN_range fuel maxN : forall logN,
  1 <= logN <= 63 ->
  exists l, scan_logN fuel logN maxN = Ok l /\ logN <= l <= 63.
Proof.
  induction fuel as [|fuel IH]; intros logN Hl; cbn [scan_logN];
    [exists logN; split; [reflexivity|lia]|].
  destruct (logN <? 63) eqn:E; [|exists logN; split; [reflexivity|lia]].
  apply Z.ltb_lt in E. rewrite shl64_pow2 by lia.
  destruct (gtb _ _); [exists logN; split; [reflexivity|lia]|].
  destruct (IH (logN + 1)) as (l & Hrun & Hrange); [lia|].
  exists l. split; [exact Hrun|lia].
Qed.

Lemma to_unsigned_range w x z : to_unsigned w x = Some z -> 0 <= z < 2 ^ w.
Proof.
  unfold to_unsigned. destruct (trunc x) as [t|]; [|discriminate].
  destruct ((0 <=? t) && (t <? 2 ^ w)) eqn:E; [|discriminate].
  intros [= <-]. apply andb_true_iff in E. lia.
Qed.

Lemma pickparams_limits_range memlimit opps maxtime logN r p :
  pickparams_limits memlimit opps maxtime = Ok (logN, r, p) ->
  1 <= logN <= 63 /\ r = 8 /\ 0 <= p < 2 ^ 29.
Proof.
  unfold pickparams_limits. cbv zeta. change (2 ^ 29) with 536870912.
  destruct (ltb _ (of_Z (memlimit / 32))).
  - match goal with |- context [scan_logN ?f ?l ?x] =>
      destruct (scan_logN_range f x l) as (L1 & -> & R1); [lia|] end.
    cbn [rbind]. intros [= <- <- <-]. lia.
  - match goal with |- context [scan_logN ?f ?l ?x] =>
      destruct (scan_logN_range f x l) as (L2 & -> & R2); [lia|] end.
    cbn [rbind]. rewrite shl64_pow2 by lia. cbn [rbind].
    destruct (to_unsigned 32 _) as [m|] eqn:E; [|discriminate].
    intros [= <- <- <-]. apply to_unsigned_range in E.
    change (2 ^ 32) with 4294967296 in E.
    split; [lia|]. split; [reflexivity|].
    Z.to_euclidean_division_equations. lia.
Qed.

Section PickparamsRange.
Context `{Primitives}.

Lemma pickparams_range maxmem maxmemfrac maxtime logN r p :
pickparams maxmem maxmemfrac maxtime = Ok (logN, r, p) ->
1 <= logN <= 63 /\ r = 8 /\ 0 <= p < 2 ^ 29.
Proof.
unfold pickparams. destruct (memtouse _ _); try discriminate.
destruct scryptenc_cpuperf; try discriminate. cbn [rbind].
apply pickparams_limits_range.
Qed.
End PickparamsRange.

Lemma at_app_l i (a b : list byte) : 0 <= i < len a -> at_ i (a ++ b) = at_ i a.
Proof. unfold at_, len. intros. apply app_nth1. lia. Qed.

(** The three writes of [scryptenc_buf] into the caller's buffer. *)
Lemma container_written (o header ct tag : list byte) :
  len header = 96 ->
  let o2 := memcpy (memcpy o 0 header) 96 ct in
  take (96 + len ct) o2 = header ++ ct /\
  memcpy o2 (96 + len ct) tag
  = header ++ ct ++ tag ++ drop (96 + len ct + len tag) o.
Proof.
  intros Hh. cbv zeta. unfold memcpy.
  rewrite (take_nonpos 0) by lia. cbn [app].
  pose proof (len_nonneg ct). pose proof (len_nonneg tag). pose proof (len_nonneg o).
  rewrite (take_app_exact 96 header) by assumption.
  rewrite (drop_app_ge (96 + len ct) header) by lia.
  rewrite Hh. rewrite drop_drop by lia.
  replace (0 + 96 + (96 + len ct - 96)) with (96 + len ct) by lia.
  rewrite app_assoc.
  assert (Hhc : len (header ++ ct) = 96 + len ct) by (rewrite len_app; lia).
  rewrite (take_app_exact (96 + len ct) (header ++ ct)) by assumption.
  split; [reflexivity|].
  rewrite (drop_app_ge _ (header ++ ct)) by lia.
  rewrite Hhc. rewrite drop_drop by lia.
  rewrite <- !app_assoc. do 3 f_equal. f_equal. lia.
Qed.

(** The parts [scryptdec_buf] reads from a container. *)
Lemma container_parts (header ct tag : list byte) :
  len header = 96 -> len tag = 32 ->
  let c := header ++ ct ++ tag in
  len c = len ct + 128 /\
  take 96 c = header /\
  slice 96 (len c - 128) c = ct /\
  take (len c - 32) c = header ++ ct /\
  slice (len c - 32) 32 c = tag.
Proof.
  intros Hh Ht. cbv zeta.
  assert (Hc : len (header ++ ct ++ tag) = len ct + 128)
    by (rewrite !len_app; lia).
  rewrite Hc. split; [reflexivity|].
  split; [apply take_app_exact; assumption|].
  split.
  { replace (len ct + 128 - 128) with (len ct) by lia.
    apply slice_app_mid; [assumption|reflexivity]. }
  split.
  { rewrite app_assoc. apply take_app_exact. rewrite len_app. lia. }
  rewrite app_assoc. rewrite slice_app_end by (rewrite len_app; lia).
  apply take_all. lia.
Qed.

(** ** Containers in a buffer *)

Ltac run_m := unfold bind, gets, modify, ret, fail, lift, undefined.

Section ScryptencFacts.
Context `{Primitives}.

Lemma crypto_scrypt_dk_spec passwd salt N r p w :
crypto_scrypt_dk passwd salt N r p w =
let w' := log_scrypt (passwd, salt, N, r, p, 64) w in
match crypto_scrypt passwd salt N r p 64 with
| Some out => (set_dk out w', Ok true)
| None => (w', Ok false)
end.
Proof. reflexivity. Qed.

Lemma checkparams_limits_logN memlimit opps maxtime logN r p u :
checkparams_limits memlimit opps maxtime logN r p = Ok u -> 1 <= logN <= 63.
Proof.
unfold checkparams_limits. cbv zeta.
destruct ((logN <? 1) || (logN >? 63)) eqn:E; [discriminate|].
intros _. apply orb_false_iff in E. destruct E as [E1 E2].
apply Z.ltb_ge in E1. rewrite Z.gtb_ltb in E2. apply Z.ltb_ge in E2. lia.
Qed.

(** Parameters that [checkparams] accepts have a [logN] from 1 to 63. *)
Lemma checkparams_logN maxmem maxmemfrac maxtime logN r p u :
checkparams maxmem maxmemfrac maxtime logN r p = Ok u -> 1 <= logN <= 63.
Proof.
unfold checkparams. destruct (memtouse _ _); try discriminate.
destruct scryptenc_cpuperf; try discriminate. cbn [rbind].
apply checkparams_limits_logN.
Qed.

(** What [scryptdec_setup] does, on every input. *)
Lemma scryptdec_setup_spec header passwd maxmem maxmemfrac maxtime w :
scryptdec_setup header passwd maxmem maxmemfrac maxtime w =
if memcmp (slice 48 16 header) (take 16 (SHA256_Buf (take 48 header)))
then (w, Err 7)
else
  let logN := at_ 7 header in
  let r := be32dec (drop 8 header) in
  let p := be32dec (drop 12 header) in
  let salt := slice 16 32 header in
  match checkparams maxmem maxmemfrac maxtime logN r p with
  | Err rc => (w, Err rc)
  | Undef => (w, Undef)
  | Ok _ =>
    let w' := log_scrypt (passwd, salt, 2 ^ logN, r, p, 64) w in
    match crypto_scrypt passwd salt (2 ^ logN) r p 64 with
    | None => (w', Err 3)
    | Some out =>
      (set_dk out w',
       if memcmp (take 32 (HMAC_SHA256_Buf (slice 32 32 out) (take 64 header)))
                 (slice 64 32 header)
       then Err 11 else Ok tt)
    end
  end.
Proof.
unfold scryptdec_setup. cbv zeta.
destruct (memcmp (slice 48 16 header) _); [reflexivity|].
unfold bind at 1, lift.
destruct (checkparams _ _ _ _ _ _) as [[]|rc|] eqn:Echeck; try reflexivity.
apply checkparams_logN in Echeck.
unfold bind at 1. rewrite shl64_pow2 by lia.
unfold bind. rewrite crypto_scrypt_dk_spec. cbv zeta.
destruct (crypto_scrypt _ _ _ _ _ _) as [out|]; [|reflexivity].
cbn [negb gets ret dk set_dk fail].
unfold HMAC_SHA256_Final, HMAC_SHA256_Update, HMAC_SHA256_Init.
cbn [hmac_key hmac_fed app].
destruct (memcmp _ _); reflexivity.
Qed.

Hypothesis OK : primitives_ok _.

(** What [scryptenc_setup] does. *)
Lemma scryptenc_setup_spec passwd maxmem maxmemfrac maxtime w :
scryptenc_setup passwd maxmem maxmemfrac maxtime w =
match pickparams maxmem maxmemfrac maxtime with
| Err rc => (w, Err rc)
| Undef => (w, Undef)
| Ok (logN, r, p) =>
  match crypto_entropy_read 32 with
  | None => (w, Err 4)
  | Some salt =>
    let w' := log_scrypt (passwd, salt, 2 ^ logN, r, p, 64) w in
    match crypto_scrypt passwd salt (2 ^ logN) r p 64 with
    | None => (w', Err 3)
    | Some out =>
      (set_dk out w', Ok (sealed (slice 32 32 out) (record_head logN r p salt)))
    end
  end
end.
Proof.
unfold scryptenc_setup. unfold bind at 1, lift.
destruct (pickparams maxmem maxmemfrac maxtime) as [[[logN r] p]|rc|] eqn:Epick;
  try reflexivity.
apply pickparams_range in Epick.
unfold bind at 1. rewrite shl64_pow2 by lia.
destruct (crypto_entropy_read 32) as [salt|] eqn:Esalt; [|reflexivity].
pose proof (crypto_entropy_len OK _ _ Esalt) as Hsalt.
unfold bind. rewrite crypto_scrypt_dk_spec. cbv zeta.
destruct (crypto_scrypt _ _ _ _ _ _) as [out|]; [|reflexivity].
cbn [negb gets ret dk set_dk]. unfold sealed.
fold (record_head logN r p salt).
rewrite head_take_48 by assumption.
rewrite head_c_take_64 by (try assumption; apply len_take_sha; assumption).
reflexivity.
Qed.


(** A sealed header passes [scryptdec_setup] when the budgets admit its
  parameters and the derivation gives the key it was sealed under. *)
Lemma scryptdec_setup_sealed passwd logN r p salt out maxmem maxmemfrac maxtime w :
0 <= logN < 256 -> 0 <= r < 2 ^ 32 -> 0 <= p < 2 ^ 32 -> len salt = 32 ->
checkparams maxmem maxmemfrac maxtime logN r p = Ok tt ->
crypto_scrypt passwd salt (2 ^ logN) r p 64 = Some out ->
scryptdec_setup (sealed (slice 32 32 out) (record_head logN r p salt)) passwd
                maxmem maxmemfrac maxtime w
= (set_dk out (log_scrypt (passwd, salt, 2 ^ logN, r, p, 64) w), Ok tt).
Proof.
intros HlogN Hr Hp Hsalt Hcheck E. unfold sealed.
pose proof (len_take_sha OK (record_head logN r p salt)) as Hc.
set (c := take 16 (SHA256_Buf (record_head logN r p salt))) in *.
set (s := take 32 (HMAC_SHA256_Buf (slice 32 32 out)
                     (record_head logN r p salt ++ c))).
rewrite scryptdec_setup_spec. cbv zeta.
rewrite rec_checksum, rec_take_48, rec_at_7, rec_r, rec_p, rec_salt,
  rec_take_64, rec_signature by assumption.
fold c. rewrite memcmp_same.
rewrite u8_small by lia. rewrite (take_all 32 salt) by lia.
rewrite Hcheck, E.
replace (take 32 s) with s.
2:{ symmetry. apply take_all. subst s. rewrite len_take_hmac by assumption. lia. }
fold s. rewrite memcmp_same. reflexivity.
Qed.

Lemma aesctr_start_spec w :
aesctr_start w =
match crypto_aes_key_expand (take 32 (dk w)) with
| None => (w, Err 5)
| Some key_enc_exp =>
  if aesctr_alloc
  then (w, Ok {| ctr_key := key_enc_exp; ctr_nonce := 0; ctr_pos := 0 |})
  else (w, Err 6)
end.
Proof.
unfold aesctr_start. run_m.
destruct (crypto_aes_key_expand _); [|reflexivity].
destruct aesctr_alloc; reflexivity.
Qed.

(** What [scryptenc_buf] does. *)
Lemma scryptenc_buf_spec inbuf passwd maxmem maxmemfrac maxtime w :
scryptenc_buf inbuf passwd maxmem maxmemfrac maxtime w =
match scryptenc_setup passwd maxmem maxmemfrac maxtime w with
| (w1, Ok header) =>
  let o1 := memcpy (outbuf w1) 0 header in
  match crypto_aes_key_expand (take 32 (dk w1)) with
  | None => (set_outbuf o1 w1, Err 5)
  | Some key =>
    if aesctr_alloc then
      let o2 := memcpy o1 96 (xor_keystream key 0 0 inbuf) in
      let tag := take 32 (HMAC_SHA256_Buf (slice 32 32 (dk w1))
                            (take (96 + len inbuf) o2)) in
      (set_dk (repeat 0 64)
         (set_outbuf (memcpy o2 (96 + len inbuf) tag) w1), Ok tt)
    else (set_outbuf o1 w1, Err 6)
  end
| (w1, Err rc) => (w1, Err rc)
| (w1, Undef) => (w1, Undef)
end.
Proof.
unfold scryptenc_buf. cbv zeta. unfold bind at 1.
destruct (scryptenc_setup _ _ _ _ w) as [w1 [header|rc|]]; try reflexivity.
unfold bind at 1, gets at 1. unfold bind at 1, modify at 1.
unfold bind at 1. rewrite aesctr_start_spec. cbn [dk set_outbuf].
destruct (crypto_aes_key_expand _) as [key|]; [|reflexivity].
destruct aesctr_alloc; reflexivity.
Qed.

(** What [scryptdec_buf] does once the prefix checks pass. *)
Lemma scryptdec_buf_spec inbuf passwd maxmem maxmemfrac maxtime w :
128 <= len inbuf -> take 6 inbuf = magic -> at_ 6 inbuf = 0 ->
scryptdec_buf inbuf passwd maxmem maxmemfrac maxtime w =
match scryptdec_setup (take 96 inbuf) passwd maxmem maxmemfrac maxtime w with
| (w1, Ok _) =>
  match crypto_aes_key_expand (take 32 (dk w1)) with
  | None => (w1, Err 5)
  | Some key =>
    if aesctr_alloc then
      let plain := xor_keystream key 0 0 (slice 96 (len inbuf - 128) inbuf) in
      let w2 := set_outlen (len inbuf - 128)
                  (set_outbuf (memcpy (outbuf w1) 0 plain) w1) in
      if memcmp (take 32 (HMAC_SHA256_Buf (slice 32 32 (dk w1))
                            (take (len inbuf - 32) inbuf)))
                (slice (len inbuf - 32) 32 inbuf)
      then (w2, Err 7)
      else (set_dk (repeat 0 64) w2, Ok tt)
    else (w1, Err 6)
  end
| (w1, Err rc) => (w1, Err rc)
| (w1, Undef) => (w1, Undef)
end.
Proof.
intros Hlen Hmagic Hver. unfold scryptdec_buf. cbv zeta.
rewrite Hmagic, memcmp_same, Hver.
replace (len inbuf <? 7) with false by (symmetry; apply Z.ltb_ge; lia).
replace (len inbuf <? 128) with false by (symmetry; apply Z.ltb_ge; lia).
cbn [orb negb Z.eqb]. unfold bind at 1.
destruct (scryptdec_setup _ _ _ _ _ w) as [w1 [[]|rc|]]; try reflexivity.
unfold bind at 1, gets at 1. unfold bind at 1.
rewrite aesctr_start_spec.
destruct (crypto_aes_key_expand _) as [key|]; [|reflexivity].
destruct aesctr_alloc; [|reflexivity].
unfold bind, modify, HMAC_SHA256_Final, HMAC_SHA256_Update, HMAC_SHA256_Init.
cbn [hmac_key hmac_fed app fst crypto_aesctr_stream ctr_key ctr_nonce ctr_pos].
destruct (memcmp _ _); reflexivity.
Qed.

End ScryptencFacts.

(** C1 (amended): whenever [scryptenc_buf] succeeds, [scryptdec_buf] run
    on its output with the same password, under budgets that admit the
    parameters the encryption chose, returns 0 and writes exactly the
    plaintext, with [outlen] its length. *)
Theorem scrypt_buf_roundtrip `{Primitives} :
  primitives_ok _ ->
  forall inbuf passwd maxmem maxmemfrac maxtime maxmem' maxmemfrac' maxtime'
         w w1 w',
    len inbuf + 128 <= len (outbuf w) ->
    scryptenc_buf inbuf passwd maxmem maxmemfrac maxtime w = (w1, Ok tt) ->
    (forall logN r p,
        pickparams maxmem maxmemfrac maxtime = Ok (logN, r, p) ->
        checkparams maxmem' maxmemfrac' maxtime' logN r p = Ok tt) ->
    len inbuf + 128 <= len (outbuf w') ->
    exists w2,
      scryptdec_buf (take (len inbuf + 128) (outbuf w1)) passwd
                    maxmem' maxmemfrac' maxtime' w' = (w2, Ok tt) /\
      outlen w2 = len inbuf /\
      take (outlen w2) (outbuf w2) = inbuf.
Proof.
  intros OK inbuf passwd maxmem maxmemfrac maxtime maxmem' maxmemfrac' maxtime'
    w w1 w' Hcap Henc Hcheck Hcap'.
  rewrite scryptenc_buf_spec, scryptenc_setup_spec in Henc by assumption.
  destruct (pickparams maxmem maxmemfrac maxtime) as [[[logN r] p]|rc|] eqn:Hpick;
    try discriminate.
  destruct (pickparams_range _ _ _ _ _ _ Hpick) as (HlogN & -> & Hp).
  specialize (Hcheck _ _ _ eq_refl).
  destruct (crypto_entropy_read 32) as [salt|] eqn:Esalt; [|discriminate].
  pose proof (crypto_entropy_len OK _ _ Esalt) as Hsalt.
  cbv zeta in Henc.
  destruct (crypto_scrypt passwd salt (2 ^ logN) 8 p 64) as [out|] eqn:Escrypt;
    [|discriminate].
  cbn [dk set_dk outbuf log_scrypt] in Henc.
  destruct (crypto_aes_key_expand (take 32 out)) as [key|] eqn:Ekey; [|discriminate].
  destruct aesctr_alloc eqn:Ealloc; [|discriminate].
  remember (sealed (slice 32 32 out) (record_head logN 8 p salt)) as header
    eqn:Hdef.
  assert (Hheader : len header = 96) by (subst header; apply len_sealed; assumption).
  remember (xor_keystream key 0 0 inbuf) as ct eqn:Hctdef.
  assert (Hct : len ct = len inbuf) by (subst ct; apply len_xor_keystream).
  rewrite <- Hct in Henc.
  destruct (container_written (outbuf w) header ct
              (take 32 (HMAC_SHA256_Buf (slice 32 32 out) (header ++ ct))) Hheader)
    as [Hsigned Hfinal].
  rewrite Hsigned in Henc. rewrite Hfinal in Henc. clear Hsigned Hfinal.
  remember (take 32 (HMAC_SHA256_Buf (slice 32 32 out) (header ++ ct))) as tag
    eqn:Htagdef.
  assert (Htag : len tag = 32) by (subst tag; apply len_take_hmac, OK).
  apply (f_equal fst) in Henc. cbn [fst] in Henc. subst w1.
  cbn [outbuf set_dk set_outbuf].
  rewrite <- Hct.
  replace (take (len ct + 128) (header ++ ct ++ tag ++ drop (96 + len ct + len tag) (outbuf w)))
    with (header ++ ct ++ tag).
  2:{ symmetry.
      replace (header ++ ct ++ tag ++ drop (96 + len ct + len tag) (outbuf w))
        with ((header ++ ct ++ tag) ++ drop (96 + len ct + len tag) (outbuf w))
        by (rewrite <- !app_assoc; reflexivity).
      apply take_app_exact. rewrite !len_app. lia. }
  destruct (container_parts header ct tag Hheader Htag)
    as (Hlen & Hh & Hpayload & Hsigned & Htrail).
  assert (Hmagic : take 6 (header ++ ct ++ tag) = magic).
  { rewrite take_app_le by lia. subst header. apply rec_take_6. }
  assert (Hver : at_ 6 (header ++ ct ++ tag) = 0).
  { rewrite at_app_l by lia. subst header. apply rec_at_6. }
  pose proof (len_nonneg ct) as Hct0.
  rewrite scryptdec_buf_spec by (try assumption; lia).
  assert (Hsetup : scryptdec_setup header passwd maxmem' maxmemfrac' maxtime' w'
            = (set_dk out (log_scrypt (passwd, salt, 2 ^ logN, 8, p, 64) w'), Ok tt)).
  { subst header. apply scryptdec_setup_sealed; try assumption; lia. }
  rewrite Hh, Hsetup. cbn [dk set_dk log_scrypt].
  rewrite Ekey, Ealloc. cbv zeta.
  rewrite Hpayload, Hsigned, Htrail, <- Htagdef, memcmp_same.
  eexists. split; [reflexivity|]. cbn [outlen outbuf set_dk set_outlen set_outbuf].
  split; [lia|].
  rewrite Hlen, Hct, Hctdef, xor_keystream_involutive.
  unfold memcpy. rewrite (take_nonpos 0) by lia. cbn [app].
  apply take_app_exact. lia.
Qed.

(** C1, counterexample: a million salsa20/8 cores per second and a time
    budget of 0 seconds.  [scryptenc_buf] raises the operations budget to
    32768 and succeeds; [scryptdec_buf], under the same policy, compares
    the parameters with a budget of 0 operations and returns 10. *)
Lemma roundtrip_fails_under_same_policy :
  let zero := of_Z 0 in
  let enc := @scryptenc_buf Demo.fast Demo.plain Demo.passwd 0 half zero
               (Demo.blank 133) in
  snd enc = Ok tt /\
  snd (@scryptdec_buf Demo.fast (take (len Demo.plain + 128) (outbuf (fst enc)))
         Demo.passwd 0 half zero (Demo.blank 133)) = Err 10.
Proof. vm_compute. split; reflexivity. Qed.

Lemma scrypt_buf_roundtrip_witness :
  @scryptenc_buf Demo.fast Demo.plain Demo.passwd 0 half Demo.one_second (Demo.blank 133)
  = (fst (Demo.enc_run Demo.one_second), Ok tt) /\
  exists w2,
    @scryptdec_buf Demo.fast
      (take (len Demo.plain + 128) (outbuf (fst (Demo.enc_run Demo.one_second))))
      Demo.passwd 0 half Demo.one_second (Demo.blank 133) = (w2, Ok tt) /\
    outlen w2 = len Demo.plain /\
    take (outlen w2) (outbuf w2) = Demo.plain.
Proof.
  split; [vm_compute; reflexivity|].
  apply (@scrypt_buf_roundtrip Demo.fast (platform_ok _) Demo.plain Demo.passwd
           0 half Demo.one_second 0 half Demo.one_second (Demo.blank 133)).
  - vm_compute. discriminate.
  - vm_compute. reflexivity.
  - intros logN r p E. vm_compute in E. injection E as <- <- <-.
    vm_compute. reflexivity.
  - vm_compute. discriminate.
Defined.

(** C10: on a container of at least 128 bytes whose header passes
    [scryptdec_setup] but whose trailing tag does not match, [scryptdec_buf]
    returns 7 after having written the [inbuflen - 128] decrypted bytes to
    the caller's buffer and that length to [outlen]. *)
Theorem scryptdec_buf_writes_before_tag_check `{Primitives} :
  forall inbuf passwd maxmem maxmemfrac maxtime w w1 key,
    128 <= len inbuf -> take 6 inbuf = magic -> at_ 6 inbuf = 0 ->
    scryptdec_setup (take 96 inbuf) passwd maxmem maxmemfrac maxtime w = (w1, Ok tt) ->
    crypto_aes_key_expand (take 32 (dk w1)) = Some key ->
    aesctr_alloc = true ->
    take 32 (HMAC_SHA256_Buf (slice 32 32 (dk w1)) (take (len inbuf - 32) inbuf))
    <> slice (len inbuf - 32) 32 inbuf ->
    len inbuf - 128 <= len (outbuf w) ->
    exists w2,
      scryptdec_buf inbuf passwd maxmem maxmemfrac maxtime w = (w2, Err 7) /\
      outlen w2 = len inbuf - 128 /\
      take (len inbuf - 128) (outbuf w2)
      = xor_keystream key 0 0 (slice 96 (len inbuf - 128) inbuf) /\
      drop (len inbuf - 128) (outbuf w2) = drop (len inbuf - 128) (outbuf w).
Proof.
  intros inbuf passwd maxmem maxmemfrac maxtime w w1 key
    Hlen Hmagic Hver Hsetup Hkey Halloc Htag Hcap.
  rewrite scryptdec_buf_spec by assumption.
  assert (Hout : outbuf w1 = outbuf w).
  { rewrite scryptdec_setup_spec in Hsetup.
    destruct (memcmp _ _); [discriminate|]. cbv zeta in Hsetup.
    destruct (checkparams _ _ _ _ _ _); try discriminate.
    destruct (crypto_scrypt _ _ _ _ _ _); [|discriminate].
    apply (f_equal fst) in Hsetup. cbn [fst] in Hsetup. subst w1. reflexivity. }
  rewrite Hsetup, Hkey, Halloc. cbv zeta.
  rewrite (memcmp_differ _ _ Htag).
  eexists. split; [reflexivity|].
  cbn [outlen outbuf set_outlen set_outbuf]. split; [reflexivity|].
  rewrite Hout. unfold memcpy. rewrite (take_nonpos 0) by lia. cbn [app].
  set (plain := xor_keystream key 0 0 (slice 96 (len inbuf - 128) inbuf)).
  assert (Hplain : len plain = len inbuf - 128).
  { unfold plain. rewrite len_xor_keystream. unfold slice.
    rewrite len_take, len_drop. lia. }
  split.
  - apply take_app_exact. assumption.
  - rewrite drop_app_exact by assumption. f_equal. lia.
Qed.

Lemma scryptdec_buf_writes_before_tag_check_witness :
  exists w2,
    @scryptdec_buf Demo.fast Demo.tampered Demo.passwd 0 half Demo.one_second
      (Demo.blank 133) = (w2, Err 7) /\
    outlen w2 = len Demo.tampered - 128 /\
    take (len Demo.tampered - 128) (outbuf w2)
    = @xor_keystream Demo.fast (take 32 Demo.derived) 0 0
        (slice 96 (len Demo.tampered - 128) Demo.tampered) /\
    drop (len Demo.tampered - 128) (outbuf w2)
    = drop (len Demo.tampered - 128) (outbuf (Demo.blank 133)).
Proof.
  apply (@scryptdec_buf_writes_before_tag_check Demo.fast Demo.tampered Demo.passwd
           0 half Demo.one_second (Demo.blank 133)
           (fst (@scryptdec_setup Demo.fast (take 96 Demo.tampered) Demo.passwd
                   0 half Demo.one_second (Demo.blank 133)))
           (take 32 Demo.derived)).
  - vm_compute. discriminate.
  - vm_compute. reflexivity.
  - vm_compute. reflexivity.
  - vm_compute. reflexivity.
  - vm_compute. reflexivity.
  - vm_compute. reflexivity.
  - vm_compute. discriminate.
  - vm_compute. discriminate.
Defined.

(** C6, the code at failing inputs: after a trailing-tag mismatch in
    [scryptdec_buf] and in [scryptdec_file], and after a write error in
    [scryptenc_file], [dk] still holds the 64 derived bytes; only the
    success path wipes it. *)
Theorem derived_key_survives_error_returns :
  let zeros := repeat 0 64 in
  (* buffer decrypt, trailing tag mismatch *)
  (let run := @scryptdec_buf Demo.fast Demo.tampered Demo.passwd 0 half
                Demo.one_second (Demo.blank 133) in
   snd run = Err 7 /\ dk (fst run) = Demo.derived /\ dk (fst run) <> zeros) /\
  (* stream decrypt, trailing tag mismatch *)
  (let run := @scryptdec_file Demo.fast Demo.passwd 0 half Demo.one_second
                (Demo.reading Demo.tampered [3; 4]) in
   snd run = Err 7 /\ dk (fst run) = Demo.derived /\ dk (fst run) <> zeros) /\
  (* stream encrypt, write error *)
  (let run := @scryptenc_file Demo.fast Demo.passwd 0 half Demo.one_second
                (set_outfile {| out_data := []; out_room := Some 98 |}
                   (Demo.reading Demo.plain [3; 4])) in
   snd run = Err 12 /\ dk (fst run) = Demo.derived /\ dk (fst run) <> zeros) /\
  (* the success paths do wipe it *)
  dk (fst (@scryptdec_buf Demo.fast Demo.container Demo.passwd 0 half
             Demo.one_second (Demo.blank 133))) = zeros.
Proof. vm_compute. repeat split; discriminate. Qed.




(** ** Well-formed byte strings *)

Lemma at_is_byte i l : is_bytes l -> 0 <= at_ i l < 256.
Proof.
  unfold at_, is_bytes. intros Hl.
  destruct (nth_in_or_default (Z.to_nat i) l 0) as [Hin | ->]; [|lia].
  rewrite Forall_forall in Hl. apply Hl, Hin.
Qed.

Lemma is_bytes_drop n l : is_bytes l -> is_bytes (drop n l).
Proof.
  unfold is_bytes, drop. rewrite !Forall_forall. intros Hl x Hx.
  apply Hl. rewrite <- (firstn_skipn (Z.to_nat n) l). apply in_or_app. right. exact Hx.
Qed.

Lemma be32dec_range l : is_bytes l -> 0 <= be32dec l < 2 ^ 32.
Proof.
  intros Hl. unfold be32dec.
  pose proof (at_is_byte 0 l Hl). pose proof (at_is_byte 1 l Hl).
  pose proof (at_is_byte 2 l Hl). pose proof (at_is_byte 3 l Hl).
  rewrite !Z.shiftl_mul_pow2 by lia.
  change (2 ^ 24) with 16777216. change (2 ^ 16) with 65536.
  change (2 ^ 8) with 256. change (2 ^ 32) with 4294967296. lia.
Qed.

Lemma checkparams_limits_sanity memlimit opps maxtime logN r p :
  0 <= r < 2 ^ 32 -> 0 <= p < 2 ^ 32 ->
  logN < 1 \/ 63 < logN \/ 2 ^ 30 <= r * p ->
  checkparams_limits memlimit opps maxtime logN r p = Err 7.
Proof.
  intros Hr Hp Hbad. unfold checkparams_limits. cbv zeta.
  destruct ((logN <? 1) || (logN >? 63)) eqn:E; [reflexivity|].
  apply orb_false_iff in E. destruct E as [E1 E2].
  apply Z.ltb_ge in E1. rewrite Z.gtb_ltb in E2. apply Z.ltb_ge in E2.
  unfold u64. rewrite !Z.mod_small.
  - replace (r * p >=? 1073741824) with true; [reflexivity|].
    symmetry. apply Z.geb_le. change (2 ^ 30) with 1073741824 in Hbad. lia.
  - change (2 ^ 32) with 4294967296 in Hp. change (2 ^ 64) with 18446744073709551616. lia.
  - change (2 ^ 32) with 4294967296 in Hr. change (2 ^ 64) with 18446744073709551616. lia.
Qed.

(** C9, counterexample: a 96-byte record with a correct checksum and
    the byte 200 at offset 7.  C leaves [(uint64_t)1 << 200] undefined:
    [Verify] has no defined result, and no derivation with an [N] wrapped
    modulo 2^64 is on record. *)
Lemma verify_shift_is_undefined :
  len Demo.wild = 96 /\ at_ 7 Demo.wild = 200 /\
  slice 48 16 Demo.wild = take 16 (@SHA256_Buf Demo.fast (take 48 Demo.wild)) /\
  shl64 1 200 = Undef /\
  @Wrapper.Verify Demo.fast Demo.wild Demo.passwd (Demo.blank 0)
  = (Demo.blank 0, Undef).
Proof. vm_compute. repeat split; reflexivity. Qed.

(** C9 (amended): on a 96-byte record with a correct checksum whose
    [logN] byte is at most 63, [Verify] calls the derivation with the
    salt, [r], [p] and [N = 2^logN] parsed from the record, whatever their
    values, [logN = 0] and [r * p >= 2^30] included; from [logN = 64] on
    its shift is undefined and it has no result.  [scryptdec_setup]
    derives nothing when [checkparams] refuses the parameters, and
    [checkparams] returns 7 for [logN] outside [1, 63] or
    [r * p >= 2^30]. *)
Theorem verify_skips_parameter_checks `{Primitives} :
  forall kdf passwd w,
    len kdf = 96 -> is_bytes kdf ->
    slice 48 16 kdf = take 16 (SHA256_Buf (take 48 kdf)) ->
    let logN := at_ 7 kdf in
    let r := be32dec (drop 8 kdf) in
    let p := be32dec (drop 12 kdf) in
    (* Verify derives with whatever the record says *)
    (logN <= 63 ->
     scrypt_calls (fst (Wrapper.Verify kdf passwd w))
     = scrypt_calls w ++ [(passwd, slice 16 32 kdf, 2 ^ logN, r, p, 64)]) /\
    (* where C defines its shift *)
    (64 <= logN -> Wrapper.Verify kdf passwd w = (w, Undef)) /\
    (* scryptdec_setup derives only what checkparams lets through *)
    (forall maxmem maxmemfrac maxtime,
        checkparams maxmem maxmemfrac maxtime logN r p <> Ok tt ->
        fst (scryptdec_setup kdf passwd maxmem maxmemfrac maxtime w) = w /\
        snd (scryptdec_setup kdf passwd maxmem maxmemfrac maxtime w) <> Ok tt) /\
    (* and checkparams turns down what is out of range *)
    (logN < 1 \/ 63 < logN \/ 2 ^ 30 <= r * p ->
     forall maxmem maxmemfrac maxtime,
       checkparams maxmem maxmemfrac maxtime logN r p <> Ok tt /\
       forall memlimit opps,
         memtouse maxmem maxmemfrac = Ok memlimit -> scryptenc_cpuperf = Ok opps ->
         checkparams maxmem maxmemfrac maxtime logN r p = Err 7).
Proof.
  intros kdf passwd w Hlen Hbytes Hsum. cbv zeta.
  pose proof (be32dec_range _ (is_bytes_drop 8 _ Hbytes)) as Hr.
  pose proof (be32dec_range _ (is_bytes_drop 12 _ Hbytes)) as Hp.
  pose proof (at_is_byte 7 _ Hbytes) as HlogN.
  split; [|split; [|split]].
  - intros Hshift. rewrite Verify_spec, Hsum, memcmp_same by lia. cbv zeta.
    destruct (crypto_scrypt _ _ _ _ _ _); reflexivity.
  - apply Verify_undefined.
  - intros maxmem maxmemfrac maxtime Hcheck.
    rewrite scryptdec_setup_spec, Hsum, memcmp_same. cbv zeta.
    destruct (checkparams _ _ _ _ _ _) as [[]|rc|]; cbn [fst snd].
    + contradiction.
    + split; [reflexivity|discriminate].
    + split; [reflexivity|discriminate].
  - intros Hbad maxmem maxmemfrac maxtime.
    assert (Hlim : forall memlimit opps,
               checkparams_limits memlimit opps maxtime (at_ 7 kdf)
                 (be32dec (drop 8 kdf)) (be32dec (drop 12 kdf)) = Err 7)
      by (intros; apply checkparams_limits_sanity; assumption).
    unfold checkparams. split.
    + destruct (memtouse _ _); try discriminate.
      destruct scryptenc_cpuperf; try discriminate.
      cbn [rbind]. rewrite Hlim. discriminate.
    + intros memlimit opps -> ->. cbn [rbind]. apply Hlim.
Qed.

Lemma is_bytesb_sound l : is_bytesb l = true -> is_bytes l.
Proof.
  unfold is_bytesb, is_bytes. rewrite forallb_forall, Forall_forall.
  intros Hl x Hx. specialize (Hl x Hx). apply andb_true_iff in Hl. lia.
Qed.

Lemma verify_skips_parameter_checks_witness :
  len Samples.unchecked = 96 /\ is_bytes Samples.unchecked /\
  slice 48 16 Samples.unchecked
  = take 16 (@SHA256_Buf Demo.fast (take 48 Samples.unchecked)) /\
  scrypt_calls (fst (@Wrapper.Verify Demo.fast Samples.unchecked Demo.passwd
                       (Demo.blank 0)))
  = [(Demo.passwd, Demo.ramp 32 0, 1, 65536, 65536, 64)] /\
  @checkparams Demo.fast 0 half Demo.one_second 0 65536 65536 = Err 7.
Proof.
  assert (Hlen : len Samples.unchecked = 96) by (vm_compute; reflexivity).
  assert (Hbytes : is_bytes Samples.unchecked)
    by (apply is_bytesb_sound; vm_compute; reflexivity).
  assert (Hsum : slice 48 16 Samples.unchecked
                 = take 16 (@SHA256_Buf Demo.fast (take 48 Samples.unchecked)))
    by (vm_compute; reflexivity).
  assert (Hshift : at_ 7 Samples.unchecked <= 63) by (vm_compute; discriminate).
  destruct (@verify_skips_parameter_checks Demo.fast Samples.unchecked Demo.passwd
              (Demo.blank 0) Hlen Hbytes Hsum) as (Hcalls & _ & _ & Hrange).
  split; [exact Hlen|]. split; [exact Hbytes|]. split; [exact Hsum|].
  split; [exact (Hcalls Hshift)|].
  refine (proj2 (Hrange _ 0 half Demo.one_second) 1048576 (of_Z 1000000) _ _).
  - left. vm_compute. reflexivity.
  - vm_compute. reflexivity.
  - reflexivity.
Defined.


(** ** Parameter choice on concrete budgets *)

(** C3, counterexample: with a memory budget of 1,048,576 bytes, a
    million operations per second and 0.1 second, the operations budget
    is 100000, which is not below 1048576/32 = 32768: the compute-bound
    branch is not taken and the result is not logN = 11, p = 1. *)
Lemma scenario_is_not_compute_bound :
  mul Demo.million Demo.tenth = of_Z 100000 /\
  ltb (of_Z 100000) (of_Z (1048576 / 32)) = false /\
  pickparams_limits 1048576 Demo.million Demo.tenth <> Ok (11, 8, 1).
Proof. vm_compute. repeat split; discriminate. Qed.

(** C3 (amended): on that scenario the operations budget is 100000, the
    memory-bound branch is taken, and the choice is logN = 10 (N = 1024,
    the largest power of two with 128 * N * 8 <= 1048576), r = 8 and
    p = 3 (100000 / (4 * 1024) = 24 in whole units, divided by 8), in
    pickparams.c and in scryptenc.c alike. *)
Theorem scenario_parameters :
  Util.memtouse 1048576 half (2 ^ 33) = Ok 1048576 /\
  mul Demo.million Demo.tenth = of_Z 100000 /\
  ltb (of_Z 100000) (of_Z 32768) = false /\
  ltb (of_Z 100000) (of_Z (1048576 / 32)) = false /\
  pickparams_limits 1048576 Demo.million Demo.tenth = Ok (10, 8, 3) /\
  @Wrapper.pickparams Demo.fast Demo.tenth 1048576 half (2 ^ 33) = Ok (10, 8, 3) /\
  @pickparams Demo.fast 1048576 half Demo.tenth = Ok (10, 8, 3) /\
  128 * 2 ^ 10 * 8 <= 1048576 < 128 * 2 ^ 11 * 8 /\
  100000 / (4 * 2 ^ 10) / 8 = 3.
Proof. vm_compute. repeat split; discriminate. Qed.

(** C4, counterexample: a million operations per second and a time
    budget of 0 seconds.  [pickparams] raises the operations budget to
    32768 and returns logN = 10, r = 8, p = 1; [checkparams], given the
    same budgets, has 0 operations to spend and returns 10. *)
Lemma pickparams_choice_fails_checkparams :
  @pickparams Demo.fast 0 half (of_Z 0) = Ok (10, 8, 1) /\
  @checkparams Demo.fast 0 half (of_Z 0) 10 8 1 = Err 10.
Proof. vm_compute. split; reflexivity. Qed.

(** ** Binary64 arithmetic *)

Lemma digits2_pos_bounds (m : positive) :
  2 ^ (Zpos (digits2_pos m) - 1) <= Zpos m < 2 ^ Zpos (digits2_pos m).
Proof.
  induction m as [m IH|m IH|]; cbn [digits2_pos].
  - rewrite Pos2Z.inj_succ.
    replace (Z.succ (Zpos (digits2_pos m)) - 1) with ((Zpos (digits2_pos m) - 1) + 1) by lia.
    rewrite Z.pow_succ_r by lia. rewrite Z.pow_add_r by lia.
    change (2 ^ 1) with 2. lia.
  - rewrite Pos2Z.inj_succ.
    replace (Z.succ (Zpos (digits2_pos m)) - 1) with ((Zpos (digits2_pos m) - 1) + 1) by lia.
    rewrite Z.pow_succ_r by lia. rewrite Z.pow_add_r by lia.
    change (2 ^ 1) with 2. lia.
  - cbn. lia.
Qed.

Lemma digits2_pos_unique (m : positive) (d : Z) :
  2 ^ (d - 1) <= Zpos m < 2 ^ d -> Zpos (digits2_pos m) = d.
Proof.
  intros [Hlo Hhi]. pose proof (digits2_pos_bounds m) as [Hlo' Hhi'].
  assert (0 < d).
  { destruct (Z_lt_le_dec 0 d); [assumption|].
    assert (2 ^ d <= 2 ^ 0) by (apply Z.pow_le_mono_r; lia).
    change (2 ^ 0) with 1 in *. lia. }
  destruct (Z_lt_ge_dec (Zpos (digits2_pos m)) d) as [Hlt|Hge].
  - assert (2 ^ Zpos (digits2_pos m) <= 2 ^ (d - 1)) by (apply Z.pow_le_mono_r; lia).
    lia.
  - destruct (Z_lt_ge_dec d (Zpos (digits2_pos m))) as [Hlt'|Hge']; [|lia].
    assert (2 ^ d <= 2 ^ (Zpos (digits2_pos m) - 1)) by (apply Z.pow_le_mono_r; lia).
    lia.
Qed.

Lemma normal_digits m : normal_mantissa m -> digits2_pos m = 53%positive.
Proof.
  intros Hm. apply Pos2Z.inj. apply digits2_pos_unique. exact Hm.
Qed.

Lemma fexp_normal (e : Z) : -1021 <= e -> fexp prec emax e = e - 53.
Proof. unfold fexp, emin, prec, emax. lia. Qed.

Lemma round_finish_normal (m : positive) (e : Z) (l : location) :
  normal_mantissa m -> -1074 <= e <= 970 ->
  exists mz ez,
    round_finish (Zpos m) l e = S754_finite false mz ez /\
    normal_mantissa mz /\ (ez = e \/ ez = e + 1 /\ Zpos mz = 2 ^ 52) /\
    (l = loc_Exact -> mz = m /\ ez = e).
Proof.
  intros Hm He. unfold round_finish, shr_fexp.
  assert (Hround : round_nearest_even (Zpos m) l = Zpos m
                   \/ round_nearest_even (Zpos m) l = Zpos m + 1).
  { destruct l as [|[]]; cbn [round_nearest_even]; try (left; reflexivity).
    - destruct (Z.even (Zpos m)); [left|right]; reflexivity.
    - right; reflexivity. }
  pose proof Hm as Hm'. unfold normal_mantissa in Hm'.
  destruct Hround as [Hr|Hr]; rewrite Hr.
  - cbn [Zdigits2]. rewrite (normal_digits m Hm).
    rewrite fexp_normal by lia.
    replace (53 + e - 53 - e) with 0 by lia. cbn [shr shr_m shr_record_of_loc].
    replace (e <=? emax - prec) with true
      by (symmetry; apply Z.leb_le; unfold emax, prec; lia).
    exists m, e. repeat split; try assumption; try lia; auto.
  - destruct (Z.eq_dec (Zpos m + 1) (2 ^ 53)) as [Hover|Hfits].
    + rewrite Hover. change (2 ^ 53) with (Zpos (2 ^ 53)%positive).
      cbn [Zdigits2]. change (Zpos (digits2_pos (2 ^ 53))) with 54.
      rewrite fexp_normal by lia.
      replace (54 + e - 53 - e) with 1 by lia.
      cbn -[Z.leb emax prec Z.add].
      replace (e + 1 <=? emax - prec) with true
        by (symmetry; apply Z.leb_le; unfold emax, prec; lia).
      eexists _, (e + 1). split; [reflexivity|].
      split; [unfold normal_mantissa; cbn; lia|].
      split; [right; split; reflexivity|].
      intros ->. cbn [round_nearest_even] in Hr. lia.
    + assert (Hpos : Zpos m + 1 = Zpos (m + 1)) by lia.
      rewrite Hpos. cbn [Zdigits2].
      assert (Hm1 : normal_mantissa (m + 1)) by (unfold normal_mantissa; lia).
      rewrite (normal_digits _ Hm1). rewrite fexp_normal by lia.
      replace (53 + e - 53 - e) with 0 by lia. cbn [shr shr_m shr_record_of_loc].
      replace (e <=? emax - prec) with true
        by (symmetry; apply Z.leb_le; unfold emax, prec; lia).
      exists (m + 1)%positive, e. split; [reflexivity|].
      split; [assumption|]. split; [left; reflexivity|].
      intros ->. cbn [round_nearest_even] in Hr. lia.
Qed.

Lemma binary_round_aux_finish (mx ex : Z) (lx : location) :
  binary_round_aux prec emax false mx ex lx =
  round_finish (shr_m (fst (shr_fexp prec emax mx ex lx)))
    (loc_of_shr_record (fst (shr_fexp prec emax mx ex lx)))
    (snd (shr_fexp prec emax mx ex lx)).
Proof.
  unfold binary_round_aux, round_finish.
  destruct (shr_fexp prec emax mx ex lx) as [mrs' e']. reflexivity.
Qed.

(** Rounding a mantissa of 53 bits. *)
Lemma binary_round_aux_53 (m : positive) (e : Z) (l : location) :
  normal_mantissa m -> -1074 <= e <= 970 ->
  exists mz ez,
    binary_round_aux prec emax false (Zpos m) e l = S754_finite false mz ez /\
    normal_mantissa mz /\ (ez = e \/ ez = e + 1 /\ Zpos mz = 2 ^ 52) /\
    (l = loc_Exact -> mz = m /\ ez = e).
Proof.
  intros Hm He. rewrite binary_round_aux_finish. unfold shr_fexp.
  cbn [Zdigits2]. rewrite (normal_digits m Hm).
  rewrite fexp_normal by lia.
  replace (53 + e - 53 - e) with 0 by lia. cbn [shr fst snd].
  assert (Hloc : loc_of_shr_record (shr_record_of_loc (Zpos m) l) = l)
    by (destruct l as [|[]]; reflexivity).
  assert (Hshr_m : shr_m (shr_record_of_loc (Zpos m) l) = Zpos m)
    by (destruct l as [|[]]; reflexivity).
  rewrite Hloc, Hshr_m. apply round_finish_normal; assumption.
Qed.

(** Rounding a mantissa of 54 bits. *)
Lemma binary_round_aux_54 (m : positive) (e : Z) (l : location) :
  2 ^ 53 <= Zpos m < 2 ^ 54 -> -1074 <= e <= 968 ->
  exists mz ez,
    binary_round_aux prec emax false (Zpos m) e l = S754_finite false mz ez /\
    normal_mantissa mz /\ (ez = e + 1 \/ ez = e + 2) /\
    (l = loc_Exact -> forall h, m = (h~0)%positive -> mz = h /\ ez = e + 1).
Proof.
  intros Hm He. rewrite binary_round_aux_finish. unfold shr_fexp.
  cbn [Zdigits2].
  assert (Hd : Zpos (digits2_pos m) = 54) by (apply digits2_pos_unique; exact Hm).
  rewrite Hd. rewrite fexp_normal by lia.
  replace (54 + e - 53 - e) with 1 by lia. cbn [shr iter_pos fst snd].
  destruct m as [h|h|].
  - (* odd *)
    assert (Hh : normal_mantissa h).
    { unfold normal_mantissa. change (2 ^ 53) with (2 * 2 ^ 52) in Hm.
      change (2 ^ 54) with (2 * 2 ^ 53) in Hm. lia. }
    assert (Hs : shr_m (shr_1 (shr_record_of_loc (Zpos h~1) l)) = Zpos h)
      by (destruct l as [|[]]; reflexivity).
    rewrite Hs.
    destruct (round_finish_normal h (e + 1)
                (loc_of_shr_record (shr_1 (shr_record_of_loc (Zpos h~1) l))) Hh)
      as (mz & ez & Hrun & Hmz & Hez & _); [lia|].
    exists mz, ez. split; [exact Hrun|]. split; [exact Hmz|].
    split; [lia|]. intros _ h' Heq. discriminate.
  - (* even *)
    assert (Hh : normal_mantissa h).
    { unfold normal_mantissa. change (2 ^ 53) with (2 * 2 ^ 52) in Hm.
      change (2 ^ 54) with (2 * 2 ^ 53) in Hm. lia. }
    assert (Hs : shr_m (shr_1 (shr_record_of_loc (Zpos h~0) l)) = Zpos h)
      by (destruct l as [|[]]; reflexivity).
    rewrite Hs.
    destruct (round_finish_normal h (e + 1)
                (loc_of_shr_record (shr_1 (shr_record_of_loc (Zpos h~0) l))) Hh)
      as (mz & ez & Hrun & Hmz & Hez & Hexact); [lia|].
    exists mz, ez. split; [exact Hrun|]. split; [exact Hmz|].
    split; [lia|]. intros -> h' [= <-].
    apply Hexact. reflexivity.
  - change (2 ^ 53) with 9007199254740992 in Hm. lia.
Qed.

(** The quotient of two positive normal doubles, before rounding. *)
Lemma div_normal (m1 m2 : positive) (e1 e2 : Z) :
  normal_mantissa m1 -> normal_mantissa m2 -> -1021 <= e1 - e2 ->
  div (S754_finite false m1 e1) (S754_finite false m2 e2)
  = binary_round_aux prec emax false (Zpos m1 * 2 ^ 53 / Zpos m2) (e1 - e2 - 53)
      (new_location (Zpos m2) (Zpos m1 * 2 ^ 53 mod Zpos m2)).
Proof.
  intros H1 H2 He. unfold div, SFdiv, SFdiv_core_binary. cbn [xorb Zdigits2].
  rewrite (normal_digits _ H1), (normal_digits _ H2).
  replace (53 + e1 - (53 + e2)) with (e1 - e2) by lia.
  rewrite fexp_normal by lia.
  replace (Z.min (e1 - e2 - 53) (e1 - e2)) with (e1 - e2 - 53) by lia.
  replace (e1 - e2 - (e1 - e2 - 53)) with 53 by lia.
  rewrite Z.shiftl_mul_pow2 by lia.
  unfold Z.div, Z.modulo.
  destruct (Z.div_eucl (Zpos m1 * 2 ^ 53) (Zpos m2)) as [q r]. reflexivity.
Qed.

(** Division by a power of two is exact. *)
Lemma div_pow2 (m : positive) (e k : Z) :
  normal_mantissa m -> -1021 <= e - k + 52 -> e - k <= 969 ->
  div (S754_finite false m e) (S754_finite false (2 ^ 52) (k - 52))
  = S754_finite false m (e - k).
Proof.
  intros Hm Hlo Hhi.
  rewrite div_normal; [|assumption|unfold normal_mantissa; cbn; lia|lia].
  change (Zpos (2 ^ 52)) with (2 ^ 52).
  replace (Zpos m * 2 ^ 53) with ((Zpos m * 2) * 2 ^ 52)
    by (change (2 ^ 53) with (2 * 2 ^ 52); lia).
  rewrite Z.div_mul, Z.mod_mul by lia.
  change (new_location (2 ^ 52) 0) with loc_Exact.
  replace (Zpos m * 2) with (Zpos m~0) by lia.
  unfold normal_mantissa in Hm.
  destruct (binary_round_aux_54 (m~0) (e - (k - 52) - 53) loc_Exact)
    as (mz & ez & Hrun & _ & _ & Hexact).
  { change (2 ^ 53) with (2 * 2 ^ 52). change (2 ^ 54) with (2 * 2 ^ 53). lia. }
  { lia. }
  rewrite Hrun. destruct (Hexact eq_refl m eq_refl) as [-> ->]. f_equal. lia.
Qed.

(** ** Conversions of integers *)

Lemma pos_iter_xO (p n : positive) : Zpos (Pos.iter xO p n) = Zpos p * 2 ^ Zpos n.
Proof.
  induction n as [|n IH] using Pos.peano_ind.
  - cbn [Pos.iter]. change (2 ^ 1) with 2. lia.
  - rewrite Pos.iter_succ, Pos2Z.inj_succ, Z.pow_succ_r by lia.
    rewrite Pos2Z.inj_xO, IH. lia.
Qed.

Lemma shr_1_m (r : shr_record) : 0 <= shr_m r -> shr_m (shr_1 r) = shr_m r / 2.
Proof.
  destruct r as [m rb sb]. cbn [shr_m]. intros Hm.
  destruct m as [|[p|p|]|p]; cbn [shr_1 shr_m]; try lia.
  - reflexivity.
  - apply Z.div_unique with (r := 1); lia.
  - apply Z.div_unique with (r := 0); lia.
  - reflexivity.
Qed.

Lemma iter_shr_1_m (n : positive) :
  forall r, 0 <= shr_m r ->
            shr_m (iter_pos shr_1 n r) = shr_m r / 2 ^ Zpos n.
Proof.
  induction n as [n IH|n IH|]; intros r Hr; cbn [iter_pos].
  - assert (H1 : 0 <= shr_m (shr_1 r))
      by (rewrite shr_1_m by assumption; apply Z.div_pos; lia).
    assert (H2 : 0 <= shr_m (iter_pos shr_1 n (shr_1 r)))
      by (rewrite IH by assumption; apply Z.div_pos; lia).
    rewrite IH, IH, shr_1_m by assumption.
    rewrite !Z.div_div by lia. f_equal.
    replace (Zpos n~1) with (1 + Zpos n + Zpos n) by lia.
    rewrite !Z.pow_add_r by lia. change (2 ^ 1) with 2. lia.
  - assert (H2 : 0 <= shr_m (iter_pos shr_1 n r))
      by (rewrite IH by assumption; apply Z.div_pos; lia).
    rewrite IH, IH by assumption.
    rewrite !Z.div_div by lia. f_equal.
    replace (Zpos n~0) with (Zpos n + Zpos n) by lia.
    rewrite !Z.pow_add_r by lia. lia.
  - rewrite shr_1_m by assumption. reflexivity.
Qed.

(** The double of a positive integer below 2^1000: a normal mantissa, and
    an exponent that puts it at the integer's magnitude or, when rounding
    carries, at the next power of two. *)
Lemma of_Z_shape (z : positive) :
  Zpos z < 2 ^ 1000 ->
  let d := Zpos (digits2_pos z) in
  exists mz ez,
    of_Z (Zpos z) = S754_finite false mz ez /\
    normal_mantissa mz /\
    (ez = d - 53 \/ ez = d - 52 /\ Zpos mz = 2 ^ 52) /\
    (d <= 53 -> Zpos mz = Zpos z * 2 ^ (53 - d) /\ ez = d - 53).
Proof.
  intros Hz. cbv zeta. set (d := Zpos (digits2_pos z)).
  pose proof (digits2_pos_bounds z) as Hd. fold d in Hd.
  assert (Hd1 : 1 <= d) by (unfold d; lia).
  assert (Hd2 : d <= 1000).
  { destruct (Z_le_gt_dec d 1000); [assumption|].
    assert (2 ^ 1000 <= 2 ^ (d - 1)) by (apply Z.pow_le_mono_r; lia). lia. }
  unfold of_Z, binary_normalize, binary_round, shl_align.
  fold d. rewrite Z.add_0_r. rewrite fexp_normal by lia.
  destruct (d - 53 - 0) as [|n|n] eqn:En.
  - (* 53 bits *)
    assert (Hm : normal_mantissa z).
    { unfold normal_mantissa. replace 53 with d by lia.
      replace 52 with (d - 1) by lia. exact Hd. }
    destruct (binary_round_aux_53 z 0 loc_Exact Hm) as (mz & ez & Hrun & Hmz & _ & Hex);
      [lia|].
    destruct (Hex eq_refl) as [-> ->].
    exists z, 0. split; [exact Hrun|]. split; [exact Hm|].
    split; [left; lia|]. intros _. replace (53 - d) with 0 by lia.
    change (2 ^ 0) with 1. lia.
  - (* more than 53 bits: rounding *)
    rewrite binary_round_aux_finish. unfold shr_fexp. cbn [Zdigits2]. fold d.
    rewrite fexp_normal by lia.
    replace (d + 0 - 53 - 0) with (Zpos n) by lia. cbn [shr fst snd].
    set (m1 := shr_m (iter_pos shr_1 n (shr_record_of_loc (Zpos z) loc_Exact))).
    assert (Hm1 : m1 = Zpos z / 2 ^ Zpos n)
      by (unfold m1; rewrite iter_shr_1_m; [reflexivity|cbn; lia]).
    assert (Hm1n : 2 ^ 52 <= m1 < 2 ^ 53).
    { rewrite Hm1. replace d with (53 + Zpos n) in Hd by lia.
      replace (53 + Zpos n - 1) with (52 + Zpos n) in Hd by lia.
      rewrite !Z.pow_add_r in Hd by lia.
      split.
      - apply Z.div_le_lower_bound; lia.
      - apply Z.div_lt_upper_bound; lia. }
    destruct m1 as [|q|q] eqn:Eq; try lia.
    destruct (round_finish_normal q (0 + Zpos n)
                (loc_of_shr_record
                   (iter_pos shr_1 n (shr_record_of_loc (Zpos z) loc_Exact))))
      as (mz & ez & Hrun & Hmz & Hez & _); [exact Hm1n|lia|].
    exists mz, ez. split; [exact Hrun|]. split; [exact Hmz|].
    split; [lia|]. lia.
  - (* fewer than 53 bits: exact *)
    assert (Hm : normal_mantissa (Pos.iter xO z n)).
    { unfold normal_mantissa. rewrite pos_iter_xO.
      replace 53 with (d + Zpos n) by lia. replace 52 with (d - 1 + Zpos n) by lia.
      rewrite !Z.pow_add_r by lia. nia. }
    destruct (binary_round_aux_53 _ (d - 53) loc_Exact Hm)
      as (mz & ez & Hrun & Hmz & _ & Hex); [lia|].
    destruct (Hex eq_refl) as [-> ->].
    eexists _, (d - 53). split; [exact Hrun|]. split; [exact Hm|].
    split; [left; reflexivity|]. intros _. rewrite pos_iter_xO.
    split; [|reflexivity]. do 2 f_equal. lia.
Qed.

(** Rounding a 53-bit mantissa below [2^53 - 1] keeps the exponent. *)
Lemma round_finish_no_carry (m : positive) (e : Z) (l : location) :
  normal_mantissa m -> Zpos m + 1 < 2 ^ 53 -> -1074 <= e <= 970 ->
  exists mz, round_finish (Zpos m) l e = S754_finite false mz e /\ normal_mantissa mz.
Proof.
  intros Hm Hcarry He.
  destruct (round_finish_normal m e l Hm He) as (mz & ez & Hrun & Hmz & Hez & _).
  assert (Hround : round_nearest_even (Zpos m) l = Zpos m
                   \/ round_nearest_even (Zpos m) l = Zpos m + 1).
  { destruct l as [|[]]; cbn [round_nearest_even]; try (left; reflexivity).
    - destruct (Z.even (Zpos m)); [left|right]; reflexivity.
    - right; reflexivity. }
  assert (Hshape : exists q, round_nearest_even (Zpos m) l = Zpos q /\ normal_mantissa q).
  { destruct Hround as [Hr|Hr].
    - exists m. split; assumption.
    - exists (m + 1)%positive. split; [rewrite Hr; lia|].
      unfold normal_mantissa in *. lia. }
  destruct Hshape as (q & Hq & Hqn).
  exists q. split; [|assumption].
  unfold round_finish, shr_fexp. rewrite Hq. cbn [Zdigits2].
  rewrite (normal_digits q Hqn). rewrite fexp_normal by lia.
  replace (53 + e - 53 - e) with 0 by lia. cbn [shr shr_m shr_record_of_loc].
  replace (e <=? emax - prec) with true
    by (symmetry; apply Z.leb_le; unfold emax, prec; lia).
  reflexivity.
Qed.

(** Rounding an integer of 54 bits below [2^54 - 1]. *)
Lemma binary_round_aux_54_no_carry (m : positive) (e : Z) :
  2 ^ 53 <= Zpos m < 2 ^ 54 - 1 -> -1074 <= e <= 968 ->
  exists mz,
    binary_round_aux prec emax false (Zpos m) e loc_Exact = S754_finite false mz (e + 1) /\
    normal_mantissa mz.
Proof.
  intros Hm He.
  destruct m as [h|h|].
  - (* odd *)
    rewrite binary_round_aux_finish. unfold shr_fexp. cbn [Zdigits2].
    assert (Hd : Zpos (digits2_pos h~1) = 54) by (apply digits2_pos_unique; lia).
    rewrite Hd. rewrite fexp_normal by lia.
    replace (54 + e - 53 - e) with 1 by lia. cbn [shr iter_pos fst snd].
    change (2 ^ 53) with (2 * 2 ^ 52) in Hm. change (2 ^ 54) with (2 * (2 * 2 ^ 52)) in Hm.
    assert (Hh : normal_mantissa h).
    { unfold normal_mantissa. change (2 ^ 53) with (2 * 2 ^ 52). lia. }
    change (shr_m (shr_1 (shr_record_of_loc (Zpos h~1) loc_Exact))) with (Zpos h).
    apply round_finish_no_carry; try assumption; lia.
  - (* even *)
    destruct (binary_round_aux_54 h~0 e loc_Exact ltac:(lia) He)
      as (mz & ez & Hrun & Hmz & _ & Hexact).
    destruct (Hexact eq_refl h eq_refl) as [-> ->].
    exists h. split; assumption.
  - change (2 ^ 53) with 9007199254740992 in Hm. lia.
Qed.

Lemma of_Z_54 (z : positive) :
  2 ^ 53 <= Zpos z < 2 ^ 54 - 1 ->
  exists mz, of_Z (Zpos z) = S754_finite false mz 1 /\ normal_mantissa mz.
Proof.
  intros Hz.
  assert (Hd : Zpos (digits2_pos z) = 54) by (apply digits2_pos_unique; lia).
  unfold of_Z, binary_normalize, binary_round, shl_align.
  rewrite Hd, Z.add_0_r. rewrite fexp_normal by lia.
  change (54 - 53 - 0) with 1. cbv iota.
  apply (binary_round_aux_54_no_carry z 0); [assumption | lia].
Qed.

(** The doubles of the powers of two that [N] ranges over. *)
Lemma of_Z_small_pow2 (k : Z) :
  0 <= k <= 63 -> of_Z (2 ^ k) = S754_finite false (2 ^ 52) (k - 52).
Proof.
  intros Hl. rewrite <- (Z2Nat.id k) by lia.
  assert (Hn : (Z.to_nat k < 64)%nat) by lia.
  generalize dependent (Z.to_nat k). clear. intros n Hn.
  do 64 (destruct n as [|n]; [vm_compute; reflexivity|]). lia.
Qed.

(** ** Comparisons *)

Lemma ltb_finite (m1 m2 : positive) (e1 e2 : Z) :
  ltb (S754_finite false m1 e1) (S754_finite false m2 e2) = true
  <-> e1 < e2 \/ e1 = e2 /\ Zpos m1 < Zpos m2.
Proof.
  unfold ltb, SFltb, SFcompare.
  destruct (Z.compare_spec e1 e2) as [He|He|He].
  - rewrite Pos.compare_cont_spec. cbn [Pos.switch_Eq].
    destruct (Pos.compare_spec m1 m2) as [Hm|Hm|Hm]; split; intros Hx;
      try discriminate; try reflexivity; try lia.
  - split; intros; [lia|reflexivity].
  - split; intros Hx; [discriminate|lia].
Qed.

Lemma ltb_finite_false (m1 m2 : positive) (e1 e2 : Z) :
  ltb (S754_finite false m1 e1) (S754_finite false m2 e2) = false
  <-> e2 < e1 \/ e1 = e2 /\ Zpos m2 <= Zpos m1.
Proof.
  pose proof (ltb_finite m1 m2 e1 e2) as Hlt.
  destruct (ltb _ _); split; intros Hx; try discriminate; try reflexivity.
  - destruct Hlt as [Hlt _]. specialize (Hlt eq_refl). lia.
  - destruct (Z_lt_le_dec e2 e1); [left; assumption|].
    destruct (Z.eq_dec e1 e2) as [He|He].
    + right. split; [assumption|].
      destruct (Z_lt_le_dec (Zpos m1) (Zpos m2)); [|assumption].
      destruct Hlt as [_ Hlt]. assert (false = true) by (apply Hlt; lia). discriminate.
    + destruct Hlt as [_ Hlt]. assert (false = true) by (apply Hlt; lia). discriminate.
Qed.

(** ** The scan for logN *)

Lemma scan_logN_spec (maxN : double) (mh : positive) (eh : Z) :
  div maxN (of_Z 2) = S754_finite false mh eh -> normal_mantissa mh ->
  forall fuel logN,
    1 <= logN <= 63 -> 63 - logN <= Z.of_nat fuel ->
    scan_logN fuel logN maxN = Ok (Z.max logN (Z.min 63 (eh + 53))).
Proof.
  intros Hhalf Hmh. induction fuel as [|fuel IH]; intros logN Hl Hfuel.
  - cbn [scan_logN]. f_equal. lia.
  - cbn [scan_logN]. destruct (logN <? 63) eqn:E63.
    + apply Z.ltb_lt in E63. rewrite shl64_pow2 by lia.
      rewrite Hhalf, of_Z_small_pow2 by lia.
      unfold gtb. fold (ltb (S754_finite false mh eh)
                            (S754_finite false (2 ^ 52) (logN - 52))).
      destruct (ltb _ _) eqn:Elt.
      * apply ltb_finite in Elt. unfold normal_mantissa in Hmh.
        change (Zpos (2 ^ 52)) with (2 ^ 52) in Elt. f_equal. lia.
      * apply ltb_finite_false in Elt. rewrite IH by lia.
        unfold normal_mantissa in Hmh. f_equal. lia.
    + apply Z.ltb_ge in E63. f_equal. lia.
Qed.

Lemma pickparams_limits_pick_from memlimit opps maxtime :
  pickparams_limits memlimit opps maxtime
  = pick_from memlimit (floored (mul opps maxtime)).
Proof. reflexivity. Qed.

(** Division of a normal double by [2^k], [k] small. *)
Lemma div_by_pow2 (m : positive) (e k : Z) :
  normal_mantissa m -> 0 <= k <= 63 -> -1000 <= e -> e - k <= 969 ->
  div (S754_finite false m e) (of_Z (2 ^ k)) = S754_finite false m (e - k).
Proof.
  intros Hm Hk Hlo Hhi. rewrite of_Z_small_pow2 by lia.
  apply div_pow2; try assumption; lia.
Qed.

Lemma digits_lt_pow2 (z : positive) (k : Z) :
  Zpos z < 2 ^ k -> Zpos (digits2_pos z) <= k.
Proof.
  intros Hz. pose proof (digits2_pos_bounds z) as [Hlo _].
  destruct (Z_le_gt_dec (Zpos (digits2_pos z)) k); [assumption|].
  assert (2 ^ k <= 2 ^ (Zpos (digits2_pos z) - 1)) by (apply Z.pow_le_mono_r; lia).
  lia.
Qed.

Lemma digits_ge_pow2 (z : positive) (k : Z) :
  2 ^ k <= Zpos z -> k + 1 <= Zpos (digits2_pos z).
Proof.
  intros Hz. pose proof (digits2_pos_bounds z) as [_ Hhi].
  destruct (Z_le_gt_dec (k + 1) (Zpos (digits2_pos z))); [assumption|].
  assert (2 ^ Zpos (digits2_pos z) <= 2 ^ k) by (apply Z.pow_le_mono_r; lia).
  lia.
Qed.

(** A double below the double of an integer is below the integer, as far
    as powers of two tell. *)
Lemma ltb_of_Z_pow2 (m : positive) (e : Z) (z : positive) :
  normal_mantissa m -> Zpos z < 2 ^ 1000 -> -52 <= e ->
  ltb (S754_finite false m e) (of_Z (Zpos z)) = true ->
  2 ^ (e + 52) <= Zpos z.
Proof.
  intros Hm Hz He Hlt.
  destruct (of_Z_shape z Hz) as (mz & ez & Hof & Hmz & Hez & _).
  rewrite Hof in Hlt. apply ltb_finite in Hlt.
  destruct (Z_le_gt_dec (2 ^ (e + 52)) (Zpos z)) as [|Hsmall]; [assumption|].
  apply Z.gt_lt in Hsmall. apply digits_lt_pow2 in Hsmall.
  unfold normal_mantissa in Hm, Hmz. lia.
Qed.

Lemma pow2_split (a b : Z) : 0 <= a -> 0 <= b -> 2 ^ (a + b) = 2 ^ a * 2 ^ b.
Proof. intros. apply Z.pow_add_r; assumption. Qed.

(** The compute-bound branch of [pickparams]. *)
Lemma pick_compute_bound (memlimit : Z) (m : positive) (e : Z) :
  1048576 <= memlimit < 2 ^ 64 - 1024 -> normal_mantissa m -> -37 <= e <= 971 ->
  ltb (S754_finite false m e) (of_Z (memlimit / 32)) = true ->
  scan_logN 62 1 (div (S754_finite false m e) (of_Z (u32 (8 * 4))))
  = Ok (e + 47) /\ e <= 6 /\ 1024 * 2 ^ (e + 47) <= memlimit.
Proof.
  intros Hmem Hm He Hlt.
  assert (HM : 32768 <= memlimit / 32 < 2 ^ 59).
  { split.
    - apply Z.div_le_lower_bound; lia.
    - apply Z.div_lt_upper_bound; [lia|]. change (32 * 2 ^ 59) with (2 ^ 64). lia. }
  destruct (memlimit / 32) as [|M|M] eqn:EM; try lia.
  assert (Hpow : 2 ^ (e + 52) <= Zpos M).
  { apply (ltb_of_Z_pow2 m e M); try assumption; lia. }
  assert (He6 : e <= 6).
  { destruct (Z_le_gt_dec e 6); [assumption|].
    assert (2 ^ 59 <= 2 ^ (e + 52)) by (apply Z.pow_le_mono_r; lia). lia. }
  split.
  { change (u32 (8 * 4)) with (2 ^ 5).
    rewrite div_by_pow2 by (try assumption; lia).
    assert (Hhalf : div (S754_finite false m (e - 5)) (of_Z 2) = S754_finite false m (e - 5 - 1)).
    { change 2 with (2 ^ 1) at 1. apply div_by_pow2; try assumption; lia. }
    rewrite (scan_logN_spec _ m (e - 5 - 1) Hhalf Hm 62%nat 1) by (simpl; lia).
    f_equal. lia. }
  split; [assumption|].
  replace (e + 47) with ((e + 52) + (-5)) by lia.
  assert (memlimit / 32 * 32 <= memlimit).
  { pose proof (Z.mul_div_le memlimit 32). lia. }
  assert (E : 2 ^ (e + 52) = 2 ^ (e + 52 + -5) * 2 ^ 5).
  { rewrite <- Z.pow_add_r by lia. f_equal. lia. }
  change (2 ^ 5) with 32 in E. lia.
Qed.

Lemma ltb_four (m : positive) (e : Z) :
  normal_mantissa m -> -50 <= e ->
  ltb (S754_finite false m e) (of_Z 4) = false.
Proof.
  intros Hm He. change (of_Z 4) with (S754_finite false (2 ^ 52) (-50)).
  apply ltb_finite_false. unfold normal_mantissa in Hm.
  change (Zpos (2 ^ 52)) with (2 ^ 52). lia.
Qed.

Lemma check_compute_bound (m : positive) (e : Z) :
  normal_mantissa m -> -37 <= e <= 6 ->
  ltb (div (div (S754_finite false m e) (of_Z (2 ^ (e + 47)))) (of_Z (u32 (8 * 1))))
      (of_Z 4) = false.
Proof.
  intros Hm He.
  rewrite div_by_pow2 by (try assumption; lia).
  change (u32 (8 * 1)) with (2 ^ 3).
  rewrite div_by_pow2 by (try assumption; lia).
  apply ltb_four; [assumption | lia].
Qed.

(** The integral part of a normal double. *)
Lemma shiftl_le_pow2 (m : positive) (u k : Z) :
  normal_mantissa m -> 0 <= k -> u + 53 <= k -> Z.shiftl (Zpos m) u < 2 ^ k.
Proof.
  intros Hm Hk Hu. unfold normal_mantissa in Hm.
  destruct (Z_le_gt_dec 0 u) as [Hpos|Hneg].
  - rewrite Z.shiftl_mul_pow2 by assumption.
    replace k with (53 + u + (k - 53 - u)) by lia.
    rewrite !Z.pow_add_r by lia.
    assert (0 < 2 ^ u) by (apply Z.pow_pos_nonneg; lia).
    assert (1 <= 2 ^ (k - 53 - u)) by (apply (Z.pow_le_mono_r 2 0); lia).
    nia.
  - rewrite Z.shiftl_div_pow2 by lia.
    apply Z.div_lt_upper_bound; [apply Z.pow_pos_nonneg; lia|].
    rewrite <- Z.pow_add_r by lia.
    assert (2 ^ 53 <= 2 ^ (- u + k)) by (apply Z.pow_le_mono_r; lia).
    lia.
Qed.

Lemma shiftl_small (m : positive) (u d : Z) :
  normal_mantissa m -> 1 <= d <= 53 -> u <= d - 54 ->
  Z.shiftl (Zpos m) u < 2 ^ (d - 1).
Proof.
  intros Hm Hd Hu. apply shiftl_le_pow2; try assumption; lia.
Qed.

Lemma shiftl_scaled (m : positive) (u d : Z) :
  1 <= d <= 53 -> u <= d - 53 ->
  Z.shiftl (Zpos m) u * 2 ^ (53 - d) <= Zpos m.
Proof.
  intros Hd Hu.
  rewrite Z.shiftl_div_pow2 by lia.
  replace (- u) with ((53 - d) + (- u - (53 - d))) by lia.
  rewrite Z.pow_add_r by lia.
  assert (0 < 2 ^ (53 - d)) by (apply Z.pow_pos_nonneg; lia).
  assert (0 < 2 ^ (- u - (53 - d))) by (apply Z.pow_pos_nonneg; lia).
  set (a := 2 ^ (53 - d)) in *. set (b := 2 ^ (- u - (53 - d))) in *.
  assert (Zpos m / (a * b) * (a * b) <= Zpos m).
  { pose proof (Z.mul_div_le (Zpos m) (a * b)). nia. }
  assert (0 <= Zpos m / (a * b)) by (apply Z.div_pos; nia).
  nia.
Qed.

(** The processor-time check of [checkparams] on a quotient whose
    divisor is at most the integral part of a quarter of the dividend. *)
Lemma check_cpu (m : positive) (u q : Z) :
  normal_mantissa m -> -1000 <= u <= 960 ->
  0 <= q <= Z.shiftl (Zpos m) u -> q < 2 ^ 30 ->
  ltb (div (S754_finite false m (u + 2)) (of_Z q)) (of_Z 4) = false.
Proof.
  intros Hm Hu Hq Hq30.
  destruct q as [|qp|qp]; [reflexivity| |lia].
  pose proof (digits2_pos_bounds qp) as Hd.
  pose proof (digits_lt_pow2 qp 30 Hq30) as Hd30.
  assert (Hbig : Zpos qp < 2 ^ 1000) by lia.
  destruct (of_Z_shape qp Hbig) as (md & ed & Hof & Hmd & _ & Hexact).
  set (d := Zpos (digits2_pos qp)) in *.
  destruct Hexact as [Hmdv ->]; [lia|].
  rewrite Hof, div_normal by (try assumption; lia).
  set (l := new_location _ _). clearbody l.
  assert (Hd1 : 1 <= d) by (subst d; lia).
  assert (Hmm := Hm). assert (Hmmd := Hmd). unfold normal_mantissa in Hmm, Hmmd.
  assert (HQlo : 2 ^ 52 <= Zpos m * 2 ^ 53 / Zpos md).
  { apply Z.div_le_lower_bound; [lia|].
    change (2 ^ 53) with (2 ^ 52 * 2) in *. nia. }
  assert (HQhi : Zpos m * 2 ^ 53 / Zpos md < 2 ^ 54).
  { apply Z.div_lt_upper_bound; [lia|].
    change (2 ^ 54) with (2 * 2 ^ 53) in *. nia. }
  destruct (Zpos m * 2 ^ 53 / Zpos md) as [|Q|Q] eqn:EQ; try lia.
  destruct (Z_lt_ge_dec (Zpos Q) (2 ^ 53)) as [Hlt|Hge].
  - assert (Hu52 : d - 52 <= u).
    { destruct (Z_le_gt_dec (d - 52) u); [assumption|]. exfalso.
      assert (Hs := shiftl_scaled m u d ltac:(lia) ltac:(lia)).
      assert (0 < 2 ^ (53 - d)) by (apply Z.pow_pos_nonneg; lia).
      assert (Zpos md <= Zpos m) by nia.
      assert (2 ^ 53 <= Zpos m * 2 ^ 53 / Zpos md).
      { apply Z.div_le_lower_bound; [lia|]. nia. }
      lia. }
    destruct (binary_round_aux_53 Q (u + 2 - (d - 53) - 53) l)
      as (mz & ez & -> & Hmz & Hez & _).
    { unfold normal_mantissa. lia. }
    { lia. }
    apply ltb_four; [assumption | lia].
  - assert (Hu53 : d - 53 <= u).
    { destruct (Z_le_gt_dec (d - 53) u); [assumption|]. exfalso.
      assert (Hs := shiftl_small m u d Hm ltac:(lia) ltac:(lia)).
      lia. }
    destruct (binary_round_aux_54 Q (u + 2 - (d - 53) - 53) l)
      as (mz & ez & -> & Hmz & Hez & _).
    { lia. }
    { lia. }
    apply ltb_four; [assumption | lia].
Qed.

Lemma shiftl_ge_pow2 (m : positive) (u k : Z) :
  normal_mantissa m -> 0 <= k -> k <= u + 52 -> 2 ^ k <= Z.shiftl (Zpos m) u.
Proof.
  intros Hm Hk Hu. unfold normal_mantissa in Hm.
  destruct (Z_le_gt_dec 0 u) as [Hpos|Hneg].
  - rewrite Z.shiftl_mul_pow2 by assumption.
    assert (2 ^ k <= 2 ^ (52 + u)) by (apply Z.pow_le_mono_r; lia).
    rewrite Z.pow_add_r in * by lia.
    assert (0 < 2 ^ u) by (apply Z.pow_pos_nonneg; lia). nia.
  - rewrite Z.shiftl_div_pow2 by lia.
    apply Z.div_le_lower_bound; [apply Z.pow_pos_nonneg; lia|].
    rewrite <- Z.pow_add_r by lia.
    assert (2 ^ (- u + k) <= 2 ^ 52) by (apply Z.pow_le_mono_r; lia).
    lia.
Qed.

(** The memory-bound branch of [pickparams]: the cost parameter. *)
Lemma pick_memory_logN (memlimit : Z) :
  1048576 <= memlimit < 2 ^ 64 - 1024 ->
  exists logN,
    scan_logN 62 1 (of_Z (memlimit / u32 (8 * 128))) = Ok logN /\
    10 <= logN <= 53 /\ 1024 * 2 ^ logN <= memlimit.
Proof.
  intros Hmem. change (u32 (8 * 128)) with 1024.
  assert (HM : 1024 <= memlimit / 1024 < 2 ^ 54 - 1).
  { split.
    - apply Z.div_le_lower_bound; lia.
    - apply Z.div_lt_upper_bound; [lia|].
      change (1024 * (2 ^ 54 - 1)) with (2 ^ 64 - 1024). lia. }
  assert (Hfl : memlimit / 1024 * 1024 <= memlimit).
  { pose proof (Z.mul_div_le memlimit 1024). lia. }
  destruct (memlimit / 1024) as [|M|M] eqn:EM; try lia.
  pose proof (digits2_pos_bounds M) as Hd.
  pose proof (digits_ge_pow2 M 10 ltac:(lia)) as Hd11.
  assert (Hshape : exists mz, of_Z (Zpos M)
                              = S754_finite false mz (Zpos (digits2_pos M) - 53)
                              /\ normal_mantissa mz /\ Zpos (digits2_pos M) <= 54).
  { destruct (Z_lt_ge_dec (Zpos M) (2 ^ 53)) as [Hsmall|Hlarge].
    - (* the quotient is a double *)
      assert (Hbig : Zpos M < 2 ^ 1000) by lia.
      destruct (of_Z_shape M Hbig) as (mz & ez & Hof & Hmz & _ & Hexact).
      pose proof (digits_lt_pow2 M 53 Hsmall) as Hd53.
      destruct Hexact as [_ ->]; [assumption|].
      exists mz. split; [exact Hof|]. split; [exact Hmz | lia].
    - (* 54 bits: the conversion rounds, without carry *)
      destruct (of_Z_54 M ltac:(lia)) as (mz & Hof & Hmz).
      assert (Hd54 : Zpos (digits2_pos M) = 54) by (apply digits2_pos_unique; lia).
      exists mz. rewrite Hd54. split; [exact Hof|]. split; [exact Hmz | lia]. }
  destruct Hshape as (mz & Hof & Hmz & Hd54).
  set (d := Zpos (digits2_pos M)) in *.
  assert (Hhalf : div (of_Z (Zpos M)) (of_Z 2) = S754_finite false mz (d - 53 - 1)).
  { rewrite Hof. change 2 with (2 ^ 1) at 1. apply div_by_pow2; try assumption; lia. }
  exists (d - 1). split.
  { rewrite (scan_logN_spec _ mz (d - 53 - 1) Hhalf Hmz 62%nat 1) by (simpl; lia).
    f_equal. lia. }
  split; [lia|]. lia.
Qed.

(** The memory-bound branch of [pickparams]: the clamp and the
    conversion to [uint32_t]. *)
Lemma clamped_maxrp (m : positive) (u : Z) :
  normal_mantissa m ->
  let maxrp := S754_finite false m u in
  exists t,
    to_unsigned 32 (if gtb maxrp (of_Z 1073741823) then of_Z 1073741823 else maxrp)
    = Some t /\
    0 <= t <= Z.shiftl (Zpos m) u /\ t < 2 ^ 30.
Proof.
  intros Hm maxrp. subst maxrp.
  change (of_Z 1073741823) with (S754_finite false 9007199246352384 (-23)).
  unfold gtb. fold (ltb (S754_finite false 9007199246352384 (-23)) (S754_finite false m u)).
  destruct (ltb _ _) eqn:E.
  - apply ltb_finite in E. exists 1073741823.
    split; [reflexivity|]. split; [|lia]. split; [lia|].
    destruct E as [E | [<- E]].
    + pose proof (shiftl_ge_pow2 m u 30 Hm ltac:(lia) ltac:(lia)). lia.
    + rewrite Z.shiftl_div_pow2 by lia. apply Z.div_le_lower_bound; [lia|].
      change (2 ^ (- -23) * 1073741823) with 9007199246352384. lia.
  - apply ltb_finite_false in E. exists (Z.shiftl (Zpos m) u).
    assert (H0 : 0 <= Z.shiftl (Zpos m) u) by (apply Z.shiftl_nonneg; lia).
    assert (H30 : Z.shiftl (Zpos m) u < 2 ^ 30).
    { destruct E as [E | [<- E]].
      - pose proof (shiftl_le_pow2 m u 29 Hm ltac:(lia) ltac:(lia)). lia.
      - rewrite Z.shiftl_div_pow2 by lia.
        apply Z.div_lt_upper_bound; [lia|].
        change (2 ^ (- -23) * 2 ^ 30) with 9007199254740992. lia. }
    split; [|lia].
    unfold to_unsigned, trunc. cbn [cond_Zopp].
    destruct (0 <=? Z.shiftl (Zpos m) u) eqn:E0; [|apply Z.leb_gt in E0; lia].
    destruct (Z.shiftl (Zpos m) u <? 2 ^ 32) eqn:E32; [reflexivity|].
    apply Z.ltb_ge in E32. lia.
Qed.

Lemma checkparams_limits_check_from memlimit opps maxtime logN r p :
  checkparams_limits memlimit opps maxtime logN r p
  = check_from memlimit (mul opps maxtime) logN r p.
Proof. reflexivity. Qed.

Lemma check_from_ok (memlimit : Z) (x : double) (logN p : Z) :
  1 <= logN <= 63 -> 0 <= p -> 8 * p < 2 ^ 30 -> 1024 * 2 ^ logN <= memlimit ->
  ltb (div (div x (of_Z (2 ^ logN))) (of_Z (u32 (8 * p)))) (of_Z 4) = false ->
  check_from memlimit x logN 8 p = Ok tt.
Proof.
  intros HlogN Hp Hrp Hmem Hcpu. unfold check_from. cbv zeta.
  destruct (logN <? 1) eqn:E1; [apply Z.ltb_lt in E1; lia|].
  destruct (logN >? 63) eqn:E2; [apply Z.gtb_lt in E2; lia|].
  cbn [orb].
  assert (Hu : u64 8 * u64 p = 8 * p).
  { unfold u64. change (8 mod 2 ^ 64) with 8. rewrite Z.mod_small; lia. }
  rewrite Hu.
  destruct (8 * p >=? 1073741824) eqn:E3; [apply Z.geb_le in E3; lia|].
  rewrite shl64_pow2 by lia. cbn [rbind].
  change (8 =? 0) with false. cbv iota.
  rewrite Hcpu.
  assert (H0 : 0 < 2 ^ logN) by (apply Z.pow_pos_nonneg; lia).
  assert (1024 <= memlimit / 2 ^ logN) by (apply Z.div_le_lower_bound; lia).
  assert (128 <= memlimit / 2 ^ logN / 8) by (apply Z.div_le_lower_bound; lia).
  destruct (memlimit / 2 ^ logN / 8 <? 128) eqn:E4; [apply Z.ltb_lt in E4; lia|].
  reflexivity.
Qed.

(** [pickparams] followed by [checkparams] on a finite budget of at
    least 32768 operations. *)
Lemma pick_from_checks_finite (memlimit : Z) (m : positive) (e : Z) :
  1048576 <= memlimit < 2 ^ 64 - 1024 -> normal_mantissa m -> -37 <= e <= 971 ->
  exists logN p,
    pick_from memlimit (S754_finite false m e) = Ok (logN, 8, p) /\
    check_from memlimit (S754_finite false m e) logN 8 p = Ok tt /\
    8 * p < 2 ^ 30.
Proof.
  intros Hmem Hm He. unfold pick_from.
  destruct (ltb _ (of_Z (memlimit / 32))) eqn:Ebranch.
  - destruct (pick_compute_bound memlimit m e Hmem Hm He Ebranch) as (HlogN & He6 & Hfit).
    rewrite HlogN. cbn [rbind].
    exists (e + 47), 1. split; [reflexivity|]. split; [|reflexivity].
    apply check_from_ok; try lia.
    apply check_compute_bound; [assumption | lia].
  - destruct (pick_memory_logN memlimit Hmem) as (logN & Hscan & HlogN & Hfit).
    rewrite Hscan. cbn [rbind]. rewrite shl64_pow2 by lia. cbn [rbind]. cbv zeta.
    change (of_Z 4) with (of_Z (2 ^ 2)).
    rewrite div_by_pow2 by (try assumption; lia).
    rewrite div_by_pow2 by (try assumption; lia).
    destruct (clamped_maxrp m (e - 2 - logN) Hm) as (t & Ht & Ht0 & Ht30).
    cbv zeta in Ht. rewrite Ht.
    assert (Hp : 0 <= 8 * (t / 8) <= t).
    { pose proof (Z.mul_div_le t 8). pose proof (Z.div_pos t 8). lia. }
    exists logN, (t / 8). split; [reflexivity|]. split; [|lia].
    apply check_from_ok; try lia.
    rewrite div_by_pow2 by (try assumption; lia).
    replace (e - logN) with (e - 2 - logN + 2) by lia.
    assert (Hu : u32 (8 * (t / 8)) = 8 * (t / 8)).
    { unfold u32. apply Z.mod_small.
      assert (2 ^ 30 < 2 ^ 32) by (apply Z.pow_lt_mono_r; lia). lia. }
    rewrite Hu. apply check_cpu; try assumption; lia.
Qed.

Lemma ltb_infinity (y : double) : ltb (S754_infinity false) y = false.
Proof. destruct y as [s|[|]| |s m e]; reflexivity. Qed.

Lemma div_infinity (m : positive) (e : Z) :
  div (S754_infinity false) (S754_finite false m e) = S754_infinity false.
Proof. reflexivity. Qed.

(** The same on an infinite budget. *)
Lemma pick_from_checks_infinity (memlimit : Z) :
  1048576 <= memlimit < 2 ^ 64 - 1024 ->
  exists logN p,
    pick_from memlimit (S754_infinity false) = Ok (logN, 8, p) /\
    check_from memlimit (S754_infinity false) logN 8 p = Ok tt /\
    8 * p < 2 ^ 30.
Proof.
  intros Hmem. unfold pick_from. rewrite ltb_infinity.
  destruct (pick_memory_logN memlimit Hmem) as (logN & Hscan & HlogN & Hfit).
  rewrite Hscan. cbn [rbind]. rewrite shl64_pow2 by lia. cbn [rbind]. cbv zeta.
  change (of_Z 4) with (S754_finite false (2 ^ 52) (-50)) at 1.
  rewrite div_infinity, of_Z_small_pow2, div_infinity by lia.
  exists logN, 134217727. split; [reflexivity|]. split; [|reflexivity].
  apply check_from_ok; try lia.
  rewrite of_Z_small_pow2, div_infinity by lia. reflexivity.
Qed.

(** The doubles that are at least 32768. *)
Lemma at_least_32768 (x : double) :
  valid_binary prec emax x = true -> SFleb (of_Z 32768) x = true ->
  x = S754_infinity false \/
  exists m e, x = S754_finite false m e /\ normal_mantissa m /\ -37 <= e <= 971.
Proof.
  intros Hvalid Hle.
  change (of_Z 32768) with (S754_finite false (2 ^ 52) (-37)) in Hle.
  destruct x as [s|[|]| |[|] m e]; try discriminate Hle.
  - left. reflexivity.
  - right. exists m, e. split; [reflexivity|].
    unfold SFleb, SFcompare in Hle.
    assert (He : -37 <= e).
    { revert Hle. destruct (Z.compare_spec (-37) e) as [E|E|E]; intros Hle.
      - lia.
      - lia.
      - discriminate Hle. }
    cbn [valid_binary] in Hvalid. unfold bounded, canonical_mantissa in Hvalid.
    apply andb_true_iff in Hvalid. destruct Hvalid as [Hcanon Hbound].
    apply Z.leb_le in Hbound. apply Z.eqb_eq in Hcanon.
    unfold fexp, emin, prec, emax in *.
    pose proof (digits2_pos_bounds m) as Hd.
    assert (Hd53 : Zpos (digits2_pos m) = 53) by lia.
    rewrite Hd53 in Hd. unfold normal_mantissa.
    change (2 ^ (53 - 1)) with (2 ^ 52) in Hd. lia.
Qed.

Lemma floored_at_least_32768 (x : double) :
  valid_binary prec emax x = true -> SFleb (of_Z 32768) x = true ->
  floored x = x.
Proof.
  intros Hvalid Hle. unfold floored.
  destruct (at_least_32768 x Hvalid Hle) as [-> | (m & e & -> & Hm & He)].
  - reflexivity.
  - change (of_Z 32768) with (S754_finite false (2 ^ 52) (-37)).
    assert (E : ltb (S754_finite false m e) (S754_finite false (2 ^ 52) (-37)) = false).
    { apply ltb_finite_false. unfold normal_mantissa in Hm.
      change (Zpos (2 ^ 52)) with (2 ^ 52). lia. }
    rewrite E. reflexivity.
Qed.

(** [pickparams_limits] followed by [checkparams_limits]. *)
Lemma pickparams_limits_checks (memlimit : Z) (opps maxtime : double) :
  1048576 <= memlimit < 2 ^ 64 - 1024 ->
  valid_binary prec emax (mul opps maxtime) = true ->
  SFleb (of_Z 32768) (mul opps maxtime) = true ->
  exists logN p,
    pickparams_limits memlimit opps maxtime = Ok (logN, 8, p) /\
    checkparams_limits memlimit opps maxtime logN 8 p = Ok tt /\
    8 * p < 2 ^ 30.
Proof.
  intros Hmem Hvalid Hle.
  rewrite pickparams_limits_pick_from, floored_at_least_32768 by assumption.
  destruct (at_least_32768 _ Hvalid Hle) as [E | (m & e & E & Hm & He)].
  - destruct (pick_from_checks_infinity memlimit Hmem) as (logN & p & Hpick & Hcheck & Hrp).
    exists logN, p. rewrite checkparams_limits_check_from, E. auto.
  - destruct (pick_from_checks_finite memlimit m e Hmem Hm He) as (logN & p & Hpick & Hcheck & Hrp).
    exists logN, p. rewrite checkparams_limits_check_from, E. auto.
Qed.

(** C4, amended: on a platform whose memory budget is at least 1 MiB and
    below 2^64 - 1024 bytes, and whose operations budget [opps * maxtime]
    is a double of at least 32768, [pickparams] returns a triple, that
    triple passes [checkparams] against the same budgets, and its [r * p]
    is below 2^30. *)
Theorem pickparams_passes_checkparams `{Primitives} :
  forall (maxmem : Z) (maxmemfrac maxtime : double) (memlimit : Z) (opps : double),
    memtouse maxmem maxmemfrac = Ok memlimit ->
    1048576 <= memlimit < 2 ^ 64 - 1024 ->
    scryptenc_cpuperf = Ok opps ->
    valid_binary prec emax (mul opps maxtime) = true ->
    SFleb (of_Z 32768) (mul opps maxtime) = true ->
    exists logN r p,
      pickparams maxmem maxmemfrac maxtime = Ok (logN, r, p) /\
      checkparams maxmem maxmemfrac maxtime logN r p = Ok tt /\
      r * p < 2 ^ 30.
Proof.
  intros maxmem maxmemfrac maxtime memlimit opps Hmem Hrange Hperf Hvalid Hfloor.
  destruct (pickparams_limits_checks memlimit opps maxtime Hrange Hvalid Hfloor)
    as (logN & p & Hpick & Hcheck & Hrp).
  exists logN, 8, p.
  unfold pickparams, checkparams. rewrite Hmem, Hperf. cbn [rbind].
  split; [exact Hpick|]. split; [exact Hcheck | exact Hrp].
Qed.

Lemma pickparams_passes_checkparams_witness :
  @memtouse Demo.fast 0 half = Ok 1048576 /\
  @scryptenc_cpuperf Demo.fast = Ok Demo.million /\
  SFleb (of_Z 32768) (mul Demo.million Demo.one_second) = true /\
  exists logN r p,
    @pickparams Demo.fast 0 half Demo.one_second = Ok (logN, r, p) /\
    @checkparams Demo.fast 0 half Demo.one_second logN r p = Ok tt /\
    r * p < 2 ^ 30.
Proof.
  split; [reflexivity|]. split; [reflexivity|]. split; [reflexivity|].
  apply (@pickparams_passes_checkparams Demo.fast 0 half Demo.one_second
           1048576 Demo.million).
  - reflexivity.
  - lia.
  - reflexivity.
  - reflexivity.
  - reflexivity.
Defined.

(** The upper bound on the memory budget is the least one that fails:
    the quotient of 2^64 - 1024 by 1024 is 2^54 - 1, its conversion to
    double rounds up to 2^54, and the N chosen from it needs twice the
    memory [checkparams] allows. *)
Lemma pickparams_choice_exceeds_memory :
  pickparams_limits (2 ^ 64 - 1024) (of_Z (2 ^ 60)) (of_Z 1) = Ok (54, 8, 2) /\
  checkparams_limits (2 ^ 64 - 1024) (of_Z (2 ^ 60)) (of_Z 1) 54 8 2 = Err 9.
Proof. vm_compute. split; reflexivity. Qed.

(** ** The memory budget *)

Lemma util_memtouse_floor maxmem maxmemfrac memlimit_min memlimit :
  Util.memtouse maxmem maxmemfrac memlimit_min = Ok memlimit ->
  1048576 <= memlimit.
Proof.
  unfold Util.memtouse. cbv zeta.
  destruct (to_unsigned 64 _) as [memavail|]; [|discriminate].
  intros [= <-].
  destruct (_ <? 1048576) eqn:E; [lia|]. apply Z.ltb_ge in E. exact E.
Qed.

Lemma win_memtouse_floor probes maxmem maxmemfrac memlimit :
  Win.memtouse probes maxmem maxmemfrac = Ok memlimit ->
  1048576 <= memlimit.
Proof.
  unfold Win.memtouse. cbv zeta.
  destruct (Win.sysctl_memlimit probes); [|discriminate].
  destruct (Win.sysinfo_memlimit probes); [|discriminate].
  destruct (Win.rlimit_memlimit probes); [|discriminate].
  destruct (Win.sysconf_memlimit probes); [|discriminate].
  destruct (to_unsigned 64 _) as [frac|]; [|discriminate].
  intros [= <-].
  destruct (_ <? 1048576) eqn:E; [lia|]. apply Z.ltb_ge in E. exact E.
Qed.

(** C5, the code at a failing input: no cap, a fraction of 0.5 and 8 GiB
    reported by the platform.  src/util/memlimit.c allows 4 GiB, half of
    the memory; scrypt/win/memlimit.c converts the fraction to [size_t]
    before multiplying, gets 0 and allows the 1 MiB floor. *)
Theorem win_memtouse_drops_the_fraction :
  Util.memtouse 0 half (2 ^ 33) = Ok (2 ^ 32) /\
  Win.memtouse Demo.probes 0 half = Ok 1048576 /\
  to_unsigned 64 half = Some 0.
Proof. vm_compute. repeat split; reflexivity. Qed.

(** ** Streams *)

Lemma take_nil (n : Z) : take n [] = [].
Proof. unfold take. apply firstn_nil. Qed.

Lemma drop_nil (n : Z) : drop n [] = [].
Proof. unfold drop. apply skipn_nil. Qed.

Lemma take_add (a b : Z) (l : list byte) :
  0 <= a -> 0 <= b -> take (a + b) l = take a l ++ take b (drop a l).
Proof.
  intros Ha Hb. unfold take, drop.
  replace (Z.to_nat (a + b)) with (Z.to_nat a + Z.to_nat b)%nat by lia.
  generalize (Z.to_nat a) as i. clear. intros i. revert l.
  induction i as [|i IH]; intros l; [reflexivity|].
  destruct l as [|x l]; cbn [Nat.add firstn skipn app].
  - rewrite firstn_nil. reflexivity.
  - rewrite IH. reflexivity.
Qed.

Lemma len_zero_nil (l : list byte) : len l = 0 -> l = [].
Proof. destruct l; [reflexivity|]. unfold len. cbn [length]. lia. Qed.

Lemma at_take (i n : Z) (l : list byte) : 0 <= i < n -> at_ i (take n l) = at_ i l.
Proof.
  intros Hi. unfold at_, take.
  rewrite <- (firstn_skipn (Z.to_nat n) l) at 2.
  destruct (Z_lt_le_dec i (len (take n l))) as [Hlt|Hge].
  - rewrite app_nth1; [reflexivity|]. unfold len, take in Hlt. lia.
  - rewrite nth_overflow by (unfold len, take in Hge; lia).
    rewrite nth_overflow; [reflexivity|].
    unfold len, take in Hge. rewrite length_firstn in Hge.
    rewrite firstn_skipn. lia.
Qed.

(** What one [fread] of at least one byte leaves and returns. *)
Lemma fread_spec (n : Z) (w : world) :
  0 < n ->
  exists got cuts,
    fread n w = (set_infile {| in_data := drop (len got) (in_data (infile w));
                               in_cuts := cuts;
                               in_error := in_error (infile w) |} w, Ok got) /\
    got = take (len got) (in_data (infile w)) /\
    len got <= n /\
    (len got = 0 -> in_data (infile w) = []).
Proof.
  intros Hn. unfold fread.
  set (k := match in_cuts (infile w) with
            | [] => n
            | s :: _ => Z.min n (Z.max 1 s)
            end).
  assert (Hk : 0 < k <= n) by (unfold k; destruct (in_cuts (infile w)); lia).
  pose proof (len_nonneg (in_data (infile w))) as Hd.
  assert (Hgot : len (take k (in_data (infile w))) = Z.min k (len (in_data (infile w))))
    by (rewrite len_take; lia).
  exists (take k (in_data (infile w))), (tl (in_cuts (infile w))).
  split; [|split; [|split]].
  - do 3 f_equal. rewrite Hgot.
    destruct (Z_le_gt_dec k (len (in_data (infile w)))).
    + f_equal. lia.
    + rewrite !drop_all by lia. reflexivity.
  - rewrite Hgot.
    destruct (Z_le_gt_dec k (len (in_data (infile w)))).
    + f_equal. lia.
    + rewrite !take_all by lia. reflexivity.
  - lia.
  - intros Hz. apply len_zero_nil. lia.
Qed.

Section Loops.
Context `{Primitives}.

(** The loop of [scryptenc_file] on a stream without read error and an
  output without limit: it consumes the stream, writes and hashes its
  encryption, and does not run out of fuel. *)
Lemma scryptenc_file_loop_spec (fuel : nat) :
forall AES hctx w,
  (length (in_data (infile w)) < fuel)%nat ->
  out_room (outfile w) = None ->
  let ct := xor_keystream (ctr_key AES) (ctr_nonce AES) (ctr_pos AES)
              (in_data (infile w)) in
  exists cuts,
    scryptenc_file_loop fuel AES hctx w
    = (set_outfile {| out_data := out_data (outfile w) ++ ct; out_room := None |}
         (set_infile {| in_data := []; in_cuts := cuts;
                        in_error := in_error (infile w) |} w),
       Ok (HMAC_SHA256_Update hctx ct)).
Proof.
induction fuel as [|fuel IH]; intros AES hctx w Hfuel Hroom; [lia|].
cbv zeta. cbn [scryptenc_file_loop]. unfold bind at 1.
destruct (fread_spec ENCBLOCK w) as (got & cuts & Hread & Hgot & Hle & Hnil);
  [reflexivity|].
rewrite Hread. cbv zeta.
destruct (len got =? 0) eqn:Ezero.
- apply Z.eqb_eq in Ezero. rewrite (Hnil Ezero). cbn [xor_keystream].
  exists cuts. unfold ret, HMAC_SHA256_Update. rewrite !app_nil_r, drop_nil.
  destruct w as [d ob ol fi [od orr] sc]. cbn in *. subst orr.
  destruct hctx. reflexivity.
- apply Z.eqb_neq in Ezero. pose proof (len_nonneg got) as Hpos.
  unfold crypto_aesctr_stream.
  set (piece := xor_keystream (ctr_key AES) (ctr_nonce AES) (ctr_pos AES) got).
  assert (Hpiece : len piece = len got) by apply len_xor_keystream.
  unfold bind at 1, fwrite. cbn [outfile set_infile]. rewrite Hroom.
  rewrite Hpiece, Z.ltb_irrefl. rewrite take_all by lia.
  set (w2 := set_outfile _ _).
  set (AES2 := {| ctr_key := ctr_key AES; ctr_nonce := ctr_nonce AES;
                  ctr_pos := ctr_pos AES + len got |}).
  destruct (IH AES2 (HMAC_SHA256_Update hctx piece) w2) as (cuts' & Hloop).
  + subst w2. cbn [infile set_outfile set_infile in_data].
    assert (len (drop (len got) (in_data (infile w))) < len (in_data (infile w))).
    { rewrite len_drop. pose proof (len_nonneg (in_data (infile w))).
      assert (len got <= len (in_data (infile w))).
      { rewrite Hgot at 1. rewrite len_take. lia. }
      lia. }
    unfold len in *. lia.
  + reflexivity.
  + exists cuts'. rewrite Hloop. subst w2 AES2.
    cbn [infile outfile set_outfile set_infile in_data in_error out_data
         ctr_key ctr_nonce ctr_pos].
    assert (Hct : xor_keystream (ctr_key AES) (ctr_nonce AES) (ctr_pos AES)
                    (in_data (infile w))
                  = piece ++ xor_keystream (ctr_key AES) (ctr_nonce AES)
                               (ctr_pos AES + len got)
                               (drop (len got) (in_data (infile w)))).
    { rewrite <- (take_drop (len got) (in_data (infile w))) at 1.
      rewrite <- Hgot. apply xor_keystream_app. }
    rewrite Hct. unfold HMAC_SHA256_Update. cbn [hmac_key hmac_fed].
    rewrite <- !app_assoc. reflexivity.
Qed.


(** The loop of [scryptdec_file], entered with at most 32 bytes in [buf]:
  of the bytes [buf ++ stream] it decrypts, writes and hashes all but the
  last 32, which it leaves in [buf]. *)
Lemma scryptdec_file_loop_spec (fuel : nat) :
forall buf AES hctx w,
  (length (in_data (infile w)) < fuel)%nat ->
  out_room (outfile w) = None ->
  len buf <= 32 ->
  let all := buf ++ in_data (infile w) in
  let n := len all - 32 in
  exists cuts,
    scryptdec_file_loop fuel buf AES hctx w
    = (set_outfile
         {| out_data := out_data (outfile w)
                        ++ xor_keystream (ctr_key AES) (ctr_nonce AES)
                             (ctr_pos AES) (take n all);
            out_room := None |}
         (set_infile {| in_data := []; in_cuts := cuts;
                        in_error := in_error (infile w) |} w),
       Ok (drop n all, HMAC_SHA256_Update hctx (take n all))).
Proof.
induction fuel as [|fuel IH]; intros buf AES hctx w Hfuel Hroom Hbuf; [lia|].
cbv zeta. cbn [scryptdec_file_loop]. unfold bind at 1.
pose proof (len_nonneg buf) as Hbuf0.
destruct (fread_spec (ENCBLOCK + 32 - len buf) w)
  as (got & cuts & Hread & Hgot & Hle & Hnil);
  [unfold ENCBLOCK; lia|].
rewrite Hread. cbv zeta.
pose proof (len_nonneg got) as Hgot0.
assert (Hdata : in_data (infile w) = got ++ drop (len got) (in_data (infile w))).
{ transitivity (take (len got) (in_data (infile w))
                ++ drop (len got) (in_data (infile w))).
  - symmetry. apply take_drop.
  - rewrite <- Hgot. reflexivity. }
destruct (len got =? 0) eqn:Ezero.
- apply Z.eqb_eq in Ezero. rewrite (Hnil Ezero), app_nil_r, drop_nil.
  rewrite take_nonpos, drop_nonpos by lia. cbn [xor_keystream].
  exists cuts. unfold ret, HMAC_SHA256_Update. rewrite !app_nil_r.
  destruct w as [d ob ol fi [od orr] sc]. cbn in *. subst orr.
  destruct hctx. reflexivity.
- apply Z.eqb_neq in Ezero.
  set (rest := drop (len got) (in_data (infile w))) in *.
  set (w1 := set_infile _ w).
  assert (Hfuel1 : (length (in_data (infile w1)) < fuel)%nat).
  { subst w1. cbn [infile set_infile in_data].
    assert (len (in_data (infile w)) = len got + len rest)
      by (rewrite Hdata at 1; apply len_app).
    unfold len in *. lia. }
  destruct (len buf + len got <=? 32) eqn:Eshort.
  + apply Z.leb_le in Eshort.
    destruct (IH (buf ++ got) AES hctx w1 Hfuel1 Hroom) as (cuts' & Hloop).
    { rewrite len_app. lia. }
    exists cuts'. rewrite Hloop. subst w1.
    cbn [infile outfile set_infile in_data in_error].
    rewrite Hdata at 1 2 3 4 5 6. rewrite <- !app_assoc. reflexivity.
  + apply Z.leb_gt in Eshort.
    set (m := len buf + len got - 32).
    assert (Hm : 0 < m <= len (buf ++ got)) by (rewrite len_app; lia).
    unfold crypto_aesctr_stream.
    set (piece := take m (buf ++ got)).
    assert (Hpiece : len piece = m) by (unfold piece; rewrite len_take; lia).
    unfold bind at 1, fwrite. cbn [outfile set_infile]. subst w1.
    cbn [outfile set_infile]. rewrite Hroom.
    rewrite len_xor_keystream, Hpiece, Z.ltb_irrefl.
    rewrite take_all by (rewrite len_xor_keystream; lia).
    set (w2 := set_outfile _ _).
    set (AES2 := {| ctr_key := ctr_key AES; ctr_nonce := ctr_nonce AES;
                    ctr_pos := ctr_pos AES + m |}).
    assert (Htail : slice m 32 (buf ++ got) = drop m (buf ++ got)).
    { unfold slice. apply take_all. rewrite len_drop, len_app. lia. }
    rewrite Htail.
    destruct (IH (drop m (buf ++ got)) AES2 (HMAC_SHA256_Update hctx piece) w2)
      as (cuts' & Hloop).
    { exact Hfuel1. }
    { reflexivity. }
    { rewrite len_drop, len_app. lia. }
    exists cuts'. rewrite Hloop. subst w2 AES2.
    cbn [infile outfile set_outfile set_infile in_data in_error out_data
         ctr_key ctr_nonce ctr_pos].
    fold rest.
    assert (Hall : buf ++ in_data (infile w) = (buf ++ got) ++ rest)
      by (rewrite Hdata at 1; apply app_assoc).
    rewrite Hall.
    assert (Hdrop : drop m (buf ++ got) ++ rest = drop m ((buf ++ got) ++ rest))
      by (symmetry; apply drop_app_le; lia).
    rewrite Hdrop.
    set (all := (buf ++ got) ++ rest).
    assert (Hlen : len (drop m all) = len all - m).
    { rewrite len_drop. unfold all. rewrite len_app.
      pose proof (len_nonneg rest). lia. }
    rewrite Hlen.
    assert (Hpiece' : piece = take m all)
      by (unfold piece, all; symmetry; apply take_app_le; lia).
    assert (H32 : 0 <= len all - m - 32).
    { unfold all. rewrite !len_app. pose proof (len_nonneg rest).
      rewrite len_app in Hm. lia. }
    assert (Htake : take (len all - 32) all
                    = piece ++ take (len all - m - 32) (drop m all)).
    { replace (len all - 32) with (m + (len all - m - 32)) by lia.
      rewrite take_add by lia. rewrite Hpiece'. reflexivity. }
    rewrite Htake, xor_keystream_app, Hpiece.
    rewrite drop_drop by lia.
    replace (m + (len all - m - 32)) with (len all - 32) by lia.
    unfold HMAC_SHA256_Update. cbn [hmac_key hmac_fed].
    rewrite <- !app_assoc. reflexivity.
Qed.

End Loops.

(** ** Streams against buffers *)

Section Streaming.
Context `{Primitives}.
Hypothesis OK : primitives_ok _.

Lemma fwrite_item_unlimited buf w :
out_room (outfile w) = None ->
fwrite_item buf w
= (set_outfile {| out_data := out_data (outfile w) ++ buf; out_room := None |} w,
   Ok 1).
Proof.
intros Hroom. unfold fwrite_item, bind, fwrite, ret. rewrite Hroom.
rewrite Z.ltb_irrefl, take_all by lia. reflexivity.
Qed.

Ltac finish_runs Ebuf Efile :=
apply pair_equal_spec in Ebuf; destruct Ebuf as [<- <-];
apply pair_equal_spec in Efile; destruct Efile as [<- <-];
cbn [fst snd].

Lemma scryptenc_file_matches_buf passwd maxmem maxmemfrac maxtime
  plaintext cuts wb wf :
infile wf = {| in_data := plaintext; in_cuts := cuts; in_error := false |} ->
out_room (outfile wf) = None ->
let buf_run := scryptenc_buf plaintext passwd maxmem maxmemfrac maxtime wb in
let file_run := scryptenc_file passwd maxmem maxmemfrac maxtime wf in
snd file_run = snd buf_run /\
(snd buf_run = Ok tt ->
 out_data (outfile (fst file_run))
 = out_data (outfile wf) ++ take (len plaintext + 128) (outbuf (fst buf_run))).
Proof.
intros Hin Hroom. cbv zeta.
destruct (scryptenc_buf plaintext passwd maxmem maxmemfrac maxtime wb)
  as [wb' rb] eqn:Ebuf.
destruct (scryptenc_file passwd maxmem maxmemfrac maxtime wf)
  as [wf' rf] eqn:Efile.
cbn [fst snd].
rewrite scryptenc_buf_spec in Ebuf. unfold scryptenc_file in Efile.
unfold bind at 1 in Efile.
rewrite !scryptenc_setup_spec in Ebuf, Efile by assumption.
destruct (pickparams maxmem maxmemfrac maxtime) as [[[logN r] p]|rc|];
  [|finish_runs Ebuf Efile; split; [reflexivity|discriminate]..].
destruct (crypto_entropy_read 32) as [salt|] eqn:Esalt;
  [|finish_runs Ebuf Efile; split; [reflexivity|discriminate]].
pose proof (crypto_entropy_len OK _ _ Esalt) as Hsalt.
cbv zeta in Ebuf, Efile.
destruct (crypto_scrypt passwd salt (2 ^ logN) r p 64) as [out|];
  [|finish_runs Ebuf Efile; split; [reflexivity|discriminate]].
remember (sealed (slice 32 32 out) (record_head logN r p salt)) as header eqn:Hdef.
assert (Hheader : len header = 96) by (subst header; apply len_sealed; assumption).
rewrite (take_all 96 header) in Efile by lia.
unfold bind at 1, gets at 1 in Efile.
cbn [dk set_dk log_scrypt outbuf] in Ebuf, Efile.
unfold bind at 1 in Efile. rewrite fwrite_item_unlimited in Efile by exact Hroom.
change (negb (1 =? 1)) with false in Efile. cbv iota in Efile.
unfold bind at 1 in Efile. rewrite aesctr_start_spec in Efile.
cbn [dk set_dk set_outfile] in Efile.
destruct (crypto_aes_key_expand (take 32 out)) as [key|];
  [|finish_runs Ebuf Efile; split; [reflexivity|discriminate]].
destruct aesctr_alloc;
  [|finish_runs Ebuf Efile; split; [reflexivity|discriminate]].
unfold bind at 1, gets at 1 in Efile. unfold bind at 1 in Efile.
set (w2 := set_outfile _ _) in Efile.
set (AES := {| ctr_key := key; ctr_nonce := 0; ctr_pos := 0 |}) in Efile.
set (hctx := HMAC_SHA256_Update _ header) in Efile.
destruct (scryptenc_file_loop_spec (S (length (in_data (infile w2)))) AES hctx w2)
  as (cuts' & Hloop); [lia|reflexivity|].
rewrite Hloop in Efile. clear Hloop.
assert (Hdata : in_data (infile w2) = plaintext)
  by (subst w2; cbn [infile set_outfile set_dk log_scrypt]; rewrite Hin; reflexivity).
assert (Herr : in_error (infile w2) = false)
  by (subst w2; cbn [infile set_outfile set_dk log_scrypt]; rewrite Hin; reflexivity).
rewrite Hdata, Herr in Efile. subst AES. cbn [ctr_key ctr_nonce ctr_pos] in Efile.
set (ct := xor_keystream key 0 0 plaintext) in *.
assert (Hct : len ct = len plaintext) by apply len_xor_keystream.
unfold bind at 1, ferror, gets at 1 in Efile.
cbn [infile set_outfile set_infile in_error andb] in Efile.
unfold bind at 1 in Efile. rewrite fwrite_item_unlimited in Efile by reflexivity.
change (negb (1 =? 1)) with false in Efile. cbv iota in Efile.
unfold bind, insecure_memzero_dk, modify, ret in Efile.
rewrite <- Hct in Ebuf.
destruct (container_written (outbuf wb) header ct
            (take 32 (HMAC_SHA256_Buf (slice 32 32 out) (header ++ ct))) Hheader)
  as [Hsigned Hfinal].
rewrite Hsigned, Hfinal in Ebuf. clear Hsigned Hfinal.
subst hctx. unfold HMAC_SHA256_Final, HMAC_SHA256_Update, HMAC_SHA256_Init in Efile.
cbn [hmac_key hmac_fed app] in Efile.
set (tag := take 32 (HMAC_SHA256_Buf (slice 32 32 out) (header ++ ct))) in *.
assert (Htag : len tag = 32) by (apply len_take_hmac; assumption).
finish_runs Ebuf Efile. split; [reflexivity|]. intros _.
cbn [outfile set_outfile set_dk set_infile out_data outbuf set_outbuf].
subst w2. cbn [outfile set_outfile set_dk log_scrypt out_data].
replace (header ++ ct ++ tag ++ drop (96 + len ct + len tag) (outbuf wb))
  with ((header ++ ct ++ tag) ++ drop (96 + len ct + len tag) (outbuf wb))
  by (rewrite <- !app_assoc; reflexivity).
rewrite <- Hct.
rewrite take_app_exact by (rewrite !len_app; lia).
rewrite <- !app_assoc. reflexivity.
Qed.


(** What [scryptdec_file] does on a stream of at least 96 bytes with the
  right magic and version, without read error, into an output without
  limit. *)
Lemma scryptdec_file_spec passwd maxmem maxmemfrac maxtime container cuts wf :
infile wf = {| in_data := container; in_cuts := cuts; in_error := false |} ->
out_room (outfile wf) = None ->
96 <= len container -> take 6 container = magic -> at_ 6 container = 0 ->
exists cuts',
  scryptdec_file passwd maxmem maxmemfrac maxtime wf =
  let wf2 := set_infile {| in_data := drop 96 container; in_cuts := cuts;
                           in_error := false |} wf in
  match scryptdec_setup (take 96 container) passwd maxmem maxmemfrac maxtime wf2 with
  | (w1, Ok _) =>
    match crypto_aes_key_expand (take 32 (dk w1)) with
    | None => (w1, Err 5)
    | Some key =>
      if aesctr_alloc then
        let all := drop 96 container in
        let n := len all - 32 in
        let plain := xor_keystream key 0 0 (take n all) in
        let w3 := set_outfile {| out_data := out_data (outfile w1) ++ plain;
                                 out_room := None |}
                    (set_infile {| in_data := []; in_cuts := cuts';
                                   in_error := false |} w1) in
        if len container <? 128 then (w3, Err 7)
        else if memcmp (take 32 (HMAC_SHA256_Buf (slice 32 32 (dk w1))
                                   (take 96 container ++ take n all)))
                       (take 32 (drop n all))
             then (w3, Err 7)
             else (set_dk (repeat 0 64) w3, Ok tt)
      else (w1, Err 6)
    end
  | (w1, Err rc) => (w1, Err rc)
  | (w1, Undef) => (w1, Undef)
  end.
Proof.
intros Hin Hroom Hlen Hmagic Hver.
pose proof (len_nonneg container) as Hc0.
unfold scryptdec_file. unfold bind at 1, fread_item at 1. rewrite Hin.
cbn [in_data in_cuts in_error].
replace (7 <=? len container) with true by (symmetry; apply Z.leb_le; lia).
rewrite take_take. change (Z.min 6 7) with 6.
rewrite Hmagic, memcmp_same, at_take, Hver by lia.
change (negb (0 =? 0)) with false. cbv iota.
unfold bind at 1, fread_item at 1. cbn [infile set_infile in_data in_cuts in_error].
replace (89 <=? len (drop 7 container)) with true
  by (symmetry; apply Z.leb_le; rewrite len_drop; lia).
rewrite drop_drop by lia. change (7 + 89) with 96.
replace (take 7 container ++ take 89 (drop 7 container)) with (take 96 container)
  by (change 96 with (7 + 89); apply take_add; lia).
rewrite (take_all 96 (take 96 container)) by (rewrite len_take; lia).
cbv zeta. unfold bind at 1.
set (wf2 := set_infile _ (set_infile _ wf)).
assert (Hwf2 : wf2 = set_infile {| in_data := drop 96 container; in_cuts := cuts;
                                   in_error := false |} wf) by reflexivity.
rewrite <- Hwf2.
assert (Hfiles : forall w1 r,
           scryptdec_setup (take 96 container) passwd maxmem maxmemfrac maxtime wf2
           = (w1, r) ->
           infile w1 = infile wf2 /\ outfile w1 = outfile wf2).
{ intros w1 r E. rewrite scryptdec_setup_spec in E.
  destruct (memcmp _ _);
    [apply pair_equal_spec in E; destruct E as [<- _]; split; reflexivity|].
  cbv zeta in E.
  destruct (checkparams _ _ _ _ _ _);
    try (apply pair_equal_spec in E; destruct E as [<- _]; split; reflexivity).
  destruct (crypto_scrypt _ _ _ _ _ _);
    apply pair_equal_spec in E; destruct E as [<- _]; split; reflexivity. }
destruct (scryptdec_setup _ passwd maxmem maxmemfrac maxtime wf2)
  as [w1 [[]|rc|]] eqn:Esetup; try (exists cuts; reflexivity).
destruct (Hfiles _ _ eq_refl) as [Hin1 Hout1].
unfold bind at 1, gets at 1. unfold bind at 1. rewrite aesctr_start_spec.
destruct (crypto_aes_key_expand (take 32 (dk w1))) as [key|];
  [|exists cuts; reflexivity].
destruct aesctr_alloc; [|exists cuts; reflexivity].
unfold bind at 1, gets at 1. unfold bind at 1.
set (AES := {| ctr_key := key; ctr_nonce := 0; ctr_pos := 0 |}).
set (hctx := HMAC_SHA256_Update _ (take 96 container)).
destruct (scryptdec_file_loop_spec (S (length (in_data (infile w1)))) [] AES hctx w1)
  as (cuts' & Hloop).
{ lia. }
{ rewrite Hout1. subst wf2. exact Hroom. }
{ cbn. lia. }
exists cuts'. rewrite Hloop. clear Hloop. cbn [app].
rewrite Hin1. subst wf2. cbn [infile set_infile in_data in_error].
subst AES. cbn [ctr_key ctr_nonce ctr_pos].
set (all := drop 96 container).
assert (Hall : len all = len container - 96) by (unfold all; rewrite len_drop; lia).
unfold bind at 1, ferror, gets at 1.
cbn [infile set_outfile set_infile in_error andb].
assert (Htail : len (drop (len all - 32) all) = Z.min (len all) 32).
{ rewrite len_drop. lia. }
rewrite Htail.
replace (Z.min (len all) 32 <? 32) with (len container <? 128).
2:{ destruct (len container <? 128) eqn:E; symmetry.
    - apply Z.ltb_lt in E. apply Z.ltb_lt. lia.
    - apply Z.ltb_ge in E. apply Z.ltb_ge. lia. }
destruct (len container <? 128); [reflexivity|].
subst hctx. unfold HMAC_SHA256_Final, HMAC_SHA256_Update, HMAC_SHA256_Init.
cbn [hmac_key hmac_fed app].
destruct (memcmp _ _); reflexivity.
Qed.


(** The result code and the derived key of [scryptdec_setup] do not
  depend on the world it runs in. *)
Lemma scryptdec_setup_two_worlds header passwd maxmem maxmemfrac maxtime wa wb :
snd (scryptdec_setup header passwd maxmem maxmemfrac maxtime wa)
= snd (scryptdec_setup header passwd maxmem maxmemfrac maxtime wb) /\
(snd (scryptdec_setup header passwd maxmem maxmemfrac maxtime wa) = Ok tt ->
 dk (fst (scryptdec_setup header passwd maxmem maxmemfrac maxtime wa))
 = dk (fst (scryptdec_setup header passwd maxmem maxmemfrac maxtime wb))) /\
outfile (fst (scryptdec_setup header passwd maxmem maxmemfrac maxtime wa))
= outfile wa /\
outbuf (fst (scryptdec_setup header passwd maxmem maxmemfrac maxtime wa))
= outbuf wa /\
outlen (fst (scryptdec_setup header passwd maxmem maxmemfrac maxtime wa))
= outlen wa.
Proof.
rewrite !scryptdec_setup_spec.
destruct (memcmp _ _); [repeat split; discriminate|]. cbv zeta.
destruct (checkparams _ _ _ _ _ _); try (repeat split; discriminate).
destruct (crypto_scrypt _ _ _ _ _ _); repeat split; discriminate.
Qed.

Lemma scryptdec_file_matches_buf passwd maxmem maxmemfrac maxtime
  container cuts wb wf :
infile wf = {| in_data := container; in_cuts := cuts; in_error := false |} ->
out_room (outfile wf) = None ->
outlen wb = 0 ->
let buf_run := scryptdec_buf container passwd maxmem maxmemfrac maxtime wb in
let file_run := scryptdec_file passwd maxmem maxmemfrac maxtime wf in
out_data (outfile (fst file_run))
= out_data (outfile wf) ++ take (outlen (fst buf_run)) (outbuf (fst buf_run)) /\
(128 <= len container -> snd file_run = snd buf_run).
Proof.
intros Hin Hroom Hzero. cbv zeta.
pose proof (len_nonneg container) as Hc0.
destruct (scryptdec_buf container passwd maxmem maxmemfrac maxtime wb)
  as [wb' rb] eqn:Ebuf.
destruct (scryptdec_file passwd maxmem maxmemfrac maxtime wf)
  as [wf' rf] eqn:Efile.
cbn [fst snd].
destruct (Z_lt_le_dec (len container) 7) as [Hshort|H7].
{ (* not even a prefix *)
  unfold scryptdec_buf in Ebuf. unfold scryptdec_file in Efile.
  cbv zeta in Ebuf.
  replace (len container <? 7) with true in Ebuf by (symmetry; apply Z.ltb_lt; lia).
  unfold bind at 1, fread_item in Efile. rewrite Hin in Efile.
  cbn [in_data in_error in_cuts] in Efile.
  replace (7 <=? len container) with false in Efile
    by (symmetry; apply Z.leb_gt; lia).
  unfold bind, ferror, gets, fail in Efile, Ebuf.
  cbn [infile set_infile in_error andb orb] in Efile, Ebuf.
  finish_runs Ebuf Efile. cbn [outfile set_infile].
  rewrite Hzero, take_nonpos, app_nil_r by lia. split; [reflexivity|lia]. }
destruct (memcmp (take 6 container) magic) eqn:Emagic.
{ unfold scryptdec_buf in Ebuf. unfold scryptdec_file in Efile.
  cbv zeta in Ebuf. rewrite Emagic, orb_true_r in Ebuf.
  unfold bind at 1, fread_item in Efile. rewrite Hin in Efile.
  cbn [in_data in_error in_cuts] in Efile.
  replace (7 <=? len container) with true in Efile
    by (symmetry; apply Z.leb_le; lia).
  rewrite take_take in Efile. change (Z.min 6 7) with 6 in Efile.
  rewrite Emagic in Efile. unfold fail in Efile, Ebuf.
  finish_runs Ebuf Efile. cbn [outfile set_infile].
  rewrite Hzero, take_nonpos, app_nil_r by lia. split; reflexivity. }
apply memcmp_false in Emagic.
destruct (at_ 6 container =? 0) eqn:Ever.
2:{ unfold scryptdec_buf in Ebuf. unfold scryptdec_file in Efile.
    cbv zeta in Ebuf. rewrite Emagic, memcmp_same, Ever in Ebuf.
    replace (len container <? 7) with false in Ebuf
      by (symmetry; apply Z.ltb_ge; lia).
    unfold bind at 1, fread_item in Efile. rewrite Hin in Efile.
    cbn [in_data in_error in_cuts] in Efile.
    replace (7 <=? len container) with true in Efile
      by (symmetry; apply Z.leb_le; lia).
    rewrite take_take in Efile. change (Z.min 6 7) with 6 in Efile.
    rewrite Emagic, memcmp_same, at_take, Ever in Efile by lia.
    unfold fail in Efile, Ebuf. cbn [orb negb] in Efile, Ebuf.
    finish_runs Ebuf Efile. cbn [outfile set_infile].
    rewrite Hzero, take_nonpos, app_nil_r by lia. split; reflexivity. }
apply Z.eqb_eq in Ever.
destruct (Z_lt_le_dec (len container) 96) as [Hnohdr|H96].
{ (* the header is cut short *)
  unfold scryptdec_buf in Ebuf. unfold scryptdec_file in Efile.
  cbv zeta in Ebuf. rewrite Emagic, memcmp_same, Ever in Ebuf.
  replace (len container <? 7) with false in Ebuf
    by (symmetry; apply Z.ltb_ge; lia).
  replace (len container <? 128) with true in Ebuf
    by (symmetry; apply Z.ltb_lt; lia).
  unfold bind at 1, fread_item at 1 in Efile. rewrite Hin in Efile.
  cbn [in_data in_error in_cuts] in Efile.
  replace (7 <=? len container) with true in Efile
    by (symmetry; apply Z.leb_le; lia).
  rewrite take_take in Efile. change (Z.min 6 7) with 6 in Efile.
  rewrite Emagic, memcmp_same, at_take, Ever in Efile by lia.
  change (negb (0 =? 0)) with false in Efile, Ebuf. cbv iota in Efile, Ebuf.
  unfold bind at 1, fread_item at 1 in Efile.
  cbn [infile set_infile in_data in_cuts in_error] in Efile.
  replace (89 <=? len (drop 7 container)) with false in Efile
    by (symmetry; apply Z.leb_gt; rewrite len_drop; lia).
  unfold bind, ferror, gets, fail in Efile, Ebuf.
  cbn [infile set_infile in_error andb orb] in Efile, Ebuf.
  finish_runs Ebuf Efile. cbn [outfile set_infile].
  rewrite Hzero, take_nonpos, app_nil_r by lia. split; [reflexivity|lia]. }
(* a whole header *)
destruct (scryptdec_file_spec passwd maxmem maxmemfrac maxtime container cuts wf
            Hin Hroom H96 Emagic Ever) as (cuts' & Hfile).
rewrite Hfile in Efile. clear Hfile. cbv zeta in Efile.
set (wf2 := set_infile _ wf) in Efile.
destruct (scryptdec_setup_two_worlds (take 96 container) passwd
            maxmem maxmemfrac maxtime wf2 wb) as (Hrc & Hdk & Hof & _ & _).
destruct (scryptdec_setup_two_worlds (take 96 container) passwd
            maxmem maxmemfrac maxtime wb wf2) as (_ & _ & _ & Hob & Hol).
assert (Hof2 : out_data (outfile wf2) = out_data (outfile wf)) by reflexivity.
destruct (Z_lt_le_dec (len container) 128) as [Hsmall|H128].
{ (* no room for a tag: the buffer variant stops before the header *)
  unfold scryptdec_buf in Ebuf. cbv zeta in Ebuf.
  rewrite Emagic, memcmp_same, Ever in Ebuf.
  replace (len container <? 7) with false in Ebuf
    by (symmetry; apply Z.ltb_ge; lia).
  replace (len container <? 128) with true in Ebuf
    by (symmetry; apply Z.ltb_lt; lia).
  unfold fail in Ebuf. cbn [orb negb Z.eqb] in Ebuf.
  apply pair_equal_spec in Ebuf. destruct Ebuf as [<- <-].
  rewrite Hzero, take_nonpos, app_nil_r by lia.
  split; [|lia].
  destruct (scryptdec_setup _ passwd maxmem maxmemfrac maxtime wf2)
    as [w1 [[]|rc|]]; cbn [fst snd] in *;
    try (apply pair_equal_spec in Efile; destruct Efile as [<- <-];
         rewrite Hof; reflexivity).
  destruct (crypto_aes_key_expand _);
    [|apply pair_equal_spec in Efile; destruct Efile as [<- <-];
      rewrite Hof; reflexivity].
  destruct aesctr_alloc;
    [|apply pair_equal_spec in Efile; destruct Efile as [<- <-];
      rewrite Hof; reflexivity].
  replace (len container <? 128) with true in Efile
    by (symmetry; apply Z.ltb_lt; lia).
  apply pair_equal_spec in Efile; destruct Efile as [<- <-].
  cbn [fst outfile set_outfile out_data].
  rewrite take_nonpos by (rewrite len_drop; lia).
  cbn [xor_keystream]. rewrite app_nil_r, Hof. reflexivity. }
rewrite scryptdec_buf_spec in Ebuf by assumption.
destruct (scryptdec_setup _ passwd maxmem maxmemfrac maxtime wf2)
  as [w1 r1] eqn:Ef.
destruct (scryptdec_setup _ passwd maxmem maxmemfrac maxtime wb)
  as [w1' r1'] eqn:Eb.
cbn [fst snd] in *. subst r1'.
destruct r1 as [[]|rc|];
  try (finish_runs Ebuf Efile;
       rewrite Hof, Hol, Hzero, take_nonpos, app_nil_r by lia;
       split; reflexivity).
rewrite <- (Hdk eq_refl) in Ebuf.
destruct (crypto_aes_key_expand (take 32 (dk w1))) as [key|];
  [|finish_runs Ebuf Efile;
    rewrite Hof, Hol, Hzero, take_nonpos, app_nil_r by lia;
    split; reflexivity].
destruct aesctr_alloc;
  [|finish_runs Ebuf Efile;
    rewrite Hof, Hol, Hzero, take_nonpos, app_nil_r by lia;
    split; reflexivity].
replace (len container <? 128) with false in Efile
  by (symmetry; apply Z.ltb_ge; lia).
cbv zeta in Efile, Ebuf.
assert (Hpayload : take (len (drop 96 container) - 32) (drop 96 container)
                   = slice 96 (len container - 128) container).
{ unfold slice. f_equal. rewrite len_drop. lia. }
assert (Hsigned : take 96 container
                  ++ take (len (drop 96 container) - 32) (drop 96 container)
                  = take (len container - 32) container).
{ replace (len container - 32) with (96 + (len container - 128)) by lia.
  rewrite take_add by lia. rewrite Hpayload. reflexivity. }
assert (Htrail : take 32 (drop (len (drop 96 container) - 32) (drop 96 container))
                 = slice (len container - 32) 32 container).
{ unfold slice. f_equal. rewrite drop_drop by (rewrite ?len_drop; lia).
  f_equal. rewrite len_drop. lia. }
rewrite Hsigned, Hpayload, Htrail in Efile.
set (plain := xor_keystream key 0 0 (slice 96 (len container - 128) container)) in *.
assert (Hplain : len plain = len container - 128).
{ unfold plain. rewrite len_xor_keystream. unfold slice.
  rewrite len_take, len_drop. lia. }
assert (Hwritten : take (len container - 128) (memcpy (outbuf w1') 0 plain) = plain).
{ unfold memcpy. rewrite (take_nonpos 0) by lia. cbn [app].
  apply take_app_exact. exact Hplain. }
destruct (memcmp _ _); finish_runs Ebuf Efile;
  cbn [outfile outbuf outlen set_outfile set_infile set_outlen set_outbuf
       set_dk out_data];
  rewrite Hwritten, Hof; split; reflexivity.
Qed.

End Streaming.

(** C8: on a stream read in any chunks, without read error and into an
    output without limit, [scryptenc_file] returns what [scryptenc_buf]
    returns on the same bytes and, when that is 0, emits the same header,
    ciphertext and tag; [scryptdec_file] emits the plaintext that
    [scryptdec_buf] writes for the same container, and returns the same
    code on every container of at least 128 bytes. *)
Theorem streaming_matches_buffer `{Primitives} :
  primitives_ok _ ->
  forall passwd maxmem maxmemfrac maxtime data cuts wb wf,
    infile wf = {| in_data := data; in_cuts := cuts; in_error := false |} ->
    out_room (outfile wf) = None ->
    outlen wb = 0 ->
    (let buf_run := scryptenc_buf data passwd maxmem maxmemfrac maxtime wb in
     let file_run := scryptenc_file passwd maxmem maxmemfrac maxtime wf in
     snd file_run = snd buf_run /\
     (snd buf_run = Ok tt ->
      out_data (outfile (fst file_run))
      = out_data (outfile wf) ++ take (len data + 128) (outbuf (fst buf_run)))) /\
    (let buf_run := scryptdec_buf data passwd maxmem maxmemfrac maxtime wb in
     let file_run := scryptdec_file passwd maxmem maxmemfrac maxtime wf in
     out_data (outfile (fst file_run))
     = out_data (outfile wf) ++ take (outlen (fst buf_run)) (outbuf (fst buf_run)) /\
     (128 <= len data -> snd file_run = snd buf_run)).
Proof.
  intros OK passwd maxmem maxmemfrac maxtime data cuts wb wf Hin Hroom Hzero.
  split.
  - apply (scryptenc_file_matches_buf OK _ _ _ _ _ cuts); assumption.
  - apply (scryptdec_file_matches_buf _ _ _ _ _ cuts); assumption.
Qed.

Lemma streaming_matches_buffer_witness :
  let wb := Demo.blank 300 in
  let wf := Demo.reading Demo.container [20; 50; 1; 1; 3] in
  (let buf_run := @scryptenc_buf Demo.fast Demo.container Demo.passwd 0 half
                    Demo.one_second wb in
   let file_run := @scryptenc_file Demo.fast Demo.passwd 0 half Demo.one_second wf in
   snd file_run = snd buf_run /\
   (snd buf_run = Ok tt ->
    out_data (outfile (fst file_run))
    = out_data (outfile wf) ++ take (len Demo.container + 128) (outbuf (fst buf_run)))) /\
  (let buf_run := @scryptdec_buf Demo.fast Demo.container Demo.passwd 0 half
                    Demo.one_second wb in
   let file_run := @scryptdec_file Demo.fast Demo.passwd 0 half Demo.one_second wf in
   out_data (outfile (fst file_run))
   = out_data (outfile wf) ++ take (outlen (fst buf_run)) (outbuf (fst buf_run)) /\
   (128 <= len Demo.container -> snd file_run = snd buf_run)).
Proof.
  exact (@streaming_matches_buffer Demo.fast (platform_ok _) Demo.passwd 0 half
           Demo.one_second Demo.container [20; 50; 1; 1; 3] (Demo.blank 300)
           (Demo.reading Demo.container [20; 50; 1; 1; 3])
           eq_refl eq_refl eq_refl).
Defined.

(** * Further properties of the code *)

(** ** Inputs that [scryptdec_buf] and [scryptdec_file] turn down early *)

Section EarlyReturns.
Context `{Primitives}.

(** X1: an input of fewer than 128 bytes is turned down by [scryptdec_buf]
    before anything else happens: the world is the one it was called in (no
    key derivation, nothing written), and the code is 8 when the input has
    the 6 magic bytes and a version byte other than 0, 7 otherwise. *)
Theorem scryptdec_buf_short_input :
  forall inbuf passwd maxmem maxmemfrac maxtime w,
    len inbuf < 128 ->
    scryptdec_buf inbuf passwd maxmem maxmemfrac maxtime w
    = (w, Err (if (7 <=? len inbuf) && bytes_eqb (take 6 inbuf) magic
                  && negb (at_ 6 inbuf =? 0)
               then 8 else 7)).
Proof.
  intros inbuf passwd maxmem maxmemfrac maxtime w Hshort.
  unfold scryptdec_buf. cbv zeta. unfold memcmp.
  destruct (len inbuf <? 7) eqn:E7.
  - apply Z.ltb_lt in E7.
    replace (7 <=? len inbuf) with false by (symmetry; apply Z.leb_gt; lia).
    reflexivity.
  - apply Z.ltb_ge in E7.
    replace (7 <=? len inbuf) with true by (symmetry; apply Z.leb_le; lia).
    cbn [orb andb].
    destruct (bytes_eqb (take 6 inbuf) magic); cbn [negb andb]; [|reflexivity].
    destruct (at_ 6 inbuf =? 0); cbn [negb]; [|reflexivity].
    replace (len inbuf <? 128) with true by (symmetry; apply Z.ltb_lt; lia).
    reflexivity.
Qed.

(** X2: a container of any length that starts with the magic bytes and
    has a version byte other than 0 gets the code 8 from both decryption
    entry points, with no key derivation; the stream has lost the 7 bytes
    read. *)
Theorem unknown_version_rejected :
  forall inbuf passwd maxmem maxmemfrac maxtime w,
    7 <= len inbuf -> take 6 inbuf = magic -> at_ 6 inbuf <> 0 ->
    scryptdec_buf inbuf passwd maxmem maxmemfrac maxtime w = (w, Err 8) /\
    forall cuts error,
      scryptdec_file passwd maxmem maxmemfrac maxtime
        (set_infile {| in_data := inbuf; in_cuts := cuts; in_error := error |} w)
      = (set_infile {| in_data := drop 7 inbuf; in_cuts := cuts;
                       in_error := error |} w, Err 8).
Proof.
  intros inbuf passwd maxmem maxmemfrac maxtime w Hlen Hmagic Hver.
  apply Z.eqb_neq in Hver.
  split.
  - unfold scryptdec_buf. cbv zeta.
    replace (len inbuf <? 7) with false by (symmetry; apply Z.ltb_ge; lia).
    rewrite Hmagic, memcmp_same, Hver. reflexivity.
  - intros cuts error. unfold scryptdec_file, bind, fread_item.
    cbn [infile set_infile in_data in_cuts in_error].
    replace (7 <=? len inbuf) with true by (symmetry; apply Z.leb_le; lia).
    assert (H6 : take 6 (take 7 inbuf) = take 6 inbuf)
      by (rewrite take_take; reflexivity).
    assert (H7 : at_ 6 (take 7 inbuf) = at_ 6 inbuf) by (apply at_take; lia).
    rewrite H6, H7, Hmagic, memcmp_same, Hver. reflexivity.
Qed.

(** X3: a stream that ends before the 96 bytes of the header are read
    (with the magic and version right as far as they are there) makes
    [scryptdec_file] return 13 when the stream is in error and 7 when it
    is not; the stream is used up, no key is derived and nothing is
    written. *)
Theorem scryptdec_file_truncated_header :
  forall data cuts error passwd maxmem maxmemfrac maxtime w,
    len data < 96 ->
    (7 <= len data -> take 6 data = magic /\ at_ 6 data = 0) ->
    scryptdec_file passwd maxmem maxmemfrac maxtime
      (set_infile {| in_data := data; in_cuts := cuts; in_error := error |} w)
    = (set_infile {| in_data := []; in_cuts := cuts; in_error := error |} w,
       Err (if error then 13 else 7)).
Proof.
  intros data cuts error passwd maxmem maxmemfrac maxtime w Hshort Hhead.
  unfold scryptdec_file, bind, fread_item.
  cbn [infile set_infile in_data in_cuts in_error].
  destruct (7 <=? len data) eqn:E7.
  - apply Z.leb_le in E7. destruct (Hhead E7) as [Hmagic Hver].
    assert (H6 : take 6 (take 7 data) = take 6 data)
      by (rewrite take_take; reflexivity).
    assert (H7 : at_ 6 (take 7 data) = at_ 6 data) by (apply at_take; lia).
    rewrite H6, H7, Hmagic, memcmp_same, Hver.
    cbn [Z.eqb negb infile set_infile in_data in_cuts in_error].
    assert (Hrest : len (drop 7 data) = len data - 7) by (rewrite len_drop; lia).
    replace (89 <=? len (drop 7 data)) with false
      by (symmetry; apply Z.leb_gt; lia).
    unfold ferror, gets. cbn [infile set_infile in_data in_error is_nil].
    rewrite andb_true_r. destruct error; reflexivity.
  - unfold ferror, gets. cbn [infile set_infile in_data in_error is_nil].
    rewrite andb_true_r. destruct error; reflexivity.
Qed.

End EarlyReturns.

(** ** The header inside a longer buffer *)

Lemma drop_take (a b : Z) (l : list byte) :
  0 <= a <= b -> drop a (take b l) = take (b - a) (drop a l).
Proof.
  intros Hab. unfold drop, take.
  rewrite firstn_skipn_comm. do 2 f_equal. lia.
Qed.

Lemma slice_take (off n k : Z) (l : list byte) :
  0 <= off -> 0 <= n -> off + n <= k -> slice off n (take k l) = slice off n l.
Proof.
  intros Hoff Hn Hk. unfold slice. rewrite drop_take by lia.
  rewrite take_take. f_equal. lia.
Qed.

Lemma be32dec_take (n : Z) (b : list byte) :
  4 <= n -> be32dec (take n b) = be32dec b.
Proof.
  intros Hn. unfold be32dec. rewrite !at_take by lia. reflexivity.
Qed.

Lemma be32dec_drop_take (off k : Z) (l : list byte) :
  0 <= off -> off + 4 <= k -> be32dec (drop off (take k l)) = be32dec (drop off l).
Proof.
  intros Hoff Hk. rewrite drop_take by lia. apply be32dec_take. lia.
Qed.

Section Header.
Context `{Primitives}.

(** [scryptdec_setup] reads its 96-byte header only: on the first 96
    bytes of a longer buffer it is what [scryptdec_setup_spec] says, with
    the fields read in the buffer itself. *)
Lemma scryptdec_setup_prefix inbuf passwd maxmem maxmemfrac maxtime w :
  96 <= len inbuf ->
  scryptdec_setup (take 96 inbuf) passwd maxmem maxmemfrac maxtime w =
  if memcmp (slice 48 16 inbuf) (take 16 (SHA256_Buf (take 48 inbuf)))
  then (w, Err 7)
  else
    let logN := at_ 7 inbuf in
    let r := be32dec (drop 8 inbuf) in
    let p := be32dec (drop 12 inbuf) in
    let salt := slice 16 32 inbuf in
    match checkparams maxmem maxmemfrac maxtime logN r p with
    | Err rc => (w, Err rc)
    | Undef => (w, Undef)
    | Ok _ =>
      let w' := log_scrypt (passwd, salt, 2 ^ logN, r, p, 64) w in
      match crypto_scrypt passwd salt (2 ^ logN) r p 64 with
      | None => (w', Err 3)
      | Some out =>
        (set_dk out w',
         if memcmp (take 32 (HMAC_SHA256_Buf (slice 32 32 out) (take 64 inbuf)))
                   (slice 64 32 inbuf)
         then Err 11 else Ok tt)
      end
    end.
Proof.
  intros Hlen. rewrite scryptdec_setup_spec. cbv zeta.
  rewrite !slice_take by lia. rewrite !take_take.
  rewrite at_take by lia. rewrite !be32dec_drop_take by lia.
  reflexivity.
Qed.

End Header.

Section Decryption.
Context `{Primitives}.

(** X4: what a successful [scryptdec_buf] has checked.  A return of 0
    means that the input has at least 128 bytes, the magic and version 0,
    a header checksum that matches, parameters that [checkparams] admits,
    a header signature and a trailing tag that are the HMACs, under the
    second half of the derived key, of the bytes before them; the output
    is the payload xored with the key stream and [dk] is zeroed. *)
Theorem scryptdec_buf_success :
  forall inbuf passwd maxmem maxmemfrac maxtime w w1,
    scryptdec_buf inbuf passwd maxmem maxmemfrac maxtime w = (w1, Ok tt) ->
    let n := len inbuf in
    let logN := at_ 7 inbuf in
    let r := be32dec (drop 8 inbuf) in
    let p := be32dec (drop 12 inbuf) in
    128 <= n /\ take 6 inbuf = magic /\ at_ 6 inbuf = 0 /\
    slice 48 16 inbuf = take 16 (SHA256_Buf (take 48 inbuf)) /\
    checkparams maxmem maxmemfrac maxtime logN r p = Ok tt /\
    exists out key,
      crypto_scrypt passwd (slice 16 32 inbuf) (2 ^ logN) r p 64 = Some out /\
      slice 64 32 inbuf
      = take 32 (HMAC_SHA256_Buf (slice 32 32 out) (take 64 inbuf)) /\
      slice (n - 32) 32 inbuf
      = take 32 (HMAC_SHA256_Buf (slice 32 32 out) (take (n - 32) inbuf)) /\
      crypto_aes_key_expand (take 32 out) = Some key /\
      outbuf w1
      = memcpy (outbuf w) 0 (xor_keystream key 0 0 (slice 96 (n - 128) inbuf)) /\
      outlen w1 = n - 128 /\
      dk w1 = repeat 0 64.
Proof.
  intros inbuf passwd maxmem maxmemfrac maxtime w w1 Hrun. cbv zeta.
  assert (Hpre : 128 <= len inbuf /\ take 6 inbuf = magic /\ at_ 6 inbuf = 0).
  { unfold scryptdec_buf in Hrun. cbv zeta in Hrun.
    destruct (len inbuf <? 7) eqn:E7; [discriminate Hrun|].
    cbn [orb] in Hrun.
    destruct (memcmp (take 6 inbuf) magic) eqn:Em; [discriminate Hrun|].
    destruct (at_ 6 inbuf =? 0) eqn:E6; [|discriminate Hrun].
    cbn [negb] in Hrun.
    destruct (len inbuf <? 128) eqn:E128; [discriminate Hrun|].
    apply Z.ltb_ge in E128. apply memcmp_false in Em. apply Z.eqb_eq in E6.
    auto. }
  destruct Hpre as (Hlen & Hmagic & Hver).
  rewrite scryptdec_buf_spec in Hrun by assumption.
  rewrite scryptdec_setup_prefix in Hrun by lia. cbv zeta in Hrun.
  destruct (memcmp (slice 48 16 inbuf) _) eqn:Esum; [discriminate Hrun|].
  apply memcmp_false in Esum.
  destruct (checkparams _ _ _ _ _ _) as [[]|rc|] eqn:Echeck; try discriminate Hrun.
  destruct (crypto_scrypt _ _ _ _ _ _) as [out|] eqn:Escrypt; [|discriminate Hrun].
  destruct (memcmp (take 32 (HMAC_SHA256_Buf (slice 32 32 out) (take 64 inbuf))) _)
    eqn:Esig; [discriminate Hrun|].
  apply memcmp_false in Esig.
  cbn [dk set_dk log_scrypt outbuf] in Hrun.
  destruct (crypto_aes_key_expand (take 32 out)) as [key|] eqn:Ekey;
    [|discriminate Hrun].
  destruct aesctr_alloc; [|discriminate Hrun].
  destruct (memcmp (take 32 (HMAC_SHA256_Buf (slice 32 32 out)
                               (take (len inbuf - 32) inbuf))) _) eqn:Etag;
    [discriminate Hrun|].
  apply memcmp_false in Etag.
  apply (f_equal fst) in Hrun. cbn [fst] in Hrun. subst w1.
  repeat (split; [assumption || reflexivity|]).
  exists out, key.
  repeat (split; [solve [assumption | reflexivity | symmetry; assumption]|]).
  reflexivity.
Qed.

(** X5: with a password whose derived key does not give the header
    signature, [scryptdec_buf] returns 11 and [scryptdec_file] does too:
    nothing is decrypted, the output buffer, [outlen] and the output
    stream are as they were. *)
Theorem wrong_password_decrypts_nothing :
  forall inbuf passwd maxmem maxmemfrac maxtime out,
    let logN := at_ 7 inbuf in
    let r := be32dec (drop 8 inbuf) in
    let p := be32dec (drop 12 inbuf) in
    let call := (passwd, slice 16 32 inbuf, 2 ^ logN, r, p, 64) in
    128 <= len inbuf -> take 6 inbuf = magic -> at_ 6 inbuf = 0 ->
    slice 48 16 inbuf = take 16 (SHA256_Buf (take 48 inbuf)) ->
    checkparams maxmem maxmemfrac maxtime logN r p = Ok tt ->
    crypto_scrypt passwd (slice 16 32 inbuf) (2 ^ logN) r p 64 = Some out ->
    take 32 (HMAC_SHA256_Buf (slice 32 32 out) (take 64 inbuf))
    <> slice 64 32 inbuf ->
    (forall w,
        scryptdec_buf inbuf passwd maxmem maxmemfrac maxtime w
        = (set_dk out (log_scrypt call w), Err 11)) /\
    (forall cuts error w,
        scryptdec_file passwd maxmem maxmemfrac maxtime
          (set_infile {| in_data := inbuf; in_cuts := cuts; in_error := error |} w)
        = (set_dk out
             (log_scrypt call
                (set_infile {| in_data := drop 96 inbuf; in_cuts := cuts;
                               in_error := error |} w)), Err 11)).
Proof.
  intros inbuf passwd maxmem maxmemfrac maxtime out logN r p call
    Hlen Hmagic Hver Hsum Hcheck Hscrypt Hsig.
  assert (Hsetup : forall w,
             scryptdec_setup (take 96 inbuf) passwd maxmem maxmemfrac maxtime w
             = (set_dk out (log_scrypt call w), Err 11)).
  { intros w. rewrite scryptdec_setup_prefix by lia. cbv zeta.
    rewrite Hsum, memcmp_same.
    fold logN r p. rewrite Hcheck, Hscrypt.
    rewrite (memcmp_differ _ _ Hsig). reflexivity. }
  split.
  - intros w. rewrite scryptdec_buf_spec by assumption.
    rewrite Hsetup. reflexivity.
  - intros cuts error w. unfold scryptdec_file, bind, fread_item.
    cbn [infile set_infile in_data in_cuts in_error].
    replace (7 <=? len inbuf) with true by (symmetry; apply Z.leb_le; lia).
    assert (H6 : take 6 (take 7 inbuf) = take 6 inbuf)
      by (rewrite take_take; reflexivity).
    assert (H7 : at_ 6 (take 7 inbuf) = at_ 6 inbuf) by (apply at_take; lia).
    rewrite H6, H7, Hmagic, memcmp_same, Hver.
    cbn [Z.eqb negb infile set_infile in_data in_cuts in_error].
    assert (Hrest : len (drop 7 inbuf) = len inbuf - 7) by (rewrite len_drop; lia).
    replace (89 <=? len (drop 7 inbuf)) with true
      by (symmetry; apply Z.leb_le; lia).
    assert (Hheader : take 7 inbuf ++ take 89 (drop 7 inbuf) = take 96 inbuf).
    { change 96 with (7 + 89). rewrite take_add by lia. reflexivity. }
    rewrite Hheader, Hsetup.
    rewrite drop_drop by lia. reflexivity.
Qed.

(** X6: a header with block size [r = 0] is not turned down: with the
    magic, the version, the checksum and a [logN] from 1 to 63 in place,
    [checkparams] reaches [(memlimit / N) / r] and divides by zero, which C
    leaves undefined; [scryptdec_buf] has no result. *)
Theorem zero_block_size_divides_by_zero :
  forall inbuf passwd maxmem maxmemfrac maxtime memlimit opps w,
    128 <= len inbuf -> take 6 inbuf = magic -> at_ 6 inbuf = 0 ->
    slice 48 16 inbuf = take 16 (SHA256_Buf (take 48 inbuf)) ->
    1 <= at_ 7 inbuf <= 63 ->
    be32dec (drop 8 inbuf) = 0 ->
    memtouse maxmem maxmemfrac = Ok memlimit ->
    scryptenc_cpuperf = Ok opps ->
    checkparams maxmem maxmemfrac maxtime (at_ 7 inbuf) 0
                (be32dec (drop 12 inbuf)) = Undef /\
    scryptdec_buf inbuf passwd maxmem maxmemfrac maxtime w = (w, Undef).
Proof.
  intros inbuf passwd maxmem maxmemfrac maxtime memlimit opps w
    Hlen Hmagic Hver Hsum HlogN Hr Hmem Hperf.
  assert (Hcheck : checkparams maxmem maxmemfrac maxtime (at_ 7 inbuf) 0
                     (be32dec (drop 12 inbuf)) = Undef).
  { unfold checkparams. rewrite Hmem, Hperf. cbn [rbind].
    unfold checkparams_limits. cbv zeta.
    destruct (at_ 7 inbuf <? 1) eqn:E1; [apply Z.ltb_lt in E1; lia|].
    destruct (at_ 7 inbuf >? 63) eqn:E2; [apply Z.gtb_lt in E2; lia|].
    rewrite shl64_pow2 by lia. reflexivity. }
  split; [exact Hcheck|].
  rewrite scryptdec_buf_spec by assumption.
  rewrite scryptdec_setup_prefix by lia. cbv zeta.
  rewrite Hsum, memcmp_same, Hr, Hcheck. reflexivity.
Qed.

End Decryption.

(** ** What [checkparams] lets through *)

Lemma binary_round_aux_not_negative (mx ex : Z) (lx : location) :
  not_negative (binary_round_aux prec emax false mx ex lx).
Proof.
  unfold binary_round_aux.
  destruct (shr_fexp prec emax mx ex lx) as [mrs' e'].
  destruct (shr_fexp prec emax _ e' loc_Exact) as [mrs'' e''].
  destruct (shr_m mrs'') as [|m|m].
  - reflexivity.
  - destruct (e'' <=? emax - prec); reflexivity.
  - exact I.
Qed.

(** A quotient by zero is an infinity or a NaN, never below 4. *)
Lemma div_by_zero_not_below_four (x : double) :
  not_negative x -> ltb (div x (of_Z 0)) (of_Z 4) = false.
Proof.
  destruct x as [s|s| |s m e]; cbn [not_negative]; intros Hs; subst;
    reflexivity.
Qed.

Lemma div_not_negative (x : double) (m : positive) (e : Z) :
  ltb x (of_Z 0) = false ->
  not_negative (div x (S754_finite false m e)) \/ x = S754_zero true.
Proof.
  destruct x as [[|]|[|]| |[|] mx ex]; intros Hx; try discriminate Hx;
    try (left; cbn; reflexivity || exact I); try (left; cbn; exact I).
  - right. reflexivity.
  - left. unfold div, SFdiv.
    destruct (SFdiv_core_binary prec emax (Zpos mx) ex (Zpos m) e) as [[mz ez] lz].
    apply binary_round_aux_not_negative.
Qed.

(** X7: [checkparams] has no test for [p = 0].  For a header with
    [p = 0], a [logN] from 1 to 63, a block size [r > 0] that fits the
    memory and an operations budget that is not negative (a zero budget
    and a NaN included), the quotient by [r * p = 0] is an infinity or a
    NaN, the processor-time test [< 4] is false and the result is 0. *)
Theorem zero_parallelism_passes_checkparams :
  forall memlimit opps maxtime logN r,
    1 <= logN <= 63 -> 0 < r < 2 ^ 32 ->
    128 * 2 ^ logN * r <= memlimit ->
    ltb (mul opps maxtime) (of_Z 0) = false ->
    checkparams_limits memlimit opps maxtime logN r 0 = Ok tt.
Proof.
  intros memlimit opps maxtime logN r HlogN Hr Hmem Hbudget.
  unfold checkparams_limits. cbv zeta.
  destruct (logN <? 1) eqn:E1; [apply Z.ltb_lt in E1; lia|].
  destruct (logN >? 63) eqn:E2; [apply Z.gtb_lt in E2; lia|].
  cbn [orb].
  replace (u64 0) with 0 by reflexivity. rewrite Z.mul_0_r.
  change (0 >=? 1073741824) with false. cbv iota.
  rewrite shl64_pow2 by lia. cbn [rbind].
  destruct (r =? 0) eqn:E3; [apply Z.eqb_eq in E3; lia|].
  assert (H0 : 0 < 2 ^ logN) by (apply Z.pow_pos_nonneg; lia).
  assert (Hq : 128 <= memlimit / 2 ^ logN / r).
  { apply Z.div_le_lower_bound; [lia|].
    apply Z.div_le_lower_bound; [lia|]. nia. }
  destruct (memlimit / 2 ^ logN / r <? 128) eqn:E4; [apply Z.ltb_lt in E4; lia|].
  rewrite Z.mul_0_r. change (u32 0) with 0.
  rewrite of_Z_small_pow2 by lia.
  destruct (div_not_negative (mul opps maxtime) (2 ^ 52) (logN - 52) Hbudget)
    as [Hsign | Hzero].
  - rewrite (div_by_zero_not_below_four _ Hsign). reflexivity.
  - rewrite Hzero. reflexivity.
Qed.

(** X8: the memory test of [checkparams], [(memlimit / N) / r < 128],
    is the comparison of [128 * N * r] with [memlimit] it stands for, with
    no overflow: for parameters that pass the sanity tests the result is 9
    exactly when [memlimit < 128 * 2^logN * r]. *)
Theorem checkparams_memory_test :
  forall memlimit opps maxtime logN r p,
    0 <= memlimit ->
    1 <= logN <= 63 -> 0 < r < 2 ^ 32 -> 0 <= p < 2 ^ 32 -> r * p < 2 ^ 30 ->
    (checkparams_limits memlimit opps maxtime logN r p = Err 9
     <-> memlimit < 128 * 2 ^ logN * r).
Proof.
  intros memlimit opps maxtime logN r p Hmem HlogN Hr Hp Hrp.
  unfold checkparams_limits. cbv zeta.
  destruct (logN <? 1) eqn:E1; [apply Z.ltb_lt in E1; lia|].
  destruct (logN >? 63) eqn:E2; [apply Z.gtb_lt in E2; lia|].
  cbn [orb].
  assert (Hu : u64 r * u64 p = r * p).
  { unfold u64. assert (2 ^ 32 < 2 ^ 64) by (apply Z.pow_lt_mono_r; lia).
    rewrite !Z.mod_small by lia. reflexivity. }
  rewrite Hu.
  destruct (r * p >=? 1073741824) eqn:E3; [apply Z.geb_le in E3; lia|].
  rewrite shl64_pow2 by lia. cbn [rbind].
  destruct (r =? 0) eqn:E4; [apply Z.eqb_eq in E4; lia|].
  assert (H0 : 0 < 2 ^ logN) by (apply Z.pow_pos_nonneg; lia).
  rewrite Z.div_div by lia.
  assert (Hiff : memlimit / (2 ^ logN * r) < 128 <-> memlimit < 128 * 2 ^ logN * r).
  { split; intros Hlt.
    - destruct (Z_lt_ge_dec memlimit (128 * 2 ^ logN * r)) as [|Hge]; [assumption|].
      assert (128 <= memlimit / (2 ^ logN * r))
        by (apply Z.div_le_lower_bound; nia).
      lia.
    - apply Z.div_lt_upper_bound; nia. }
  destruct (memlimit / (2 ^ logN * r) <? 128) eqn:E5.
  - apply Z.ltb_lt in E5. split; [intros _; apply Hiff, E5 | reflexivity].
  - apply Z.ltb_ge in E5. split.
    + destruct (ltb _ _); discriminate.
    + intros Hlt. apply Hiff in Hlt. lia.
Qed.

(** ** What [scryptenc_buf] leaves in the output buffer *)

Section Encryption.
Context `{Primitives}.
Hypothesis OK : primitives_ok _.

(** A successful [scryptenc_buf], step by step. *)
Lemma scryptenc_buf_output inbuf passwd maxmem maxmemfrac maxtime w w1 :
  scryptenc_buf inbuf passwd maxmem maxmemfrac maxtime w = (w1, Ok tt) ->
  exists logN p salt out key,
    pickparams maxmem maxmemfrac maxtime = Ok (logN, 8, p) /\
    1 <= logN <= 63 /\ 0 <= p < 2 ^ 29 /\
    crypto_entropy_read 32 = Some salt /\ len salt = 32 /\
    crypto_scrypt passwd salt (2 ^ logN) 8 p 64 = Some out /\
    crypto_aes_key_expand (take 32 out) = Some key /\
    aesctr_alloc = true /\
    let header := sealed (slice 32 32 out) (record_head logN 8 p salt) in
    let ct := xor_keystream key 0 0 inbuf in
    let tag := take 32 (HMAC_SHA256_Buf (slice 32 32 out) (header ++ ct)) in
    len header = 96 /\ len ct = len inbuf /\ len tag = 32 /\
    w1 = set_dk (repeat 0 64)
           (set_outbuf (header ++ ct ++ tag ++ drop (len inbuf + 128) (outbuf w))
              (set_dk out (log_scrypt (passwd, salt, 2 ^ logN, 8, p, 64) w))).
Proof.
  intros Henc.
  rewrite scryptenc_buf_spec, scryptenc_setup_spec in Henc by assumption.
  destruct (pickparams maxmem maxmemfrac maxtime) as [[[logN r] p]|rc|] eqn:Hpick;
    try discriminate.
  destruct (pickparams_range _ _ _ _ _ _ Hpick) as (HlogN & -> & Hp).
  destruct (crypto_entropy_read 32) as [salt|] eqn:Esalt; [|discriminate].
  pose proof (crypto_entropy_len OK _ _ Esalt) as Hsalt.
  cbv zeta in Henc.
  destruct (crypto_scrypt passwd salt (2 ^ logN) 8 p 64) as [out|] eqn:Escrypt;
    [|discriminate].
  cbn [dk set_dk outbuf log_scrypt] in Henc.
  destruct (crypto_aes_key_expand (take 32 out)) as [key|] eqn:Ekey; [|discriminate].
  destruct aesctr_alloc eqn:Ealloc; [|discriminate].
  exists logN, p, salt, out, key.
  repeat (split; [assumption || reflexivity || lia|]).
  cbv zeta.
  remember (sealed (slice 32 32 out) (record_head logN 8 p salt)) as header
    eqn:Hdef.
  assert (Hheader : len header = 96) by (subst header; apply len_sealed; assumption).
  remember (xor_keystream key 0 0 inbuf) as ct eqn:Hctdef.
  assert (Hct : len ct = len inbuf) by (subst ct; apply len_xor_keystream).
  rewrite <- Hct in Henc.
  destruct (container_written (outbuf w) header ct
              (take 32 (HMAC_SHA256_Buf (slice 32 32 out) (header ++ ct))) Hheader)
    as [Hsigned Hfinal].
  rewrite Hsigned in Henc. rewrite Hfinal in Henc. clear Hsigned Hfinal.
  remember (take 32 (HMAC_SHA256_Buf (slice 32 32 out) (header ++ ct))) as tag
    eqn:Htagdef.
  assert (Htag : len tag = 32) by (subst tag; apply len_take_hmac, OK).
  split; [assumption|]. split; [assumption|]. split; [assumption|].
  apply (f_equal fst) in Henc. cbn [fst] in Henc. subst w1.
  rewrite Htag.
  replace (96 + len ct + 32) with (len inbuf + 128) by lia.
  reflexivity.
Qed.

(** X9: the container [scryptenc_buf] writes.  On success the output
    buffer keeps its length and everything after the first
    [inbuflen + 128] bytes; it starts with the magic and the version 0,
    carries at offsets 7, 8 and 12 the [logN], [r] and [p] that
    [pickparams] chose and at offset 16 the salt read from the entropy
    source, and its bytes 48 to 63 are the checksum of the 48 before; the
    derived key is zeroed and [outlen] is not touched. *)
Theorem scryptenc_buf_layout :
  forall inbuf passwd maxmem maxmemfrac maxtime w w1,
    len inbuf + 128 <= len (outbuf w) ->
    scryptenc_buf inbuf passwd maxmem maxmemfrac maxtime w = (w1, Ok tt) ->
    let o := outbuf w1 in
    len o = len (outbuf w) /\
    drop (len inbuf + 128) o = drop (len inbuf + 128) (outbuf w) /\
    take 6 o = magic /\ at_ 6 o = 0 /\
    pickparams maxmem maxmemfrac maxtime
    = Ok (at_ 7 o, be32dec (drop 8 o), be32dec (drop 12 o)) /\
    crypto_entropy_read 32 = Some (slice 16 32 o) /\
    slice 48 16 o = take 16 (SHA256_Buf (take 48 o)) /\
    dk w1 = repeat 0 64 /\ outlen w1 = outlen w.
Proof.
  intros inbuf passwd maxmem maxmemfrac maxtime w w1 Hcap Henc.
  destruct (scryptenc_buf_output _ _ _ _ _ _ _ Henc)
    as (logN & p & salt & out & key & Hpick & HlogN & Hp & Hsalt & Hsaltlen
        & Hscrypt & Hkey & Halloc & Hshape).
  cbv zeta in Hshape. destruct Hshape as (Hheader & Hct & Htag & ->).
  cbn [outbuf dk outlen set_dk set_outbuf log_scrypt]. cbv zeta.
  set (c := take 16 (SHA256_Buf (record_head logN 8 p salt))) in *.
  assert (Hc : len c = 16) by (apply len_take_sha, OK).
  set (ct := xor_keystream key 0 0 inbuf) in *.
  set (tag := take 32 (HMAC_SHA256_Buf (slice 32 32 out)
                         (sealed (slice 32 32 out) (record_head logN 8 p salt) ++ ct))) in *.
  set (rest := ct ++ tag ++ drop (len inbuf + 128) (outbuf w)).
  pose proof (len_nonneg inbuf) as Hin.
  assert (Hprefix : take 96 (sealed (slice 32 32 out) (record_head logN 8 p salt) ++ rest)
                    = sealed (slice 32 32 out) (record_head logN 8 p salt))
    by (apply take_app_exact; assumption).
  set (o := sealed (slice 32 32 out) (record_head logN 8 p salt) ++ rest) in *.
  assert (P32 : 2 ^ 29 < 2 ^ 32) by (apply Z.pow_lt_mono_r; lia).
  split.
  { subst o rest. rewrite !len_app, Hheader, Hct, Htag, len_drop. lia. }
  split.
  { subst o rest.
    replace (sealed (slice 32 32 out) (record_head logN 8 p salt) ++ ct ++ tag
             ++ drop (len inbuf + 128) (outbuf w))
      with ((sealed (slice 32 32 out) (record_head logN 8 p salt) ++ ct ++ tag)
            ++ drop (len inbuf + 128) (outbuf w))
      by (rewrite <- !app_assoc; reflexivity).
    apply drop_app_exact. rewrite !len_app, Hheader, Hct, Htag. lia. }
  split.
  { rewrite <- (take_take 6 96 o) at 1. rewrite Hprefix.
    unfold sealed. apply rec_take_6. }
  split.
  { rewrite <- (at_take 6 96 o) by lia. rewrite Hprefix.
    unfold sealed. apply rec_at_6. }
  split.
  { rewrite <- (at_take 7 96 o) by lia.
    rewrite <- (be32dec_drop_take 8 96 o) by lia.
    rewrite <- (be32dec_drop_take 12 96 o) by lia.
    rewrite Hprefix. unfold sealed. fold c.
    rewrite rec_at_7, rec_r, rec_p by (assumption || lia).
    rewrite u8_small by lia. exact Hpick. }
  split.
  { rewrite <- (slice_take 16 32 96 o) by lia. rewrite Hprefix.
    unfold sealed. fold c. rewrite rec_salt by assumption.
    rewrite take_all by lia. exact Hsalt. }
  split.
  { rewrite <- (slice_take 48 16 96 o) by lia.
    rewrite <- (take_take 48 96 o) at 1.
    rewrite Hprefix. unfold sealed. fold c.
    rewrite rec_checksum, rec_take_48 by assumption. reflexivity. }
  split; reflexivity.
Qed.

(** X10: a failing [scryptenc_buf] writes no ciphertext and no tag.
    Whatever the code, the output buffer after byte 96 is as it was; only
    the failures of the cipher set-up (5 and 6) come after the header has
    been copied, every other failure leaves the whole buffer alone. *)
Theorem scryptenc_buf_failure :
  forall inbuf passwd maxmem maxmemfrac maxtime w w1 res,
    len inbuf + 128 <= len (outbuf w) ->
    scryptenc_buf inbuf passwd maxmem maxmemfrac maxtime w = (w1, res) ->
    res <> Ok tt ->
    drop 96 (outbuf w1) = drop 96 (outbuf w) /\
    outlen w1 = outlen w /\
    (res <> Err 5 -> res <> Err 6 -> outbuf w1 = outbuf w).
Proof.
  intros inbuf passwd maxmem maxmemfrac maxtime w w1 res Hcap Henc Hres.
  rewrite scryptenc_buf_spec, scryptenc_setup_spec in Henc by assumption.
  destruct (pickparams maxmem maxmemfrac maxtime) as [[[logN r] p]|rc|] eqn:Hpick.
  - destruct (crypto_entropy_read 32) as [salt|] eqn:Esalt.
    + pose proof (crypto_entropy_len OK _ _ Esalt) as Hsalt.
      cbv zeta in Henc.
      destruct (crypto_scrypt passwd salt (2 ^ logN) r p 64) as [out|] eqn:Escrypt.
      * cbn [dk set_dk outbuf log_scrypt] in Henc.
        assert (Hheader : len (sealed (slice 32 32 out) (record_head logN r p salt)) = 96)
          by (apply len_sealed; assumption).
        set (header := sealed (slice 32 32 out) (record_head logN r p salt)) in *.
        assert (Hcopy : drop 96 (memcpy (outbuf w) 0 header) = drop 96 (outbuf w)).
        { unfold memcpy. rewrite (take_nonpos 0) by lia. cbn [app].
          rewrite Hheader. apply drop_app_exact. exact Hheader. }
        destruct (crypto_aes_key_expand (take 32 out)) as [key|] eqn:Ekey.
        -- destruct aesctr_alloc.
           ++ apply pair_equal_spec in Henc. destruct Henc as [_ <-].
              contradiction Hres. reflexivity.
           ++ apply pair_equal_spec in Henc. destruct Henc as [<- <-].
              cbn [outbuf outlen set_outbuf set_dk log_scrypt].
              split; [exact Hcopy|]. split; [reflexivity|].
              intros _ H6. contradiction H6. reflexivity.
        -- apply pair_equal_spec in Henc. destruct Henc as [<- <-].
           cbn [outbuf outlen set_outbuf set_dk log_scrypt].
           split; [exact Hcopy|]. split; [reflexivity|].
           intros H5. contradiction H5. reflexivity.
      * apply pair_equal_spec in Henc. destruct Henc as [<- <-].
        cbn [outbuf outlen log_scrypt]. auto.
    + apply pair_equal_spec in Henc. destruct Henc as [<- <-]. auto.
  - apply pair_equal_spec in Henc. destruct Henc as [<- <-]. auto.
  - apply pair_equal_spec in Henc. destruct Henc as [<- <-]. auto.
Qed.

End Encryption.

(** ** Streams that fail *)

Section StreamFailures.
Context `{Primitives}.
Hypothesis OK : primitives_ok _.

(** [scryptenc_setup] works on [dk] and the log of derivations only. *)
Lemma scryptenc_setup_files passwd maxmem maxmemfrac maxtime w w1 r :
  scryptenc_setup passwd maxmem maxmemfrac maxtime w = (w1, r) ->
  infile w1 = infile w /\ outfile w1 = outfile w /\
  outbuf w1 = outbuf w /\ outlen w1 = outlen w /\
  (forall header, r = Ok header -> len header = 96).
Proof.
  rewrite scryptenc_setup_spec by assumption. intros E.
  destruct (pickparams maxmem maxmemfrac maxtime) as [[[logN r0] p]|rc|].
  - destruct (crypto_entropy_read 32) as [salt|] eqn:Esalt.
    + pose proof (crypto_entropy_len OK _ _ Esalt) as Hsalt.
      cbv zeta in E.
      destruct (crypto_scrypt passwd salt (2 ^ logN) r0 p 64) as [out|].
      * apply pair_equal_spec in E. destruct E as [<- <-].
        repeat (split; [reflexivity|]).
        intros header [= <-]. apply len_sealed; assumption.
      * apply pair_equal_spec in E. destruct E as [<- <-].
        repeat (split; [reflexivity|]). intros header [=].
    + apply pair_equal_spec in E. destruct E as [<- <-].
      repeat (split; [reflexivity|]). intros header [=].
  - apply pair_equal_spec in E. destruct E as [<- <-].
    repeat (split; [reflexivity|]). intros header [=].
  - apply pair_equal_spec in E. destruct E as [<- <-].
    repeat (split; [reflexivity|]). intros header [=].
Qed.

(** What [scryptenc_file] does on an output stream that takes every
    write, whether the input stream ends well or on a read error. *)
Lemma scryptenc_file_spec passwd maxmem maxmemfrac maxtime data cuts error wf :
  infile wf = {| in_data := data; in_cuts := cuts; in_error := error |} ->
  out_room (outfile wf) = None ->
  exists cuts',
    scryptenc_file passwd maxmem maxmemfrac maxtime wf =
    match scryptenc_setup passwd maxmem maxmemfrac maxtime wf with
    | (w1, Ok header) =>
      let w2 := set_outfile {| out_data := out_data (outfile wf) ++ header;
                               out_room := None |} w1 in
      match crypto_aes_key_expand (take 32 (dk w1)) with
      | None => (w2, Err 5)
      | Some key =>
        if aesctr_alloc then
          let ct := xor_keystream key 0 0 data in
          let w3 := set_outfile {| out_data := (out_data (outfile wf) ++ header) ++ ct;
                                   out_room := None |}
                      (set_infile {| in_data := []; in_cuts := cuts';
                                     in_error := error |} w2) in
          if error then (w3, Err 13)
          else
            let tag := take 32 (HMAC_SHA256_Buf (slice 32 32 (dk w1)) (header ++ ct)) in
            (set_dk (repeat 0 64)
               (set_outfile {| out_data := ((out_data (outfile wf) ++ header) ++ ct)
                                           ++ tag;
                               out_room := None |} w3), Ok tt)
        else (w2, Err 6)
      end
    | (w1, Err rc) => (w1, Err rc)
    | (w1, Undef) => (w1, Undef)
    end.
Proof.
  intros Hin Hroom. unfold scryptenc_file. unfold bind at 1.
  destruct (scryptenc_setup passwd maxmem maxmemfrac maxtime wf)
    as [w1 [header|rc|]] eqn:Esetup; try (exists cuts; reflexivity).
  destruct (scryptenc_setup_files _ _ _ _ _ _ _ Esetup)
    as (Hin1 & Hout1 & _ & _ & Hlen).
  specialize (Hlen header eq_refl).
  rewrite (take_all 96 header) by lia.
  unfold bind at 1, gets at 1.
  unfold bind at 1. rewrite fwrite_item_unlimited by (rewrite Hout1; exact Hroom).
  change (negb (1 =? 1)) with false. cbv iota.
  unfold bind at 1. rewrite aesctr_start_spec.
  cbn [dk set_outfile]. rewrite Hout1.
  destruct (crypto_aes_key_expand (take 32 (dk w1))) as [key|];
    [|exists cuts; reflexivity].
  destruct aesctr_alloc; [|exists cuts; reflexivity].
  unfold bind at 1, gets at 1. unfold bind at 1.
  set (w2 := set_outfile _ w1).
  set (AES := {| ctr_key := key; ctr_nonce := 0; ctr_pos := 0 |}).
  set (hctx := HMAC_SHA256_Update _ header).
  destruct (scryptenc_file_loop_spec (S (length (in_data (infile w2)))) AES hctx w2)
    as (cuts' & Hloop); [lia|reflexivity|].
  exists cuts'. rewrite Hloop. clear Hloop.
  assert (Hdata : in_data (infile w2) = data)
    by (subst w2; cbn [infile set_outfile]; rewrite Hin1, Hin; reflexivity).
  assert (Herr : in_error (infile w2) = error)
    by (subst w2; cbn [infile set_outfile]; rewrite Hin1, Hin; reflexivity).
  rewrite Hdata, Herr. subst AES. cbn [ctr_key ctr_nonce ctr_pos].
  cbv zeta.
  unfold bind at 1, ferror, gets at 1.
  cbn [infile set_outfile set_infile in_error in_data is_nil].
  rewrite andb_true_r.
  destruct error; [reflexivity|].
  unfold bind at 1. rewrite fwrite_item_unlimited by reflexivity.
  change (negb (1 =? 1)) with false. cbv iota.
  unfold bind, insecure_memzero_dk, modify, ret.
  subst hctx. unfold HMAC_SHA256_Final, HMAC_SHA256_Update, HMAC_SHA256_Init.
  cbn [hmac_key hmac_fed app outfile set_outfile set_infile out_data].
  reflexivity.
Qed.

(** X11: a read error of the input stream is seen by [scryptenc_file]
    only after the loop: every byte that could be read has been encrypted
    and written after the header, the result is 13, no tag is written and
    the derived key is not zeroed. *)
Theorem scryptenc_file_read_error :
  forall passwd maxmem maxmemfrac maxtime data cuts wf w1 header key,
    infile wf = {| in_data := data; in_cuts := cuts; in_error := true |} ->
    out_room (outfile wf) = None ->
    scryptenc_setup passwd maxmem maxmemfrac maxtime wf = (w1, Ok header) ->
    crypto_aes_key_expand (take 32 (dk w1)) = Some key ->
    aesctr_alloc = true ->
    let run := scryptenc_file passwd maxmem maxmemfrac maxtime wf in
    snd run = Err 13 /\
    out_data (outfile (fst run))
    = out_data (outfile wf) ++ header ++ xor_keystream key 0 0 data /\
    in_data (infile (fst run)) = [] /\
    dk (fst run) = dk w1.
Proof.
  intros passwd maxmem maxmemfrac maxtime data cuts wf w1 header key
    Hin Hroom Hsetup Hkey Halloc. cbv zeta.
  destruct (scryptenc_file_spec passwd maxmem maxmemfrac maxtime _ _ _ _ Hin Hroom)
    as (cuts' & ->).
  rewrite Hsetup. cbv zeta. rewrite Hkey, Halloc.
  cbn [fst snd outfile infile dk set_outfile set_infile out_data in_data].
  rewrite <- app_assoc. auto.
Qed.

(** X12: [scryptdec_file] writes the decrypted bytes before it compares
    the trailing tag.  For a stream of at least 128 bytes whose header is
    accepted and whose last 32 bytes are not the HMAC of the bytes before
    them, the result is 7, yet the output stream has received the whole
    payload xored with the key stream, and the derived key is not
    zeroed. *)
Theorem scryptdec_file_writes_before_tag_check :
  forall passwd maxmem maxmemfrac maxtime container cuts wf w1 key,
    infile wf = {| in_data := container; in_cuts := cuts; in_error := false |} ->
    out_room (outfile wf) = None ->
    128 <= len container -> take 6 container = magic -> at_ 6 container = 0 ->
    scryptdec_setup (take 96 container) passwd maxmem maxmemfrac maxtime
      (set_infile {| in_data := drop 96 container; in_cuts := cuts;
                     in_error := false |} wf) = (w1, Ok tt) ->
    crypto_aes_key_expand (take 32 (dk w1)) = Some key ->
    aesctr_alloc = true ->
    take 32 (HMAC_SHA256_Buf (slice 32 32 (dk w1))
               (take (len container - 32) container))
    <> slice (len container - 32) 32 container ->
    let run := scryptdec_file passwd maxmem maxmemfrac maxtime wf in
    snd run = Err 7 /\
    out_data (outfile (fst run))
    = out_data (outfile wf)
      ++ xor_keystream key 0 0 (slice 96 (len container - 128) container) /\
    dk (fst run) = dk w1.
Proof.
  intros passwd maxmem maxmemfrac maxtime container cuts wf w1 key
    Hin Hroom Hlen Hmagic Hver Hsetup Hkey Halloc Htag. cbv zeta.
  destruct (scryptdec_file_spec passwd maxmem maxmemfrac maxtime _ _ _
              Hin Hroom ltac:(lia) Hmagic Hver) as (cuts' & ->).
  cbv zeta. rewrite Hsetup, Hkey, Halloc.
  replace (len container <? 128) with false by (symmetry; apply Z.ltb_ge; lia).
  assert (Hall : len (drop 96 container) = len container - 96)
    by (rewrite len_drop; lia).
  rewrite Hall.
  replace (len container - 96 - 32) with (len container - 128) by lia.
  assert (Hsigned : take 96 container ++ take (len container - 128) (drop 96 container)
                    = take (len container - 32) container).
  { replace (len container - 32) with (96 + (len container - 128)) by lia.
    rewrite take_add by lia. reflexivity. }
  assert (Htrail : take 32 (drop (len container - 128) (drop 96 container))
                   = slice (len container - 32) 32 container).
  { rewrite drop_drop by lia. unfold slice. do 2 f_equal. lia. }
  rewrite Hsigned, Htrail, (memcmp_differ _ _ Htag).
  assert (Hfiles : outfile w1 = outfile wf /\ True).
  { rewrite scryptdec_setup_spec in Hsetup.
    destruct (memcmp _ _); [discriminate Hsetup|]. cbv zeta in Hsetup.
    destruct (checkparams _ _ _ _ _ _) as [[]|rc|]; try discriminate Hsetup.
    destruct (crypto_scrypt _ _ _ _ _ _); [|discriminate Hsetup].
    apply (f_equal fst) in Hsetup. cbn [fst] in Hsetup. subst w1.
    split; [reflexivity | exact I]. }
  destruct Hfiles as [Hout _].
  cbn [fst snd outfile dk set_outfile set_infile out_data].
  rewrite Hout. auto.
Qed.

End StreamFailures.

(** ** Streams: the round trip *)

Section StreamRoundTrip.
Context `{Primitives}.
Hypothesis OK : primitives_ok _.

(** [scryptdec_buf] on the bytes a successful [scryptenc_buf] wrote. *)
Lemma scryptdec_buf_of_container inbuf passwd maxmem maxmemfrac maxtime
      maxmem' maxmemfrac' maxtime' w w1 w' :
  scryptenc_buf inbuf passwd maxmem maxmemfrac maxtime w = (w1, Ok tt) ->
  (forall logN r p,
      pickparams maxmem maxmemfrac maxtime = Ok (logN, r, p) ->
      checkparams maxmem' maxmemfrac' maxtime' logN r p = Ok tt) ->
  let container := take (len inbuf + 128) (outbuf w1) in
  len container = len inbuf + 128 /\
  exists w2,
    scryptdec_buf container passwd maxmem' maxmemfrac' maxtime' w' = (w2, Ok tt) /\
    outlen w2 = len inbuf /\
    take (len inbuf) (outbuf w2) = inbuf.
Proof.
  intros Henc Hadmit.
  destruct (scryptenc_buf_output OK _ _ _ _ _ _ _ Henc)
    as (logN & p & salt & out & key & Hpick & HlogN & Hp & Hsalt & Hsaltlen
        & Hscrypt & Hkey & Halloc & Hshape).
  cbv zeta in Hshape. destruct Hshape as (Hheader & Hct & Htag & ->).
  specialize (Hadmit _ _ _ Hpick).
  cbn [outbuf set_dk set_outbuf]. cbv zeta.
  remember (sealed (slice 32 32 out) (record_head logN 8 p salt)) as header
    eqn:Hdef.
  remember (xor_keystream key 0 0 inbuf) as ct eqn:Hctdef.
  remember (take 32 (HMAC_SHA256_Buf (slice 32 32 out) (header ++ ct))) as tag
    eqn:Htagdef.
  pose proof (len_nonneg inbuf) as Hin0.
  assert (Hcont : take (len inbuf + 128)
                    (header ++ ct ++ tag ++ drop (len inbuf + 128) (outbuf w))
                  = header ++ ct ++ tag).
  { replace (header ++ ct ++ tag ++ drop (len inbuf + 128) (outbuf w))
      with ((header ++ ct ++ tag) ++ drop (len inbuf + 128) (outbuf w))
      by (rewrite <- !app_assoc; reflexivity).
    apply take_app_exact. rewrite !len_app. lia. }
  rewrite Hcont.
  destruct (container_parts header ct tag Hheader Htag)
    as (Hlen & Hh & Hpayload & Hsigned & Htrail).
  split; [lia|].
  assert (Hmagic : take 6 (header ++ ct ++ tag) = magic).
  { rewrite take_app_le by lia. subst header. apply rec_take_6. }
  assert (Hver : at_ 6 (header ++ ct ++ tag) = 0).
  { rewrite at_app_l by lia. subst header. apply rec_at_6. }
  assert (P32 : 2 ^ 29 < 2 ^ 32) by (apply Z.pow_lt_mono_r; lia).
  rewrite scryptdec_buf_spec by (try assumption; lia).
  assert (Hsetup : scryptdec_setup header passwd maxmem' maxmemfrac' maxtime' w'
            = (set_dk out (log_scrypt (passwd, salt, 2 ^ logN, 8, p, 64) w'), Ok tt)).
  { subst header. apply scryptdec_setup_sealed; try assumption; lia. }
  rewrite Hh, Hsetup. cbn [dk set_dk log_scrypt].
  rewrite Hkey, Halloc. cbv zeta.
  rewrite Hpayload, Hsigned, Htrail, <- Htagdef, memcmp_same.
  eexists. split; [reflexivity|]. cbn [outlen outbuf set_dk set_outlen set_outbuf].
  split; [lia|].
  rewrite Hctdef, xor_keystream_involutive.
  unfold memcpy. rewrite (take_nonpos 0) by lia. cbn [app].
  apply take_app_exact. reflexivity.
Qed.

(** X13: the round trip through streams.  What [scryptenc_file] wrote
    for a stream of data, read back by [scryptdec_file] with the same
    password under budgets that admit the parameters chosen, gives the
    data again, however the reads of the two runs are cut. *)
Theorem stream_roundtrip :
  forall passwd maxmem maxmemfrac maxtime maxmem' maxmemfrac' maxtime'
         data cuts cuts' we we1 wd,
    infile we = {| in_data := data; in_cuts := cuts; in_error := false |} ->
    outfile we = {| out_data := []; out_room := None |} ->
    scryptenc_file passwd maxmem maxmemfrac maxtime we = (we1, Ok tt) ->
    (forall logN r p,
        pickparams maxmem maxmemfrac maxtime = Ok (logN, r, p) ->
        checkparams maxmem' maxmemfrac' maxtime' logN r p = Ok tt) ->
    infile wd = {| in_data := out_data (outfile we1); in_cuts := cuts';
                   in_error := false |} ->
    outfile wd = {| out_data := []; out_room := None |} ->
    len (out_data (outfile we1)) = len data + 128 /\
    exists wd1,
      scryptdec_file passwd maxmem' maxmemfrac' maxtime' wd = (wd1, Ok tt) /\
      out_data (outfile wd1) = data.
Proof.
  intros passwd maxmem maxmemfrac maxtime maxmem' maxmemfrac' maxtime'
    data cuts cuts' we we1 wd Hin Hout Henc Hadmit Hin' Hout'.
  (* the buffer run on the same data *)
  destruct (scryptenc_file_matches_buf OK passwd maxmem maxmemfrac maxtime
              data cuts we we Hin) as [Hres Hdata].
  { rewrite Hout. reflexivity. }
  cbv zeta in Hres, Hdata. rewrite Henc in Hres, Hdata. cbn [fst snd] in Hres, Hdata.
  destruct (scryptenc_buf data passwd maxmem maxmemfrac maxtime we)
    as [wb1 rb] eqn:Ebuf.
  cbn [fst snd] in Hres, Hdata. subst rb.
  specialize (Hdata eq_refl). rewrite Hout in Hdata. cbn [out_data app] in Hdata.
  set (wd0 := set_outlen 0 wd).
  destruct (scryptdec_buf_of_container data passwd maxmem maxmemfrac maxtime
              maxmem' maxmemfrac' maxtime' we wb1 wd0 Ebuf Hadmit)
    as (Hlen & w2 & Hdec & Houtlen & Hplain).
  cbv zeta in Hlen, Hdec. rewrite <- Hdata in Hlen, Hdec.
  split; [exact Hlen|].
  destruct (scryptdec_file_matches_buf passwd maxmem' maxmemfrac' maxtime'
              (out_data (outfile we1)) cuts' wd0 wd Hin')
    as [Hwritten Hsame].
  { rewrite Hout'. reflexivity. }
  { reflexivity. }
  cbv zeta in Hwritten, Hsame. rewrite Hdec in Hwritten, Hsame.
  cbn [fst snd] in Hwritten, Hsame.
  pose proof (len_nonneg data) as Hd0.
  specialize (Hsame ltac:(lia)).
  destruct (scryptdec_file passwd maxmem' maxmemfrac' maxtime' wd) as [wd1 rd].
  cbn [fst snd] in Hwritten, Hsame. subst rd.
  exists wd1. split; [reflexivity|].
  rewrite Hwritten, Hout', Houtlen, Hplain. reflexivity.
Qed.

End StreamRoundTrip.

(** ** The error word of [ScryptHashFunction] *)

Lemma lor_3_shifted (e : Z) :
  0 <= e -> Z.lor 3 (Z.shiftl e 16) = 3 + e * 65536.
Proof.
  intros He. rewrite Z.shiftl_mul_pow2 by lia. change (2 ^ 16) with 65536.
  assert (Hdisjoint : Z.land 3 (e * 65536) = 0).
  { rewrite Z.land_comm. change 3 with (Z.ones 2).
    rewrite Z.land_ones by lia. change (2 ^ 2) with 4.
    replace (e * 65536) with (e * 16384 * 4) by lia. apply Z.mod_mul. lia. }
  rewrite <- Z.lxor_lor by exact Hdisjoint.
  symmetry. apply Z.add_nocarry_lxor. exact Hdisjoint.
Qed.

Section HashFunction.
Context `{Primitives}.

(** X14: the word [ScryptHashFunction] returns is 0 exactly when
    [crypto_scrypt] succeeded, and then [dk] holds the derived bytes; when
    it failed the low 16 bits of the word are the code 3 and the bits
    above are [errno], and [dk] is not written. *)
Theorem ScryptHashFunction_error_word :
  forall key salt N r p w,
    0 <= scrypt_errno < 2 ^ 15 ->
    let run := Wrapper.ScryptHashFunction key salt N r p w in
    match crypto_scrypt key salt N r p 64 with
    | Some out => snd run = Ok 0 /\ dk (fst run) = out
    | None =>
      exists e, snd run = Ok e /\ e <> 0 /\
                e mod 65536 = 3 /\ e / 65536 = scrypt_errno /\
                dk (fst run) = dk w
    end.
Proof.
  intros key salt N r p w Herrno. cbv zeta.
  unfold Wrapper.ScryptHashFunction.
  destruct (crypto_scrypt key salt N r p 64) as [out|].
  - split; reflexivity.
  - cbn [fst snd dk log_scrypt].
    assert (H15 : 2 ^ 15 = 32768) by reflexivity.
    assert (Hword : Z.lor 3 (u32 (Z.shiftl scrypt_errno 16))
                    = 3 + scrypt_errno * 65536).
    { unfold u32. rewrite Z.mod_small.
      - apply lor_3_shifted. lia.
      - rewrite Z.shiftl_mul_pow2 by lia.
        change (2 ^ 16) with 65536. change (2 ^ 32) with 4294967296. lia. }
    destruct (scrypt_errno =? 0) eqn:E0; cbn [negb].
    + apply Z.eqb_eq in E0. exists 3. rewrite E0.
      repeat split; try reflexivity. discriminate.
    + apply Z.eqb_neq in E0. exists (3 + scrypt_errno * 65536).
      rewrite Hword. split; [reflexivity|]. split; [lia|].
      split.
      * rewrite Z.mod_add by lia. reflexivity.
      * split; [|reflexivity].
        rewrite Z.div_add by lia.
        change (3 / 65536) with 0. lia.
Qed.

End HashFunction.

(** ** One format for records and container headers *)

Section OneFormat.
Context `{Primitives}.
Hypothesis OK : primitives_ok _.

(** X15: the header of a container is a record of the wrapper, and a
    record is a container header.  The first 96 bytes [scryptenc_buf]
    wrote pass [Verify] with the password of the encryption
    ([kdfVerifySync] gives [true]); and a record [KDF] built passes
    [scryptdec_setup] with its password under budgets that admit its
    parameters. *)
Theorem records_and_headers_share_the_format :
  (forall inbuf passwd maxmem maxmemfrac maxtime w w1 w',
      len inbuf + 128 <= len (outbuf w) ->
      scryptenc_buf inbuf passwd maxmem maxmemfrac maxtime w = (w1, Ok tt) ->
      snd (Wrapper.Verify (take 96 (outbuf w1)) passwd w') = Ok tt /\
      snd (Wrapper.kdfVerifySync (take 96 (outbuf w1)) passwd w')
      = Some (Wrapper.JsReturn true)) /\
  (forall passwd logN r p salt w w1 kdf maxmem maxmemfrac maxtime w',
      0 <= logN < 256 -> 0 <= r < 2 ^ 32 -> 0 <= p < 2 ^ 32 -> len salt = 32 ->
      Wrapper.KDF passwd logN r p salt w = (w1, Ok kdf) ->
      checkparams maxmem maxmemfrac maxtime logN r p = Ok tt ->
      snd (scryptdec_setup kdf passwd maxmem maxmemfrac maxtime w') = Ok tt).
Proof.
  split.
  - intros inbuf passwd maxmem maxmemfrac maxtime w w1 w' Hcap Henc.
    destruct (scryptenc_buf_output OK _ _ _ _ _ _ _ Henc)
      as (logN & p & salt & out & key & Hpick & HlogN & Hp & Hsalt & Hsaltlen
          & Hscrypt & Hkey & Halloc & Hshape).
    cbv zeta in Hshape. destruct Hshape as (Hheader & Hct & Htag & ->).
    cbn [outbuf set_dk set_outbuf].
    rewrite take_app_exact by exact Hheader.
    assert (P32 : 2 ^ 29 < 2 ^ 32) by (apply Z.pow_lt_mono_r; lia).
    assert (Hverify : Wrapper.Verify (sealed (slice 32 32 out)
                                        (record_head logN 8 p salt)) passwd w'
                      = (set_dk out (log_scrypt (passwd, salt, 2 ^ logN, 8, p, 64) w'),
                         Ok tt))
      by (apply Verify_sealed; try assumption; lia).
    unfold Wrapper.kdfVerifySync. rewrite Hverify. split; reflexivity.
  - intros passwd logN r p salt w w1 kdf maxmem maxmemfrac maxtime w'
      HlogN Hr Hp Hsalt HK Hcheck.
    pose proof (checkparams_logN _ _ _ _ _ _ _ Hcheck) as Hshift.
    rewrite KDF_spec in HK by (assumption || lia). cbv zeta in HK.
    destruct (crypto_scrypt passwd salt (2 ^ logN) r p 64) as [out|] eqn:E;
      [|discriminate HK].
    apply pair_equal_spec in HK. destruct HK as [_ HK].
    injection HK as <-.
    rewrite (scryptdec_setup_sealed OK passwd logN r p salt out) by assumption.
    reflexivity.
Qed.

End OneFormat.

(** ** The parameters [pickparams] chooses *)

(** The memory-bound branch takes the largest power of two that fits. *)
Lemma pick_memory_logN_max (memlimit : Z) :
  1048576 <= memlimit < 2 ^ 64 - 1024 ->
  exists logN,
    scan_logN 62 1 (of_Z (memlimit / u32 (8 * 128))) = Ok logN /\
    10 <= logN <= 53 /\ 1024 * 2 ^ logN <= memlimit < 1024 * 2 ^ (logN + 1).
Proof.
  intros Hmem. change (u32 (8 * 128)) with 1024.
  assert (HM : 1024 <= memlimit / 1024 < 2 ^ 54 - 1).
  { split.
    - apply Z.div_le_lower_bound; lia.
    - apply Z.div_lt_upper_bound; [lia|].
      change (1024 * (2 ^ 54 - 1)) with (2 ^ 64 - 1024). lia. }
  assert (Hfl : memlimit / 1024 * 1024 <= memlimit < (memlimit / 1024 + 1) * 1024).
  { pose proof (Z.mul_div_le memlimit 1024).
    pose proof (Z.mul_succ_div_gt memlimit 1024). lia. }
  destruct (memlimit / 1024) as [|M|M] eqn:EM; try lia.
  pose proof (digits2_pos_bounds M) as Hd.
  pose proof (digits_ge_pow2 M 10 ltac:(lia)) as Hd11.
  assert (Hshape : exists mz, of_Z (Zpos M)
                              = S754_finite false mz (Zpos (digits2_pos M) - 53)
                              /\ normal_mantissa mz /\ Zpos (digits2_pos M) <= 54).
  { destruct (Z_lt_ge_dec (Zpos M) (2 ^ 53)) as [Hsmall|Hlarge].
    - assert (Hbig : Zpos M < 2 ^ 1000) by lia.
      destruct (of_Z_shape M Hbig) as (mz & ez & Hof & Hmz & _ & Hexact).
      pose proof (digits_lt_pow2 M 53 Hsmall) as Hd53.
      destruct Hexact as [_ ->]; [assumption|].
      exists mz. split; [exact Hof|]. split; [exact Hmz | lia].
    - destruct (of_Z_54 M ltac:(lia)) as (mz & Hof & Hmz).
      assert (Hd54 : Zpos (digits2_pos M) = 54) by (apply digits2_pos_unique; lia).
      exists mz. rewrite Hd54. split; [exact Hof|]. split; [exact Hmz | lia]. }
  destruct Hshape as (mz & Hof & Hmz & Hd54).
  set (d := Zpos (digits2_pos M)) in *.
  assert (Hhalf : div (of_Z (Zpos M)) (of_Z 2) = S754_finite false mz (d - 53 - 1)).
  { rewrite Hof. change 2 with (2 ^ 1) at 1. apply div_by_pow2; try assumption; lia. }
  exists (d - 1). split.
  { rewrite (scan_logN_spec _ mz (d - 53 - 1) Hhalf Hmz 62%nat 1) by (simpl; lia).
    f_equal. lia. }
  replace (d - 1 + 1) with d by lia. split; [lia|]. lia.
Qed.

(** A double that is not below the double of an integer. *)
Lemma not_ltb_of_Z_pow2 (m : positive) (e : Z) (z : positive) (k : Z) :
  Zpos z < 2 ^ 1000 -> 2 ^ k <= Zpos z ->
  ltb (S754_finite false m e) (of_Z (Zpos z)) = false ->
  k - 52 <= e.
Proof.
  intros Hz Hk Hlt.
  destruct (of_Z_shape z Hz) as (mz & ez & Hof & Hmz & Hez & _).
  rewrite Hof in Hlt. apply ltb_finite_false in Hlt.
  pose proof (digits_ge_pow2 z k Hk). lia.
Qed.

(** The clamp and the conversion, from below. *)
Lemma clamped_maxrp_lower (m : positive) (u t : Z) :
  normal_mantissa m -> -49 <= u ->
  to_unsigned 32
    (if gtb (S754_finite false m u) (of_Z 1073741823) then of_Z 1073741823
     else S754_finite false m u) = Some t ->
  8 <= t.
Proof.
  intros Hm Hu. destruct (gtb _ _).
  - intros [= <-]. lia.
  - unfold to_unsigned, trunc. cbn [cond_Zopp].
    destruct ((0 <=? _) && (_ <? 2 ^ 32)); [|discriminate].
    intros [= <-].
    pose proof (shiftl_ge_pow2 m u 3 Hm ltac:(lia) ltac:(lia)) as H8.
    change (2 ^ 3) with 8 in H8. exact H8.
Qed.

(** The choice on a finite budget of at least 32768 operations. *)
Lemma pick_from_finite_shape (memlimit : Z) (m : positive) (e : Z) :
  1048576 <= memlimit < 2 ^ 64 - 1024 -> normal_mantissa m -> -37 <= e <= 971 ->
  let x := S754_finite false m e in
  exists logN p,
    pick_from memlimit x = Ok (logN, 8, p) /\
    10 <= logN <= 53 /\ 1 <= p < 2 ^ 27 /\ 1024 * 2 ^ logN <= memlimit /\
    (if ltb x (of_Z (memlimit / 32))
     then p = 1 /\ logN = e + 47
     else memlimit < 1024 * 2 ^ (logN + 1)).
Proof.
  intros Hmem Hm He x. subst x. unfold pick_from.
  destruct (ltb _ (of_Z (memlimit / 32))) eqn:Ebranch.
  - destruct (pick_compute_bound memlimit m e Hmem Hm He Ebranch) as (HlogN & He6 & Hfit).
    rewrite HlogN. cbn [rbind].
    exists (e + 47), 1. split; [reflexivity|].
    split; [lia|]. split; [split; [lia | reflexivity]|]. split; [exact Hfit|].
    split; reflexivity.
  - destruct (pick_memory_logN_max memlimit Hmem) as (logN & Hscan & HlogN & Hfit).
    rewrite Hscan. cbn [rbind]. rewrite shl64_pow2 by lia. cbn [rbind]. cbv zeta.
    change (of_Z 4) with (of_Z (2 ^ 2)).
    rewrite div_by_pow2 by (try assumption; lia).
    rewrite div_by_pow2 by (try assumption; lia).
    destruct (clamped_maxrp m (e - 2 - logN) Hm) as (t & Ht & Ht0 & Ht30).
    cbv zeta in Ht.
    (* the budget is at least memlimit / 32, which is at least 32 N *)
    assert (H0 : 0 < 2 ^ logN) by (apply Z.pow_pos_nonneg; lia).
    assert (HM : 2 ^ (logN + 5) <= memlimit / 32 < 2 ^ 59).
    { split.
      - apply Z.div_le_lower_bound; [lia|].
        rewrite Z.pow_add_r by lia. change (2 ^ 5) with 32. lia.
      - apply Z.div_lt_upper_bound; [lia|]. change (32 * 2 ^ 59) with (2 ^ 64). lia. }
    destruct (memlimit / 32) as [|M|M] eqn:EM; try lia.
    assert (Hbig : Zpos M < 2 ^ 1000) by lia.
    pose proof (not_ltb_of_Z_pow2 m e M (logN + 5) Hbig ltac:(lia) Ebranch) as Hlow.
    pose proof (clamped_maxrp_lower m (e - 2 - logN) t Hm ltac:(lia) Ht) as Ht8.
    rewrite Ht.
    exists logN, (t / 8). split; [reflexivity|].
    split; [lia|]. split.
    { split.
      - apply Z.div_le_lower_bound; lia.
      - apply Z.div_lt_upper_bound; [lia|].
        change (8 * 2 ^ 27) with (2 ^ 30). lia. }
    split; lia.
Qed.

(** The same on an infinite budget. *)
Lemma pick_from_infinity_shape (memlimit : Z) :
  1048576 <= memlimit < 2 ^ 64 - 1024 ->
  exists logN p,
    pick_from memlimit (S754_infinity false) = Ok (logN, 8, p) /\
    10 <= logN <= 53 /\ 1 <= p < 2 ^ 27 /\
    1024 * 2 ^ logN <= memlimit < 1024 * 2 ^ (logN + 1).
Proof.
  intros Hmem. unfold pick_from. rewrite ltb_infinity.
  destruct (pick_memory_logN_max memlimit Hmem) as (logN & Hscan & HlogN & Hfit).
  rewrite Hscan. cbn [rbind]. rewrite shl64_pow2 by lia. cbn [rbind]. cbv zeta.
  change (of_Z 4) with (S754_finite false (2 ^ 52) (-50)) at 1.
  rewrite div_infinity, of_Z_small_pow2, div_infinity by lia.
  exists logN, 134217727. split; [reflexivity|].
  split; [lia|]. split; [split; [lia | reflexivity]|]. exact Hfit.
Qed.

(** X16: the parameters [pickparams] of pickparams.c returns can be
    used.  With a memory budget below 2^64 - 1024 bytes and an operations
    budget [opps * maxtime] that is a double of at least 32768, it returns
    [r = 8], a [logN] from 10 to 53 and a [p] from 1 to 2^27 - 1, and
    [128 * N * r] is within the memory budget. *)
Theorem pickparams_choice_is_usable `{Primitives} :
  forall maxtime maxmem maxmemfrac osfreemem memlimit opps,
    Util.memtouse maxmem maxmemfrac osfreemem = Ok memlimit ->
    memlimit < 2 ^ 64 - 1024 ->
    scryptenc_cpuperf = Ok opps ->
    valid_binary prec emax (mul opps maxtime) = true ->
    SFleb (of_Z 32768) (mul opps maxtime) = true ->
    exists logN p,
      Wrapper.pickparams maxtime maxmem maxmemfrac osfreemem = Ok (logN, 8, p) /\
      10 <= logN <= 53 /\ 1 <= p < 2 ^ 27 /\
      128 * 2 ^ logN * 8 <= memlimit.
Proof.
  intros maxtime maxmem maxmemfrac osfreemem memlimit opps
    Hmem Hbound Hperf Hvalid Hfloor.
  pose proof (util_memtouse_floor _ _ _ _ Hmem) as Hmin.
  unfold Wrapper.pickparams. rewrite Hmem, Hperf. cbn [rbind].
  rewrite pickparams_limits_pick_from, floored_at_least_32768 by assumption.
  destruct (at_least_32768 _ Hvalid Hfloor) as [-> | (m & e & -> & Hm & He)].
  - destruct (pick_from_infinity_shape memlimit ltac:(lia))
      as (logN & p & Hpick & HlogN & Hp & Hfit).
    exists logN, p. repeat (split; [assumption || lia|]). lia.
  - destruct (pick_from_finite_shape memlimit m e ltac:(lia) Hm He)
      as (logN & p & Hpick & HlogN & Hp & Hfit & _).
    exists logN, p. repeat (split; [assumption || lia|]). lia.
Qed.

(** X17: [pickparams] takes the largest [N] its limits allow.  With a
    memory budget of at least 1 MiB and below 2^64 - 1024 bytes and an
    operations budget that is a double of at least 32768: in the branch
    bound by memory [128 * N * r <= memlimit < 128 * 2N * r]; in the
    branch bound by time [p = 1] and the operations budget is at least
    [4 * N * r] and below [4 * 2N * r]. *)
Theorem pickparams_takes_the_largest_N :
  forall memlimit opps maxtime,
    1048576 <= memlimit < 2 ^ 64 - 1024 ->
    valid_binary prec emax (mul opps maxtime) = true ->
    SFleb (of_Z 32768) (mul opps maxtime) = true ->
    let opslimit := mul opps maxtime in
    exists logN p,
      pickparams_limits memlimit opps maxtime = Ok (logN, 8, p) /\
      if ltb opslimit (of_Z (memlimit / 32))
      then p = 1 /\
           ltb opslimit (of_Z (4 * 2 ^ logN * 8)) = false /\
           ltb opslimit (of_Z (4 * 2 ^ (logN + 1) * 8)) = true
      else 128 * 2 ^ logN * 8 <= memlimit < 128 * 2 ^ (logN + 1) * 8.
Proof.
  intros memlimit opps maxtime Hmem Hvalid Hfloor. cbv zeta.
  rewrite pickparams_limits_pick_from, floored_at_least_32768 by assumption.
  destruct (at_least_32768 _ Hvalid Hfloor) as [-> | (m & e & -> & Hm & He)].
  - destruct (pick_from_infinity_shape memlimit Hmem)
      as (logN & p & Hpick & HlogN & Hp & Hfit).
    exists logN, p. split; [exact Hpick|]. rewrite ltb_infinity. lia.
  - destruct (pick_from_finite_shape memlimit m e Hmem Hm He)
      as (logN & p & Hpick & HlogN & Hp & Hfit & Hbranch).
    cbv zeta in Hbranch.
    exists logN, p. split; [exact Hpick|].
    destruct (ltb (S754_finite false m e) (of_Z (memlimit / 32))).
    + destruct Hbranch as [-> ->]. split; [reflexivity|].
      assert (E1 : 4 * 2 ^ (e + 47) * 8 = 2 ^ (e + 52)).
      { replace (e + 52) with (2 + (e + 47) + 3) by lia.
        rewrite (Z.pow_add_r 2 (2 + (e + 47)) 3) by lia.
        rewrite (Z.pow_add_r 2 2 (e + 47)) by lia. reflexivity. }
      assert (E2 : 4 * 2 ^ (e + 47 + 1) * 8 = 2 ^ (e + 53)).
      { replace (e + 53) with (2 + (e + 47 + 1) + 3) by lia.
        rewrite (Z.pow_add_r 2 (2 + (e + 47 + 1)) 3) by lia.
        rewrite (Z.pow_add_r 2 2 (e + 47 + 1)) by lia. reflexivity. }
      rewrite E1, E2.
      rewrite (of_Z_small_pow2 (e + 52)) by lia.
      rewrite (of_Z_small_pow2 (e + 53)) by lia.
      unfold normal_mantissa in Hm. split.
      * apply ltb_finite_false. change (Zpos (2 ^ 52)) with (2 ^ 52). lia.
      * apply ltb_finite. lia.
    + lia.
Qed.

(** ** The memory budget, for every input *)

(** A well-formed double has at most 53 significant bits. *)
Lemma valid_mantissa_bound (s : bool) (m : positive) (e : Z) :
  valid_binary prec emax (S754_finite s m e) = true -> Zpos m < 2 ^ 53.
Proof.
  cbn [valid_binary]. unfold bounded, canonical_mantissa.
  intros Hvalid. apply andb_true_iff in Hvalid. destruct Hvalid as [Hcanon _].
  apply Z.eqb_eq in Hcanon. unfold fexp, emin, prec, emax in Hcanon.
  pose proof (digits2_pos_bounds m) as [_ Hd].
  assert (Hd53 : Zpos (digits2_pos m) <= 53) by lia.
  assert (2 ^ Zpos (digits2_pos m) <= 2 ^ 53) by (apply Z.pow_le_mono_r; lia).
  lia.
Qed.

(** The integral part of a fraction that is at most one half is 0. *)
Lemma fraction_truncates_to_zero (f : double) (z : Z) :
  valid_binary prec emax f = true ->
  gtb f half = false ->
  to_unsigned 64 f = Some z -> z = 0.
Proof.
  intros Hvalid Hhalf. unfold to_unsigned.
  destruct f as [s|s| |s m e]; cbn [trunc]; try discriminate.
  - intros [= <-]. reflexivity.
  - pose proof (valid_mantissa_bound s m e Hvalid) as Hm.
    assert (H0 : 0 <= Z.shiftl (Zpos m) e) by (apply Z.shiftl_nonneg; lia).
    destruct s; cbn [cond_Zopp].
    + destruct ((0 <=? - Z.shiftl (Zpos m) e) && _) eqn:E; [|discriminate].
      intros [= <-]. apply andb_true_iff in E. destruct E as [E _].
      apply Z.leb_le in E. lia.
    + destruct ((0 <=? Z.shiftl (Zpos m) e) && _); [|discriminate].
      intros [= <-].
      unfold gtb, half in Hhalf.
      fold (ltb (S754_finite false 4503599627370496 (-53)) (S754_finite false m e))
        in Hhalf.
      apply ltb_finite_false in Hhalf.
      assert (He : e <= -53) by lia.
      rewrite Z.shiftl_div_pow2 by lia.
      apply Z.div_small. split; [lia|].
      assert (2 ^ 53 <= 2 ^ (- e)) by (apply Z.pow_le_mono_r; lia). lia.
Qed.

(** X18: [memtouse] of scrypt/win/memlimit.c allows 1 MiB whatever the
    platform reports.  Its cast [(size_t)maxmemfrac] takes the integral
    part of a fraction of at most one half, which is 0, so for every
    outcome of the probes, every cap and every fraction that is a
    well-formed double, a result is the floor 1048576. *)
Theorem win_memtouse_allows_only_the_floor :
  forall probes maxmem maxmemfrac memlimit,
    valid_binary prec emax maxmemfrac = true ->
    Win.memtouse probes maxmem maxmemfrac = Ok memlimit ->
    memlimit = 1048576.
Proof.
  intros probes maxmem maxmemfrac memlimit Hvalid.
  unfold Win.memtouse. cbv zeta.
  destruct (Win.sysctl_memlimit probes); [|discriminate].
  destruct (Win.sysinfo_memlimit probes); [|discriminate].
  destruct (Win.rlimit_memlimit probes); [|discriminate].
  destruct (Win.sysconf_memlimit probes); [|discriminate].
  destruct (to_unsigned 64 _) as [frac|] eqn:Efrac; [|discriminate].
  assert (Hfrac : frac = 0).
  { destruct (gtb maxmemfrac half) eqn:Ehalf; cbn [orb] in Efrac.
    - revert Efrac. intros [= <-]. reflexivity.
    - destruct (eqb maxmemfrac (of_Z 0)).
      + revert Efrac. intros [= <-]. reflexivity.
      + exact (fraction_truncates_to_zero _ _ Hvalid Ehalf Efrac). }
  subst frac. rewrite Z.mul_0_l. change (u64 0) with 0.
  replace ((maxmem >? 0) && (0 >? maxmem)) with false.
  2:{ symmetry. apply andb_false_iff.
      destruct (maxmem >? 0) eqn:E; [right | left; reflexivity].
      apply Z.gtb_lt in E. rewrite Z.gtb_ltb. apply Z.ltb_ge. lia. }
  intros [= <-]. reflexivity.
Qed.

(** Half of a normal double. *)
Lemma mul_half (m : positive) (e : Z) :
  normal_mantissa m -> -1000 <= e <= 971 ->
  mul half (S754_finite false m e) = S754_finite false m (e - 1).
Proof.
  intros Hm He. unfold mul, half, SFmul. cbn [xorb].
  rewrite binary_round_aux_finish. unfold shr_fexp.
  cbn [Zdigits2 Pos.mul digits2_pos].
  rewrite (normal_digits m Hm).
  cbn [Pos.succ].
  rewrite fexp_normal by lia.
  replace (105 + (-53 + e) - 53 - (-53 + e)) with 52 by lia.
  cbn [shr iter_pos shr_1 shr_record_of_loc fst snd orb shr_m loc_of_shr_record].
  destruct (round_finish_normal m (-53 + e + 52) loc_Exact Hm ltac:(lia))
    as (mz & ez & Hrun & _ & _ & Hexact).
  destruct (Hexact eq_refl) as [-> ->]. rewrite Hrun. f_equal. lia.
Qed.

(** Half of an integer below 2^53, as [memtouse] computes it. *)
Lemma half_of_memory (n : Z) :
  0 <= n < 2 ^ 53 -> to_unsigned 64 (mul half (of_Z n)) = Some (n / 2).
Proof.
  intros Hn. destruct n as [|n|n]; [reflexivity| |lia].
  assert (Hbig : Zpos n < 2 ^ 1000) by lia.
  destruct (of_Z_shape n Hbig) as (mz & ez & Hof & Hmz & _ & Hexact).
  pose proof (digits2_pos_bounds n) as Hd.
  pose proof (digits_lt_pow2 n 53 ltac:(lia)) as Hd53.
  set (d := Zpos (digits2_pos n)) in *.
  assert (Hd1 : 1 <= d) by (subst d; lia).
  destruct Hexact as [Hmzv ->]; [assumption|].
  rewrite Hof, mul_half by (try assumption; lia).
  unfold to_unsigned, trunc. cbn [cond_Zopp].
  rewrite Z.shiftl_div_pow2 by lia.
  replace (- (d - 53 - 1)) with (53 - d + 1) by lia.
  rewrite Hmzv, Z.pow_add_r by lia. change (2 ^ 1) with 2.
  assert (H0 : 0 < 2 ^ (53 - d)) by (apply Z.pow_pos_nonneg; lia).
  replace (Zpos n * 2 ^ (53 - d) / (2 ^ (53 - d) * 2)) with (Zpos n / 2).
  2:{ rewrite (Z.mul_comm (2 ^ (53 - d)) 2).
      rewrite Z.div_mul_cancel_r by lia. reflexivity. }
  assert (Hq : 0 <= Zpos n / 2 < 2 ^ 64).
  { split; [apply Z.div_pos; lia|].
    apply Z.div_lt_upper_bound; [lia|].
    assert (2 ^ 53 < 2 * 2 ^ 64) by (change (2 * 2 ^ 64) with (2 ^ 65); apply Z.pow_lt_mono_r; lia).
    lia. }
  destruct (0 <=? Zpos n / 2) eqn:E1; [|apply Z.leb_gt in E1; lia].
  destruct (Zpos n / 2 <? 2 ^ 64) eqn:E2; [|apply Z.ltb_ge in E2; lia].
  reflexivity.
Qed.

(** X19: [memtouse] of src/util/memlimit.c with the default fraction.
    When [maxmemfrac] is 0 or above one half and the memory reported is
    below 2^53 bytes, the budget is half of that memory, rounded down,
    then capped at [maxmem] when [maxmem] is not 0, then raised to
    1048576. *)
Theorem util_memtouse_default_fraction :
  forall maxmem maxmemfrac memlimit_min,
    0 <= memlimit_min < 2 ^ 53 ->
    gtb maxmemfrac half || eqb maxmemfrac (of_Z 0) = true ->
    Util.memtouse maxmem maxmemfrac memlimit_min
    = Ok (let memavail := memlimit_min / 2 in
          let memavail :=
            if (0 <? maxmem) && (maxmem <? memavail) then maxmem else memavail in
          Z.max 1048576 memavail).
Proof.
  intros maxmem maxmemfrac memlimit_min Hmin Hfrac.
  unfold Util.memtouse. cbv zeta. rewrite Hfrac.
  rewrite half_of_memory by assumption.
  rewrite !Z.gtb_ltb.
  set (capped := if (0 <? maxmem) && (maxmem <? memlimit_min / 2)
                 then maxmem else memlimit_min / 2).
  f_equal. destruct (capped <? 1048576) eqn:E.
  - apply Z.ltb_lt in E. lia.
  - apply Z.ltb_ge in E. lia.
Qed.

(** ** A stream between 96 and 127 bytes *)

Section ShortStream.
Context `{Primitives}.

(** X20: the two decryption entry points differ on a container of 96
    to 127 bytes with a well-formed header.  [scryptdec_buf] returns 7 at
    its length test and derives nothing; [scryptdec_file] has no such
    test before the header: it runs the key derivation the header asks
    for, writes nothing, and fails afterwards. *)
Theorem scryptdec_file_derives_before_length_test :
  forall container cuts passwd maxmem maxmemfrac maxtime wf wb,
    infile wf = {| in_data := container; in_cuts := cuts; in_error := false |} ->
    out_room (outfile wf) = None ->
    96 <= len container < 128 ->
    take 6 container = magic -> at_ 6 container = 0 ->
    slice 48 16 container = take 16 (SHA256_Buf (take 48 container)) ->
    let logN := at_ 7 container in
    let r := be32dec (drop 8 container) in
    let p := be32dec (drop 12 container) in
    checkparams maxmem maxmemfrac maxtime logN r p = Ok tt ->
    let run := scryptdec_file passwd maxmem maxmemfrac maxtime wf in
    scryptdec_buf container passwd maxmem maxmemfrac maxtime wb = (wb, Err 7) /\
    scrypt_calls (fst run)
    = scrypt_calls wf ++ [(passwd, slice 16 32 container, 2 ^ logN, r, p, 64)] /\
    snd run <> Ok tt /\
    out_data (outfile (fst run)) = out_data (outfile wf).
Proof.
  intros container cuts passwd maxmem maxmemfrac maxtime wf wb
    Hin Hroom Hlen Hmagic Hver Hsum logN r p Hcheck. cbv zeta.
  split.
  { unfold scryptdec_buf. cbv zeta.
    replace (len container <? 7) with false by (symmetry; apply Z.ltb_ge; lia).
    rewrite Hmagic, memcmp_same, Hver. cbn [Z.eqb negb orb].
    replace (len container <? 128) with true by (symmetry; apply Z.ltb_lt; lia).
    reflexivity. }
  destruct (scryptdec_file_spec passwd maxmem maxmemfrac maxtime _ _ _
              Hin Hroom ltac:(lia) Hmagic Hver) as (cuts' & ->).
  cbv zeta. rewrite scryptdec_setup_prefix by lia. cbv zeta.
  rewrite Hsum, memcmp_same. fold logN r p. rewrite Hcheck.
  replace (len container <? 128) with true by (symmetry; apply Z.ltb_lt; lia).
  assert (Hplain : forall key,
             xor_keystream key 0 0
               (take (len (drop 96 container) - 32) (drop 96 container)) = []).
  { intros key. rewrite take_nonpos; [reflexivity|]. rewrite len_drop. lia. }
  destruct (crypto_scrypt passwd (slice 16 32 container) (2 ^ logN) r p 64)
    as [out|].
  - destruct (memcmp (take 32 (HMAC_SHA256_Buf (slice 32 32 out) (take 64 container)))
                (slice 64 32 container)).
    + cbn [fst snd scrypt_calls outfile set_dk log_scrypt set_infile].
      repeat split; [discriminate].
    + cbn [dk set_dk log_scrypt].
      destruct (crypto_aes_key_expand (take 32 out)) as [key|].
      * destruct aesctr_alloc.
        -- rewrite Hplain.
           cbn [fst snd scrypt_calls outfile out_data set_dk log_scrypt
                set_infile set_outfile].
           rewrite app_nil_r. repeat split; [discriminate].
        -- cbn [fst snd scrypt_calls outfile set_dk log_scrypt set_infile].
           repeat split; [discriminate].
      * cbn [fst snd scrypt_calls outfile set_dk log_scrypt set_infile].
        repeat split; [discriminate].
  - cbn [fst snd scrypt_calls outfile set_dk log_scrypt set_infile].
    repeat split; [discriminate].
Qed.

(** X21: keyderivation.c never wipes the derived key.  When the
    derivation succeeds (with a [logN] from 0 to 63, a shift C defines),
    [KDF] returns with the 64 derived bytes in [dk], and so does
    [Verify], whether the password matches (0) or not (11). *)
Theorem wrapper_leaves_the_derived_key :
  forall passwd w out,
    (forall logN r p salt,
        0 <= logN <= 63 ->
        len salt = 32 ->
        crypto_scrypt passwd salt (2 ^ logN) r p 64 = Some out ->
        dk (fst (Wrapper.KDF passwd logN r p salt w)) = out /\
        exists kdf, snd (Wrapper.KDF passwd logN r p salt w) = Ok kdf) /\
    (forall kdf,
        0 <= at_ 7 kdf <= 63 ->
        slice 48 16 kdf = take 16 (SHA256_Buf (take 48 kdf)) ->
        crypto_scrypt passwd (slice 16 32 kdf) (2 ^ (at_ 7 kdf))
          (be32dec (drop 8 kdf)) (be32dec (drop 12 kdf)) 64 = Some out ->
        dk (fst (Wrapper.Verify kdf passwd w)) = out /\
        (snd (Wrapper.Verify kdf passwd w) = Ok tt
         \/ snd (Wrapper.Verify kdf passwd w) = Err 11)).
Proof.
  intros passwd w out. split.
  - intros logN r p salt HlogN Hsalt Hscrypt.
    unfold Wrapper.KDF. unfold bind at 1. unfold lift.
    rewrite shl64_pow2 by assumption. unfold bind. cbv zeta.
    rewrite (ScryptHashFunction_ok _ _ _ _ _ _ w Hscrypt).
    cbn [Z.eqb negb gets ret dk set_dk fst snd].
    split; [reflexivity|]. eexists. reflexivity.
  - intros kdf HlogN Hsum Hscrypt. rewrite Verify_spec by assumption. cbv zeta.
    rewrite Hsum, memcmp_same, Hscrypt. cbn [fst snd dk set_dk].
    split; [reflexivity|]. destruct (memcmp _ _); auto.
Qed.

End ShortStream.

(** ** The two bindings of [Verify] *)

(** X22: the asynchronous binding of [Verify] reports what the
    synchronous one does.  On every record, password and world the two run
    the same [Verify]; where [kdfVerifySync] returns a boolean the callback
    of [kdfVerify] gets [null] and that boolean, and where [kdfVerifySync]
    throws an error code the callback gets that code as its error.  A
    password mismatch (11) is the boolean [false] in both, never an
    error. *)
Theorem async_verify_agrees_with_sync `{Primitives} :
  forall kdf key w,
    fst (Async.kdfVerify kdf key w) = fst (Wrapper.kdfVerifySync kdf key w) /\
    snd (Async.kdfVerify kdf key w)
    = option_map (fun v => match v with
                           | Wrapper.JsThrow error => Async.CallbackError error
                           | Wrapper.JsReturn b => Async.CallbackValue b
                           end)
                 (snd (Wrapper.kdfVerifySync kdf key w)) /\
    (snd (Wrapper.Verify kdf key w) = Err 11 ->
     snd (Async.kdfVerify kdf key w) = Some (Async.CallbackValue false)).
Proof.
  intros kdf key w.
  unfold Async.kdfVerify, Async.Execute, Wrapper.kdfVerifySync.
  destruct (Wrapper.Verify kdf key w) as [w' [[]|rc|]]; cbn [fst snd rc_of].
  - repeat split. discriminate.
  - split; [reflexivity|].
    unfold option_map, Async.WorkComplete, Async.HandleOKCallback,
      Async.HandleErrorCallback. cbn [Async.result Async.match_].
    destruct (rc =? 11) eqn:E11.
    + apply Z.eqb_eq in E11. subst rc. split; reflexivity.
    + destruct (rc =? 0) eqn:E0; cbn [negb andb].
      * split; [reflexivity|]. intros [= ->]. discriminate.
      * split; [reflexivity|]. intros [= ->]. discriminate.
  - repeat split. discriminate.
Qed.

(** ** The synchronous bindings, end to end *)

(** X23: from [paramsSync] through [kdfSync] to [kdfVerifySync].  With
    a memory budget below 2^64 - 1024 bytes and an operations budget that
    is a double of at least 32768, [paramsSync] returns an object whose
    [N] is the logarithm [pickparams] chose (from 10 to 53), with [r = 8]
    and [p >= 1]; given that object and a 32-byte salt, [kdfSync] returns a
    record of 96 bytes when the derivation succeeds, and [kdfVerifySync]
    on that record and the same key returns [true]. *)
Theorem sync_bindings_compose `{Primitives} :
  primitives_ok _ ->
  forall maxtime maxmemfrac maxmem osfreemem memlimit opps key salt w,
    Util.memtouse maxmem maxmemfrac osfreemem = Ok memlimit ->
    memlimit < 2 ^ 64 - 1024 ->
    scryptenc_cpuperf = Ok opps ->
    valid_binary prec emax (mul opps maxtime) = true ->
    SFleb (of_Z 32768) (mul opps maxtime) = true ->
    len salt = 32 ->
    exists obj,
      Sync.paramsSync maxtime maxmemfrac maxmem osfreemem
      = Some (Sync.Return obj) /\
      10 <= Sync.js_N obj <= 53 /\ Sync.js_r obj = 8 /\ 1 <= Sync.js_p obj < 2 ^ 27 /\
      (crypto_scrypt key salt (2 ^ Sync.js_N obj) 8 (Sync.js_p obj) 64 <> None ->
       exists kdf,
         snd (Sync.kdfSync key obj salt w) = Some (Sync.Return kdf) /\
         len kdf = 96 /\
         forall w', snd (Wrapper.kdfVerifySync kdf key w')
                    = Some (Wrapper.JsReturn true)).
Proof.
  intros OK maxtime maxmemfrac maxmem osfreemem memlimit opps key salt w
    Hmem Hbound Hperf Hvalid Hfloor Hsalt.
  pose proof (util_memtouse_floor _ _ _ _ Hmem) as Hmin.
  assert (Hpick : exists logN p,
             Wrapper.pickparams maxtime maxmem maxmemfrac osfreemem
             = Ok (logN, 8, p) /\ 10 <= logN <= 53 /\ 1 <= p < 2 ^ 27).
  { unfold Wrapper.pickparams. rewrite Hmem, Hperf. cbn [rbind].
    rewrite pickparams_limits_pick_from, floored_at_least_32768 by assumption.
    destruct (at_least_32768 _ Hvalid Hfloor) as [-> | (m & e & -> & Hm & He)].
    - destruct (pick_from_infinity_shape memlimit ltac:(lia))
        as (logN & p & Hpick & HlogN & Hp & _).
      exists logN, p. auto.
    - destruct (pick_from_finite_shape memlimit m e ltac:(lia) Hm He)
        as (logN & p & Hpick & HlogN & Hp & _).
      exists logN, p. auto. }
  destruct Hpick as (logN & p & Hpick & HlogN & Hp).
  exists {| Sync.js_N := logN; Sync.js_r := 8; Sync.js_p := p |}.
  cbn [Sync.js_N Sync.js_r Sync.js_p].
  split; [unfold Sync.paramsSync; rewrite Hpick; reflexivity|].
  split; [exact HlogN|]. split; [reflexivity|]. split; [exact Hp|].
  intros Hscrypt.
  assert (P27 : 2 ^ 27 < 2 ^ 32) by (apply Z.pow_lt_mono_r; lia).
  assert (P32 : 2 ^ 32 = 4294967296) by reflexivity.
  unfold Sync.kdfSync, Sync.Params_of.
  cbn [Sync.js_N Sync.js_r Sync.js_p Sync.N Sync.r Sync.p].
  unfold u32. rewrite !Z.mod_small by lia.
  rewrite KDF_spec by (assumption || lia). cbv zeta.
  destruct (crypto_scrypt key salt (2 ^ logN) 8 p 64) as [out|] eqn:E;
    [|contradiction Hscrypt; reflexivity].
  cbn [snd]. eexists. split; [reflexivity|].
  split; [apply len_sealed; assumption|].
  intros w'. unfold Wrapper.kdfVerifySync.
  rewrite (Verify_sealed OK key logN 8 p salt out w') by (try assumption; lia).
  reflexivity.
Qed.

(** ** Budgets that grow, budgets that are no number *)

(** X24: more memory never turns parameters down.  Parameters that
    [checkparams] accepts under a memory budget are accepted under every
    larger one, the throughput and the time allowed being the same. *)
Theorem checkparams_monotone_in_memory :
  forall memlimit memlimit' opps maxtime logN r p,
    0 <= memlimit <= memlimit' -> 0 <= r < 2 ^ 32 ->
    checkparams_limits memlimit opps maxtime logN r p = Ok tt ->
    checkparams_limits memlimit' opps maxtime logN r p = Ok tt.
Proof.
  intros memlimit memlimit' opps maxtime logN r p Hmem Hr.
  unfold checkparams_limits. cbv zeta.
  destruct ((logN <? 1) || (logN >? 63)) eqn:Erange; [discriminate|].
  apply orb_false_iff in Erange. destruct Erange as [E1 E2].
  apply Z.ltb_ge in E1. rewrite Z.gtb_ltb in E2. apply Z.ltb_ge in E2.
  destruct (u64 r * u64 p >=? 1073741824); [discriminate|].
  rewrite shl64_pow2 by lia. cbn [rbind].
  destruct (r =? 0) eqn:Er; [discriminate|].
  assert (H0 : 0 < 2 ^ logN) by (apply Z.pow_pos_nonneg; lia).
  destruct (memlimit / 2 ^ logN / r <? 128) eqn:E9; [discriminate|].
  apply Z.ltb_ge in E9. apply Z.eqb_neq in Er.
  assert (Hr0 : 0 < r) by lia.
  intros Hcpu.
  assert (Hmono : memlimit / 2 ^ logN / r <= memlimit' / 2 ^ logN / r).
  { apply Z.div_le_mono; [lia|]. apply Z.div_le_mono; lia. }
  destruct (memlimit' / 2 ^ logN / r <? 128) eqn:E9'; [apply Z.ltb_lt in E9'; lia|].
  exact Hcpu.
Qed.

(** X25: a time or throughput that is no number is not caught.  When
    [opps * maxtime] is a NaN, every comparison of [pickparams] is false:
    the floor of 32768 is not applied, the branch bound by memory is
    taken, the clamp is skipped, and the conversion [(uint32_t)(maxrp)] of
    a NaN is left undefined by C; [checkparams] compares the NaN with 4,
    finds it not below, and accepts the parameters that fit the memory. *)
Theorem nan_budget_is_not_caught :
  forall memlimit opps maxtime,
    mul opps maxtime = S754_nan ->
    pickparams_limits memlimit opps maxtime = Undef /\
    forall logN r p,
      1 <= logN <= 63 -> 0 < r < 2 ^ 32 -> 0 <= p < 2 ^ 32 -> r * p < 2 ^ 30 ->
      128 * 2 ^ logN * r <= memlimit ->
      checkparams_limits memlimit opps maxtime logN r p = Ok tt.
Proof.
  intros memlimit opps maxtime Hnan. split.
  - unfold pickparams_limits. rewrite Hnan. cbv zeta.
    change (ltb S754_nan (of_Z 32768)) with false. cbv iota.
    replace (ltb S754_nan (of_Z (memlimit / 32))) with false by reflexivity.
    match goal with |- context [scan_logN ?f ?l ?x] =>
      destruct (scan_logN_range f x l) as (logN & -> & HlogN); [lia|] end.
    cbn [rbind]. rewrite shl64_pow2 by lia. reflexivity.
  - intros logN r p HlogN Hr Hp Hrp Hmem.
    unfold checkparams_limits. cbv zeta. rewrite Hnan.
    destruct (logN <? 1) eqn:E1; [apply Z.ltb_lt in E1; lia|].
    destruct (logN >? 63) eqn:E2; [apply Z.gtb_lt in E2; lia|].
    cbn [orb].
    assert (Hu : u64 r * u64 p = r * p).
    { unfold u64. assert (2 ^ 32 < 2 ^ 64) by (apply Z.pow_lt_mono_r; lia).
      rewrite !Z.mod_small by lia. reflexivity. }
    rewrite Hu.
    destruct (r * p >=? 1073741824) eqn:E3; [apply Z.geb_le in E3; lia|].
    rewrite shl64_pow2 by lia. cbn [rbind].
    destruct (r =? 0) eqn:E4; [apply Z.eqb_eq in E4; lia|].
    assert (H0 : 0 < 2 ^ logN) by (apply Z.pow_pos_nonneg; lia).
    assert (Hq : 128 <= memlimit / 2 ^ logN / r).
    { apply Z.div_le_lower_bound; [lia|].
      apply Z.div_le_lower_bound; [lia|]. nia. }
    destruct (memlimit / 2 ^ logN / r <? 128) eqn:E5; [apply Z.ltb_lt in E5; lia|].
    reflexivity.
Qed.

(** ** The properties above on the toy platform *)

Lemma scryptdec_buf_short_input_witness :
  @scryptdec_buf Demo.fast [115; 99; 114] Demo.passwd 0 half Demo.one_second
    (Demo.blank 0) = (Demo.blank 0, Err 7).
Proof.
  exact (@scryptdec_buf_short_input Demo.fast [115; 99; 114] Demo.passwd 0 half
           Demo.one_second (Demo.blank 0) eq_refl).
Defined.

Lemma unknown_version_rejected_witness :
  @scryptdec_buf Demo.fast Samples.version_one Demo.passwd 0 half Demo.one_second
    (Demo.blank 0) = (Demo.blank 0, Err 8) /\
  @scryptdec_file Demo.fast Demo.passwd 0 half Demo.one_second
    (Demo.reading Samples.version_one [3; 4])
  = (Demo.reading [] [3; 4], Err 8).
Proof.
  assert (Hlen : 7 <= len Samples.version_one) by (vm_compute; discriminate).
  assert (Hver : at_ 6 Samples.version_one <> 0) by (vm_compute; discriminate).
  destruct (@unknown_version_rejected Demo.fast Samples.version_one Demo.passwd
              0 half Demo.one_second (Demo.blank 0) Hlen eq_refl Hver)
    as [Hbuf Hfile].
  split; [exact Hbuf | exact (Hfile [3; 4] false)].
Defined.

Lemma scryptdec_file_truncated_header_witness :
  @scryptdec_file Demo.fast Demo.passwd 0 half Demo.one_second
    (Demo.reading Samples.ten_bytes [3; 4])
  = (Demo.reading [] [3; 4], Err 7).
Proof.
  apply (@scryptdec_file_truncated_header Demo.fast Samples.ten_bytes [3; 4] false
           Demo.passwd 0 half Demo.one_second (Demo.blank 0)).
  - vm_compute. reflexivity.
  - intros _. split; vm_compute; reflexivity.
Defined.

Lemma scryptdec_buf_success_witness :
  128 <= len Demo.container /\ take 6 Demo.container = magic /\
  at_ 6 Demo.container = 0 /\
  @checkparams Demo.fast 0 half Demo.one_second 10 8 30 = Ok tt.
Proof.
  assert (Hrun : @scryptdec_buf Demo.fast Demo.container Demo.passwd 0 half
                   Demo.one_second (Demo.blank 133)
                 = (fst (@scryptdec_buf Demo.fast Demo.container Demo.passwd 0 half
                           Demo.one_second (Demo.blank 133)), Ok tt))
    by (vm_compute; reflexivity).
  destruct (@scryptdec_buf_success Demo.fast Demo.container Demo.passwd 0 half
              Demo.one_second (Demo.blank 133) _ Hrun)
    as (Hlen & Hmagic & Hver & _ & Hcheck & _).
  split; [exact Hlen|]. split; [exact Hmagic|]. split; [exact Hver|].
  exact Hcheck.
Defined.

Lemma wrong_password_decrypts_nothing_witness :
  snd (@scryptdec_buf Demo.fast Demo.container Samples.other_passwd 0 half
         Demo.one_second (Demo.blank 133)) = Err 11 /\
  outbuf (fst (@scryptdec_buf Demo.fast Demo.container Samples.other_passwd 0 half
                 Demo.one_second (Demo.blank 133))) = repeat 0 133 /\
  snd (@scryptdec_file Demo.fast Samples.other_passwd 0 half Demo.one_second
         (Demo.reading Demo.container [3; 4])) = Err 11.
Proof.
  assert (Hlen : 128 <= len Demo.container) by (vm_compute; discriminate).
  destruct (@wrong_password_decrypts_nothing Demo.fast Demo.container
              Samples.other_passwd 0 half Demo.one_second
              (Demo.ramp 64 7) Hlen eq_refl eq_refl eq_refl eq_refl)
    as [Hbuf Hfile].
  - vm_compute. reflexivity.
  - vm_compute. discriminate.
  - unfold Demo.reading.
    rewrite (Hbuf (Demo.blank 133)), (Hfile [3; 4] false (Demo.blank 0)).
    repeat split.
Defined.

Lemma zero_block_size_divides_by_zero_witness :
  len Samples.zero_r = 128 /\
  be32dec (drop 8 Samples.zero_r) = 0 /\
  @scryptdec_buf Demo.fast Samples.zero_r Demo.passwd 0 half Demo.one_second
    (Demo.blank 0) = (Demo.blank 0, Undef).
Proof.
  split; [reflexivity|]. split; [reflexivity|].
  apply (@zero_block_size_divides_by_zero Demo.fast Samples.zero_r Demo.passwd
           0 half Demo.one_second 1048576 Demo.million (Demo.blank 0)).
  - vm_compute. discriminate.
  - reflexivity.
  - reflexivity.
  - vm_compute. reflexivity.
  - vm_compute. split; discriminate.
  - reflexivity.
  - vm_compute. reflexivity.
  - reflexivity.
Defined.

Lemma zero_parallelism_passes_checkparams_witness :
  checkparams_limits 1048576 Demo.million (of_Z 0) 10 8 0 = Ok tt /\
  checkparams_limits 1048576 Demo.million (of_Z 0) 10 8 1 = Err 10.
Proof.
  split; [|vm_compute; reflexivity].
  apply (zero_parallelism_passes_checkparams 1048576 Demo.million (of_Z 0) 10 8).
  - lia.
  - vm_compute. split; reflexivity.
  - vm_compute. discriminate.
  - vm_compute. reflexivity.
Defined.

Lemma checkparams_memory_test_witness :
  checkparams_limits 1048576 Demo.million Demo.one_second 11 8 1 = Err 9.
Proof.
  apply (checkparams_memory_test 1048576 Demo.million Demo.one_second 11 8 1).
  - lia.
  - lia.
  - vm_compute. split; reflexivity.
  - vm_compute. split; [discriminate | reflexivity].
  - vm_compute. reflexivity.
  - vm_compute. reflexivity.
Defined.

Lemma scryptenc_buf_layout_witness :
  let o := outbuf (fst (Demo.enc_run Demo.one_second)) in
  len o = 133 /\ take 6 o = magic /\ at_ 6 o = 0 /\
  @pickparams Demo.fast 0 half Demo.one_second
  = Ok (at_ 7 o, be32dec (drop 8 o), be32dec (drop 12 o)).
Proof.
  cbv zeta.
  assert (Hcap : len Demo.plain + 128 <= len (outbuf (Demo.blank 133)))
    by (vm_compute; discriminate).
  assert (Hrun : @scryptenc_buf Demo.fast Demo.plain Demo.passwd 0 half
                   Demo.one_second (Demo.blank 133)
                 = (fst (Demo.enc_run Demo.one_second), Ok tt))
    by (vm_compute; reflexivity).
  destruct (@scryptenc_buf_layout Demo.fast (platform_ok _) Demo.plain Demo.passwd
              0 half Demo.one_second (Demo.blank 133) _ Hcap Hrun)
    as (Hlen & _ & Hmagic & Hver & Hpick & _).
  split; [exact Hlen|]. split; [exact Hmagic|]. split; [exact Hver | exact Hpick].
Defined.

Lemma no_cipher_ok : primitives_ok Samples.no_cipher.
Proof.
  split; cbn.
  - reflexivity.
  - reflexivity.
  - intros passwd salt N r p buflen out. unfold Demo.demo_scrypt.
    destruct (buflen <? 0) eqn:E; [discriminate|].
    intros [= <-]. rewrite len_ramp. lia.
  - intros buflen salt. destruct (buflen <? 0) eqn:E; [discriminate|].
    intros [= <-]. rewrite len_ramp. lia.
Qed.

Lemma scryptenc_buf_failure_witness :
  let run := @scryptenc_buf Samples.no_cipher Demo.plain Demo.passwd 0 half
               Demo.one_second (Demo.blank 133) in
  snd run = Err 5 /\
  drop 96 (outbuf (fst run)) = drop 96 (outbuf (Demo.blank 133)) /\
  take 6 (outbuf (fst run)) = magic.
Proof.
  cbv zeta.
  assert (Hcap : len Demo.plain + 128 <= len (outbuf (Demo.blank 133)))
    by (vm_compute; discriminate).
  assert (Hrun : @scryptenc_buf Samples.no_cipher Demo.plain Demo.passwd 0 half
                   Demo.one_second (Demo.blank 133)
                 = (fst (@scryptenc_buf Samples.no_cipher Demo.plain Demo.passwd 0
                           half Demo.one_second (Demo.blank 133)), Err 5))
    by (vm_compute; reflexivity).
  assert (Hres : @Err unit 5 <> Ok tt) by discriminate.
  destruct (@scryptenc_buf_failure Samples.no_cipher no_cipher_ok Demo.plain
              Demo.passwd 0 half Demo.one_second (Demo.blank 133) _ _ Hcap Hrun Hres)
    as (Hrest & _ & _).
  split; [vm_compute; reflexivity|]. split; [exact Hrest|].
  vm_compute. reflexivity.
Defined.

Lemma scryptenc_file_read_error_witness :
  let run := @scryptenc_file Demo.fast Demo.passwd 0 half Demo.one_second
               Samples.failing_stream in
  snd run = Err 13 /\
  out_data (outfile (fst run)) = take 101 Demo.container /\
  dk (fst run) = Demo.derived.
Proof.
  cbv zeta.
  assert (Hsetup : @scryptenc_setup Demo.fast Demo.passwd 0 half Demo.one_second
                     Samples.failing_stream
                   = (fst (@scryptenc_setup Demo.fast Demo.passwd 0 half
                             Demo.one_second Samples.failing_stream),
                      Ok (take 96 Demo.container)))
    by (vm_compute; reflexivity).
  destruct (@scryptenc_file_read_error Demo.fast (platform_ok _) Demo.passwd 0 half
              Demo.one_second Demo.plain [3; 4] Samples.failing_stream _ _
              (take 32 Demo.derived) eq_refl eq_refl Hsetup)
    as (Hres & Hout & _ & Hdk).
  - vm_compute. reflexivity.
  - reflexivity.
  - split; [exact Hres|]. split.
    + rewrite Hout. vm_compute. reflexivity.
    + rewrite Hdk. vm_compute. reflexivity.
Defined.

Lemma scryptdec_file_writes_before_tag_check_witness :
  let run := @scryptdec_file Demo.fast Demo.passwd 0 half Demo.one_second
               (Demo.reading Demo.tampered [3; 4]) in
  snd run = Err 7 /\ out_data (outfile (fst run)) = Demo.plain.
Proof.
  cbv zeta.
  assert (Hlen : 128 <= len Demo.tampered) by (vm_compute; discriminate).
  assert (Hsetup :
            @scryptdec_setup Demo.fast (take 96 Demo.tampered) Demo.passwd 0 half
              Demo.one_second
              (set_infile {| in_data := drop 96 Demo.tampered; in_cuts := [3; 4];
                             in_error := false |}
                 (Demo.reading Demo.tampered [3; 4]))
            = (fst (@scryptdec_setup Demo.fast (take 96 Demo.tampered) Demo.passwd
                      0 half Demo.one_second
                      (set_infile {| in_data := drop 96 Demo.tampered;
                                     in_cuts := [3; 4]; in_error := false |}
                         (Demo.reading Demo.tampered [3; 4]))), Ok tt))
    by (vm_compute; reflexivity).
  destruct (@scryptdec_file_writes_before_tag_check Demo.fast Demo.passwd 0 half
              Demo.one_second Demo.tampered [3; 4]
              (Demo.reading Demo.tampered [3; 4]) _ (take 32 Demo.derived)
              eq_refl eq_refl Hlen eq_refl eq_refl Hsetup)
    as (Hres & Hout & _).
  - vm_compute. reflexivity.
  - reflexivity.
  - vm_compute. discriminate.
  - split; [exact Hres|]. rewrite Hout. vm_compute. reflexivity.
Defined.

Lemma stream_roundtrip_witness :
  let enc := @scryptenc_file Demo.fast Demo.passwd 0 half Demo.one_second
               (Demo.reading Demo.plain [3; 4]) in
  snd enc = Ok tt /\
  len (out_data (outfile (fst enc))) = len Demo.plain + 128 /\
  exists wd1,
    @scryptdec_file Demo.fast Demo.passwd 0 half Demo.one_second
      (Demo.reading (out_data (outfile (fst enc))) [50; 1; 2]) = (wd1, Ok tt) /\
    out_data (outfile wd1) = Demo.plain.
Proof.
  cbv zeta.
  assert (Henc : @scryptenc_file Demo.fast Demo.passwd 0 half Demo.one_second
                   (Demo.reading Demo.plain [3; 4])
                 = (fst (@scryptenc_file Demo.fast Demo.passwd 0 half
                           Demo.one_second (Demo.reading Demo.plain [3; 4])), Ok tt))
    by (vm_compute; reflexivity).
  split; [rewrite Henc; reflexivity|].
  apply (@stream_roundtrip Demo.fast (platform_ok _) Demo.passwd 0 half
           Demo.one_second 0 half Demo.one_second Demo.plain [3; 4] [50; 1; 2]
           (Demo.reading Demo.plain [3; 4]) _
           (Demo.reading (out_data (outfile (fst (@scryptenc_file Demo.fast
              Demo.passwd 0 half Demo.one_second (Demo.reading Demo.plain [3; 4])))))
              [50; 1; 2])).
  - reflexivity.
  - reflexivity.
  - exact Henc.
  - intros logN r p E. vm_compute in E. injection E as <- <- <-.
    vm_compute. reflexivity.
  - reflexivity.
  - reflexivity.
Defined.

Lemma ScryptHashFunction_error_word_witness :
  let run := @Wrapper.ScryptHashFunction Samples.no_memory Demo.passwd
               (Demo.ramp 32 0) 1024 8 1 (Demo.blank 0) in
  exists e, snd run = Ok e /\ e <> 0 /\
            e mod 65536 = 3 /\ e / 65536 = 12 /\
            dk (fst run) = dk (Demo.blank 0).
Proof.
  assert (Herrno : 0 <= @scrypt_errno Samples.no_memory < 2 ^ 15)
    by (vm_compute; split; [discriminate | reflexivity]).
  exact (@ScryptHashFunction_error_word Samples.no_memory Demo.passwd
           (Demo.ramp 32 0) 1024 8 1 (Demo.blank 0) Herrno).
Defined.

Lemma records_and_headers_share_the_format_witness :
  snd (@Wrapper.kdfVerifySync Demo.fast (take 96 Demo.container) Demo.passwd
         (Demo.blank 0)) = Some (Wrapper.JsReturn true) /\
  snd (@scryptdec_setup Demo.fast Demo.record [9; 9] 0 half Demo.one_second
         (Demo.blank 0)) = Ok tt.
Proof.
  destruct (@records_and_headers_share_the_format Demo.fast (platform_ok _))
    as [Hheader Hrecord].
  assert (Hcap : len Demo.plain + 128 <= len (outbuf (Demo.blank 133)))
    by (vm_compute; discriminate).
  assert (Hrun : @scryptenc_buf Demo.fast Demo.plain Demo.passwd 0 half
                   Demo.one_second (Demo.blank 133)
                 = (fst (Demo.enc_run Demo.one_second), Ok tt))
    by (vm_compute; reflexivity).
  destruct (Hheader Demo.plain Demo.passwd 0 half Demo.one_second (Demo.blank 133)
              _ (Demo.blank 0) Hcap Hrun) as [_ Hjs].
  split.
  - exact Hjs.
  - apply (Hrecord [9; 9] 10 8 1 (Demo.ramp 32 0) (Demo.blank 0)
             (fst Demo.kdf_run) Demo.record 0 half Demo.one_second (Demo.blank 0)).
    + lia.
    + vm_compute. split; [discriminate | reflexivity].
    + vm_compute. split; [discriminate | reflexivity].
    + reflexivity.
    + vm_compute. reflexivity.
    + vm_compute. reflexivity.
Defined.

Lemma pickparams_choice_is_usable_witness :
  Util.memtouse 0 half (2 ^ 33) = Ok (2 ^ 32) /\
  exists logN p,
    @Wrapper.pickparams Demo.fast Demo.one_second 0 half (2 ^ 33) = Ok (logN, 8, p) /\
    10 <= logN <= 53 /\ 1 <= p < 2 ^ 27 /\
    128 * 2 ^ logN * 8 <= 2 ^ 32.
Proof.
  split; [reflexivity|].
  apply (@pickparams_choice_is_usable Demo.fast Demo.one_second 0 half (2 ^ 33)
           (2 ^ 32) Demo.million).
  - reflexivity.
  - reflexivity.
  - reflexivity.
  - reflexivity.
  - reflexivity.
Defined.

Lemma pickparams_takes_the_largest_N_witness :
  ltb (mul Demo.million Demo.one_second) (of_Z (2 ^ 32 / 32)) = true /\
  exists logN p,
    pickparams_limits (2 ^ 32) Demo.million Demo.one_second = Ok (logN, 8, p) /\
    p = 1 /\
    ltb (mul Demo.million Demo.one_second) (of_Z (4 * 2 ^ logN * 8)) = false /\
    ltb (mul Demo.million Demo.one_second) (of_Z (4 * 2 ^ (logN + 1) * 8)) = true.
Proof.
  split; [reflexivity|].
  assert (Hmem : 1048576 <= 2 ^ 32 < 2 ^ 64 - 1024)
    by (split; [discriminate | reflexivity]).
  exact (pickparams_takes_the_largest_N (2 ^ 32) Demo.million Demo.one_second
           Hmem eq_refl eq_refl).
Defined.

Lemma win_memtouse_allows_only_the_floor_witness :
  Win.memtouse Demo.probes (2 ^ 40) Demo.tenth = Ok 1048576 /\ 1048576 = 1048576.
Proof.
  split; [reflexivity|].
  apply (win_memtouse_allows_only_the_floor Demo.probes (2 ^ 40) Demo.tenth 1048576).
  - reflexivity.
  - reflexivity.
Defined.

Lemma util_memtouse_default_fraction_witness :
  Util.memtouse 0 (of_Z 0) (2 ^ 33) = Ok (2 ^ 32) /\
  Util.memtouse (2 ^ 30) (of_Z 1) (2 ^ 33) = Ok (2 ^ 30).
Proof.
  assert (Hmin : 0 <= 2 ^ 33 < 2 ^ 53) by (split; [discriminate | reflexivity]).
  split.
  - exact (util_memtouse_default_fraction 0 (of_Z 0) (2 ^ 33) Hmin eq_refl).
  - exact (util_memtouse_default_fraction (2 ^ 30) (of_Z 1) (2 ^ 33) Hmin eq_refl).
Defined.

Lemma scryptdec_file_derives_before_length_test_witness :
  let run := @scryptdec_file Demo.fast Demo.passwd 0 half Demo.one_second
               (Demo.reading Samples.hundred_bytes [3; 4]) in
  @scryptdec_buf Demo.fast Samples.hundred_bytes Demo.passwd 0 half Demo.one_second
    (Demo.blank 133) = (Demo.blank 133, Err 7) /\
  scrypt_calls (fst run)
  = [(Demo.passwd, slice 16 32 Samples.hundred_bytes, 1024, 8, 30, 64)] /\
  snd run <> Ok tt /\
  out_data (outfile (fst run)) = [].
Proof.
  apply (@scryptdec_file_derives_before_length_test Demo.fast Samples.hundred_bytes
           [3; 4] Demo.passwd 0 half Demo.one_second
           (Demo.reading Samples.hundred_bytes [3; 4]) (Demo.blank 133)).
  - reflexivity.
  - reflexivity.
  - vm_compute. split; [discriminate | reflexivity].
  - reflexivity.
  - reflexivity.
  - vm_compute. reflexivity.
  - vm_compute. reflexivity.
Defined.

Lemma wrapper_leaves_the_derived_key_witness :
  dk (fst Demo.kdf_run) = Demo.ramp 64 235 /\
  dk (fst (@Wrapper.Verify Demo.fast Demo.record [9; 9] (Demo.blank 0)))
  = Demo.ramp 64 235.
Proof.
  destruct (@wrapper_leaves_the_derived_key Demo.fast [9; 9] (Demo.blank 0)
              (Demo.ramp 64 235)) as [Hkdf Hverify].
  split.
  - apply (Hkdf 10 8 1 (Demo.ramp 32 0)).
    + vm_compute. split; discriminate.
    + vm_compute. reflexivity.
    + vm_compute. reflexivity.
  - apply (Hverify Demo.record).
    + vm_compute. split; discriminate.
    + vm_compute. reflexivity.
    + vm_compute. reflexivity.
Defined.

Lemma async_verify_agrees_with_sync_witness :
  snd (@Wrapper.Verify Demo.fast Demo.record Samples.other_passwd (Demo.blank 0))
  = Err 11 /\
  snd (@Async.kdfVerify Demo.fast Demo.record Samples.other_passwd (Demo.blank 0))
  = Some (Async.CallbackValue false) /\
  snd (@Wrapper.kdfVerifySync Demo.fast Demo.record Samples.other_passwd
         (Demo.blank 0)) = Some (Wrapper.JsReturn false).
Proof.
  assert (Hverify : snd (@Wrapper.Verify Demo.fast Demo.record Samples.other_passwd
                           (Demo.blank 0)) = Err 11) by (vm_compute; reflexivity).
  destruct (@async_verify_agrees_with_sync Demo.fast Demo.record
              Samples.other_passwd (Demo.blank 0)) as (_ & _ & Hfalse).
  split; [exact Hverify|]. split; [exact (Hfalse Hverify)|].
  vm_compute. reflexivity.
Defined.

Lemma sync_bindings_compose_witness :
  exists obj,
    @Sync.paramsSync Demo.fast Demo.one_second half 0 (2 ^ 33)
    = Some (Sync.Return obj) /\
    10 <= Sync.js_N obj <= 53 /\ Sync.js_r obj = 8 /\ 1 <= Sync.js_p obj < 2 ^ 27 /\
    (@crypto_scrypt Demo.fast Demo.passwd (Demo.ramp 32 0) (2 ^ Sync.js_N obj) 8
       (Sync.js_p obj) 64 <> None ->
     exists kdf,
       snd (@Sync.kdfSync Demo.fast Demo.passwd obj (Demo.ramp 32 0) (Demo.blank 0))
       = Some (Sync.Return kdf) /\
       len kdf = 96 /\
       forall w', snd (@Wrapper.kdfVerifySync Demo.fast kdf Demo.passwd w')
                  = Some (Wrapper.JsReturn true)).
Proof.
  apply (@sync_bindings_compose Demo.fast (platform_ok _) Demo.one_second half 0
           (2 ^ 33) (2 ^ 32) Demo.million Demo.passwd (Demo.ramp 32 0)
           (Demo.blank 0)).
  - reflexivity.
  - reflexivity.
  - reflexivity.
  - reflexivity.
  - reflexivity.
  - reflexivity.
Defined.

Lemma checkparams_monotone_in_memory_witness :
  checkparams_limits 1048576 Demo.million Demo.one_second 10 8 30 = Ok tt /\
  checkparams_limits (2 ^ 32) Demo.million Demo.one_second 10 8 30 = Ok tt.
Proof.
  assert (Hsmall : checkparams_limits 1048576 Demo.million Demo.one_second 10 8 30
                   = Ok tt) by (vm_compute; reflexivity).
  split; [exact Hsmall|].
  apply (checkparams_monotone_in_memory 1048576 (2 ^ 32) Demo.million
           Demo.one_second 10 8 30).
  - split; discriminate.
  - split; [discriminate | reflexivity].
  - exact Hsmall.
Defined.

Lemma nan_budget_is_not_caught_witness :
  mul Demo.million S754_nan = S754_nan /\
  pickparams_limits 1048576 Demo.million S754_nan = Undef /\
  checkparams_limits 1048576 Demo.million S754_nan 10 8 1000 = Ok tt.
Proof.
  destruct (nan_budget_is_not_caught 1048576 Demo.million S754_nan eq_refl)
    as [Hpick Hcheck].
  split; [reflexivity|]. split; [exact Hpick|].
  apply (Hcheck 10 8 1000).
  - lia.
  - vm_compute. split; reflexivity.
  - vm_compute. split; [discriminate | reflexivity].
  - vm_compute. reflexivity.
  - vm_compute. discriminate.
Defined.
